(** * Verification of the tweet collector in [modules/twitter_client.py]

    The development embeds [TwitterClient.get_recent_tweets] and its nested
    helpers [_get_user_tweets] and [process_tweet_elements].  The browser is
    an environment: every Selenium call the code makes is given by the
    outcome it produces (a value or a raised exception), so the Python
    control flow, its [try]/[except]/[finally] blocks and the mutable
    [processed_ids] set and cache dictionaries are what the definitions
    below reproduce.

    What the model takes for granted:
    - exceptions are the subclasses of [Exception]; [KeyboardInterrupt] and
      the like are not raised;
    - [driver.quit()], [time.sleep], [asyncio.sleep] and the logging calls
      return normally;
    - [_setup_driver] either returns a handle or raises without leaving a
      browser behind;
    - a [datetime] is an instant counted in microseconds; the clock
      readings are instants of the years 1 to 9999, and the bounds of this
      range are checked where the code computes a [datetime] (line 160);
      [datetime.fromisoformat] is a parameter;
    - a string of the scraper and of the configuration is the UTF-8 text of
      the Python string; [\d] matches the decimal digits of every script,
      while [lower], [\w] and white space act on ASCII letters, digits and
      blanks only.

    Beside the collector, the development embeds the configuration
    ([modules/config.py]), the handle filter of the test script
    ([cronjobs/test_twitter_client.py]) and the construction of the Discord
    messages in [cronjobs/generate_ai_summary.py] and
    [cronjobs/send_webhook.py].  The texts of these messages hold characters
    outside ASCII, so there a string is the list of its code points.  The
    HTTP posts are given by their outcomes; the files and the summarising
    model stay outside. *)

From Stdlib Require Import ZArith Ascii String List Lia.
From stdpp Require Import base option list gmap strings pretty.

Local Open Scope string_scope.
Local Open Scope list_scope.
Local Open Scope Z_scope.

(** ** Python values and exceptions *)

Module Py.

(** The exceptions the module names, and everything else below [Exception]. *)
Inductive exn :=
  | TimeoutException
  | NoSuchElementException
  | StaleElementReferenceException
  | TypeError
  | ValueError
  | AttributeError
  | IndexError
  | OverflowError
  | WebDriverException.

(** A call either returns or raises. *)
Inductive res (A : Type) :=
  | Ok (a : A)
  | Raise (e : exn).
Arguments Ok {A} a.
Arguments Raise {A} e.

#[global] Instance res_ret : MRet res := fun A a => Ok a.

#[global] Instance res_bind : MBind res := fun A B k r =>
  match r with
  | Ok a => k a
  | Raise e => Raise e
  end.

Definition is_ok {A} (r : res A) : bool :=
  match r with Ok _ => true | Raise _ => false end.

(** [datetime]: aware values are instants in microseconds since the epoch
    (comparison of aware values compares instants); a naive value carries no
    offset. *)
Inductive datetime :=
  | Aware (us : Z)
  | Naive (us : Z).

(** [a < b] on datetimes: mixing naive and aware raises [TypeError]. *)
Definition dt_lt (a b : datetime) : res bool :=
  match a, b with
  | Aware x, Aware y => Ok (x <? y)
  | Naive x, Naive y => Ok (x <? y)
  | _, _ => Raise TypeError
  end.

(** [timedelta(hours=h)] in microseconds. *)
Definition timedelta_hours (h : Z) : Z := h * 3600 * 1000000.

(** [datetime.min] and [datetime.max]: the first instant of the year 1 and
    the last microsecond of the year 9999. *)
Definition datetime_min : Z := -62135596800000000.
Definition datetime_max : Z := 253402300799999999.

(** [timedelta(hours=h)] raises [OverflowError] when it would hold more
    than 999999999 days, in either direction. *)
Definition timedelta_of_hours (h : Z) : res Z :=
  if (-999999999 <=? h / 24) && (h / 24 <=? 999999999)
  then Ok (timedelta_hours h) else Raise OverflowError.

(** [dt - td] raises [OverflowError] when the result is no [datetime]. *)
Definition datetime_sub (dt td : Z) : res Z :=
  if (datetime_min <=? dt - td) && (dt - td <=? datetime_max)
  then Ok (dt - td) else Raise OverflowError.

(** Line 160: [datetime.now(timezone.utc) - timedelta(hours=hours)], for
    the clock reading [now]. *)
Definition start_time_of (now hours : Z) : res Z :=
  match timedelta_of_hours hours with
  | Ok td => datetime_sub now td
  | Raise e => Raise e
  end.

(** The values stored in a tweet dictionary. *)
Inductive value :=
  | VStr (s : string)
  | VBool (b : bool)
  | VDatetime (d : datetime)
  | VList (l : list string).

End Py.
Import Py.

(** ** String operations used by the scraper *)

Module Str.

Definition is_upper (c : ascii) : bool :=
  let n := nat_of_ascii c in (65 <=? n)%nat && (n <=? 90)%nat.

(** An ASCII digit, as [is_word] needs it. *)
Definition is_digit (c : ascii) : bool :=
  let n := nat_of_ascii c in (48 <=? n)%nat && (n <=? 57)%nat.

(** [\w] on ASCII text: letters, digits and the underscore. *)
Definition is_word (c : ascii) : bool :=
  let n := nat_of_ascii c in
  is_digit c || ((65 <=? n)%nat && (n <=? 90)%nat)
  || ((97 <=? n)%nat && (n <=? 122)%nat) || (n =? 95)%nat.

Definition lower_char (c : ascii) : ascii :=
  if is_upper c then ascii_of_nat (nat_of_ascii c + 32) else c.

(** [s.lower()] *)
Fixpoint lower (s : string) : string :=
  match s with
  | EmptyString => EmptyString
  | String c s' => String (lower_char c) (lower s')
  end.

(** [s.split("/")[-1]]: the text after the last slash. *)
Fixpoint last_segment_aux (acc : string) (s : string) : string :=
  match s with
  | EmptyString => acc
  | String c s' =>
      if Ascii.eqb c "/" then last_segment_aux s' s'
      else last_segment_aux acc s'
  end.

Definition last_segment (s : string) : string := last_segment_aux s s.

Fixpoint starts_with (p s : string) : bool :=
  match p, s with
  | EmptyString, _ => true
  | String a p', String b s' => Ascii.eqb a b && starts_with p' s'
  | String _ _, EmptyString => false
  end.

Fixpoint drop (n : nat) (s : string) : string :=
  match n, s with
  | O, _ => s
  | S n', String _ s' => drop n' s'
  | S _, EmptyString => EmptyString
  end.

(** [needle in s] *)
Fixpoint contains (needle s : string) : bool :=
  starts_with needle s ||
  match s with
  | EmptyString => false
  | String _ s' => contains needle s'
  end.

(** [s[:n]] *)
Fixpoint take (n : nat) (s : string) : string :=
  match n, s with
  | S n', String c s' => String c (take n' s')
  | _, _ => EmptyString
  end.

(** The character at the head of [s], a text in UTF-8: its code point and
    the number of its bytes. *)
Definition head_char (s : string) : option (N * nat) :=
  match s with
  | EmptyString => None
  | String b0 s1 =>
      let n0 := N_of_ascii b0 in
      if (n0 <? 128)%N then Some (n0, 1%nat)
      else if (n0 <? 192)%N then None
      else if (n0 <? 224)%N then
        match s1 with
        | String b1 _ =>
            Some (((n0 - 192) * 64 + (N_of_ascii b1 - 128))%N, 2%nat)
        | _ => None
        end
      else if (n0 <? 240)%N then
        match s1 with
        | String b1 (String b2 _) =>
            Some ((((n0 - 224) * 64 + (N_of_ascii b1 - 128)) * 64
                   + (N_of_ascii b2 - 128))%N, 3%nat)
        | _ => None
        end
      else
        match s1 with
        | String b1 (String b2 (String b3 _)) =>
            Some (((((n0 - 240) * 64 + (N_of_ascii b1 - 128)) * 64
                    + (N_of_ascii b2 - 128)) * 64
                   + (N_of_ascii b3 - 128))%N, 4%nat)
        | _ => None
        end
  end.

(** The code points [\d] matches in a [str] pattern: the decimal digits of
    every script (category Nd, here of Unicode 14.0, the tables of
    CPython 3.11), as ranges. *)
Definition decimal_ranges : list (N * N) :=
  [(48, 57); (1632, 1641); (1776, 1785); (1984, 1993); (2406, 2415);
   (2534, 2543); (2662, 2671); (2790, 2799); (2918, 2927); (3046, 3055);
   (3174, 3183); (3302, 3311); (3430, 3439); (3558, 3567); (3664, 3673);
   (3792, 3801); (3872, 3881); (4160, 4169); (4240, 4249); (6112, 6121);
   (6160, 6169); (6470, 6479); (6608, 6617); (6784, 6793); (6800, 6809);
   (6992, 7001); (7088, 7097); (7232, 7241); (7248, 7257); (42528, 42537);
   (43216, 43225); (43264, 43273); (43472, 43481); (43504, 43513);
   (43600, 43609); (44016, 44025); (65296, 65305); (66720, 66729);
   (68912, 68921); (69734, 69743); (69872, 69881); (69942, 69951);
   (70096, 70105); (70384, 70393); (70736, 70745); (70864, 70873);
   (71248, 71257); (71360, 71369); (71472, 71481); (71904, 71913);
   (72016, 72025); (72784, 72793); (73040, 73049); (73120, 73129);
   (92768, 92777); (92864, 92873); (93008, 93017); (120782, 120831);
   (123200, 123209); (123632, 123641); (125264, 125273);
   (130032, 130041)]%N.

Definition is_decimal (c : N) : bool :=
  existsb (fun r => (fst r <=? c)%N && (c <=? snd r)%N) decimal_ranges.

(** [\d] at the head of [s]: the number of bytes of the digit that stands
    there, [0] if none does. *)
Definition digit_width (s : string) : nat :=
  match head_char s with
  | Some (c, n) => if is_decimal c then n else O
  | None => O
  end.

(** The longest prefix of digits; [fuel] bounds the number of digits. *)
Fixpoint digits_prefix_aux (fuel : nat) (s : string) : string :=
  match fuel with
  | O => EmptyString
  | S fuel' =>
      match digit_width s with
      | O => EmptyString
      | n => take n s +:+ digits_prefix_aux fuel' (drop n s)
      end
  end.

Definition digits_prefix (s : string) : string :=
  digits_prefix_aux (String.length s) s.

(** [re.search(r"/status/(\d+)", s)] and [.group(1)]: the leftmost place
    where ["/status/"] is followed by a digit, and the digits there. *)
Fixpoint search_status (s : string) : option string :=
  let here :=
    if starts_with "/status/" s then
      match digits_prefix (drop 8 s) with
      | EmptyString => None
      | d => Some d
      end
    else None in
  match here with
  | Some d => Some d
  | None =>
      match s with
      | EmptyString => None
      | String _ s' => search_status s'
      end
  end.

(** [s.replace("Z", "+00:00")] *)
Fixpoint replace_Z (s : string) : string :=
  match s with
  | EmptyString => EmptyString
  | String c s' =>
      if Ascii.eqb c "Z" then "+00:00" +:+ replace_Z s'
      else String c (replace_Z s')
  end.

Definition head_is_word (s : string) : bool :=
  match s with
  | EmptyString => false
  | String c _ => is_word c
  end.

(** [re.sub(r"&name=\w+", "&name=orig", s)].  [skip] counts the characters of
    a matched ["&name="] still to be dropped; [inword] says that the word
    characters of the match are being dropped. *)
Fixpoint sub_name_aux (skip : nat) (inword : bool) (s : string) : string :=
  match s with
  | EmptyString => EmptyString
  | String c s' =>
      match skip with
      | S k => sub_name_aux k (Nat.eqb k 0) s'
      | O =>
          if inword && is_word c then sub_name_aux O true s'
          else if starts_with "&name=" s && head_is_word (drop 6 s)
          then "&name=orig" +:+ sub_name_aux 5 false s'
          else String c (sub_name_aux O false s')
      end
  end.

Definition sub_name (s : string) : string := sub_name_aux O false s.

End Str.

(** ** The rendered page, as the scraper reads it *)

(** An attribute read [get_attribute(name)]: raises, or returns [None] or a
    string. *)
Definition attr := res (option string).

(** A [div[data-testid='User-Name']]: its [a] descendants, each with the
    outcome of reading its [href]. *)
Record author_element := { author_links : res (list attr) }.

(** A [div[data-testid='tweetPhoto']]: its [img] descendants, each with the
    outcome of reading its [src]. *)
Record photo := { img_elements : res (list attr) }.

(** One [article[data-testid='tweet']] container: the outcome of every read
    [process_tweet_elements] performs on it. *)
Record element := {
  tweet_links : res (list attr);          (* a[href*='/status/'] and their href *)
  user_name : res (list author_element);  (* div[data-testid='User-Name'] *)
  tweet_text : res (list (res string));   (* div[data-testid='tweetText'] and .text *)
  time_elements : res (list attr);        (* time elements and their datetime *)
  clock : Z;                              (* datetime.now(timezone.utc), line 259 *)
  tweet_photo : res (list photo)          (* div[data-testid='tweetPhoto'] *)
}.

(** A tweet dictionary: a key that was never stored is absent. *)
Abbreviation tweet := (gmap string value).

(** Python truthiness of an optional string: [None] and [""] are falsy. *)
Definition truthy (o : option string) : bool :=
  match o with
  | Some (String _ _) => true
  | _ => false
  end.

Definition max_scrolls : nat := 10.
Definition max_workers : nat := 3.
Definition cache_ttl_minutes : Z := 5.

(** ** The browser session of one collection task *)

(** What the orchestrating coroutine and a collection task do, in order. *)
Inductive event :=
  | Submit (username : string)   (* loop.run_in_executor(..., username) *)
  | Resume (username : string)   (* the awaited future delivers its result *)
  | Sleep                        (* await asyncio.sleep(1) *)
  | SetupDriver                  (* self._setup_driver() *)
  | Get (url : string)           (* driver.get(url) *)
  | AddCookie (i : nat)          (* driver.add_cookie(cookie) *)
  | Refresh                      (* driver.refresh() *)
  | WaitFor (selector : string)  (* WebDriverWait(driver, _).until(...) *)
  | FindTweets                   (* driver.find_elements(article) *)
  | Processed (n : nat)          (* process_tweet_elements accepted n, lines 313, 329 *)
  | ScrollBy (k : nat)           (* the two execute_script calls of scroll k *)
  | Quit.                        (* driver.quit() *)

#[global] Instance event_eq_dec : EqDecision event.
Proof. solve_decision. Defined.

(** A stored cookie is a dictionary; the code hands it to the browser and
    never branches on its content outside the per-cookie [try]. *)
Abbreviation cookie := (gmap string string).

(** The outcomes of the browser calls of one task. *)
Record session := {
  setup_driver : res unit;
  home_get : res unit;                       (* driver.get("https://twitter.com") *)
  add_cookie : nat -> res unit;
  refresh : res unit;
  wait_primary_column : res unit;
  profile_get : res unit;                    (* driver.get(url) *)
  wait_tweet : res unit;
  find_tweets : res (list element);          (* line 203 *)
  scroll_by : nat -> res unit;               (* lines 318-319 *)
  find_after_scroll : nat -> res (list element)  (* line 323 *)
}.

(** The local state of a task: whether [driver] is bound to a handle, and
    what the task did so far. *)
Record frame := { driver : bool; log : list event }.

Definition task (A : Type) : Type := frame -> frame * res A.

#[global] Instance task_ret : MRet task := fun A a f => (f, Ok a).

#[global] Instance task_bind : MBind task := fun A B k m f =>
  let '(f1, r) := m f in
  match r with
  | Ok a => k a f1
  | Raise e => (f1, Raise e)
  end.

Definition raise {A} (e : exn) : task A := fun f => (f, Raise e).

(** A browser call: it is recorded, then returns or raises. *)
Definition call {A} (ev : event) (r : res A) : task A := fun f =>
  ({| driver := driver f; log := log f ++ [ev] |}, r).

(** [driver = ...] *)
Definition assign_driver : task unit := fun f =>
  ({| driver := true; log := log f |}, Ok ()).

Definition read_driver : task bool := fun f => (f, Ok (driver f)).

(** The outcome of a [try] body, handed to its [except] clauses. *)
Definition attempt {A} (m : task A) : task (res A) := fun f =>
  let '(f1, r) := m f in (f1, Ok r).

(** [try: body  except Exception as e: handler(e)  finally: finalizer] *)
Definition try_except_finally {A} (body : task A) (handler : exn -> task A)
    (finalizer : task unit) : task A := fun f =>
  let '(f1, r1) := body f in
  let '(f2, r2) :=
    match r1 with
    | Ok a => (f1, Ok a)
    | Raise e => handler e f1
    end in
  let '(f3, r3) := finalizer f2 in
  (f3, match r3 with Ok _ => r2 | Raise e => Raise e end).

(** The client object: configuration, loaded cookies and the two cache
    dictionaries. *)
Record client := {
  twitter_users : list string;
  _cookies : option (list cookie);
  _tweets_cache : gmap string (gmap string (list tweet));
  _tweets_cache_time : gmap string Z
}.

(** Lines 120-121 of [_apply_cookies]: a domain loses its leading dot.  The
    cookie dictionaries are those of [self._cookies], so the change is seen
    by every later task. *)
Definition normalize_domain (ck : cookie) : cookie :=
  match ck !! "domain" with
  | Some (String "." rest) => <["domain" := rest]> ck
  | _ => ck
  end.

(** The cookie dictionaries after the events [tr].  The loop of lines
    117-126 rewrites the domain of a cookie in place and then hands the
    cookie to the browser; [AddCookie i] records that turn of the loop for
    the cookie at position [i]. *)
Fixpoint cookies_after (tr : list event) (cookies : list cookie)
  : list cookie :=
  match tr with
  | [] => cookies
  | AddCookie i :: tr' => cookies_after tr' (alter normalize_domain i cookies)
  | _ :: tr' => cookies_after tr' cookies
  end.

(** The client object after the events [tr] of a task. *)
Definition after_events (c : client) (tr : list event) : client :=
  {| twitter_users := twitter_users c;
     _cookies := cookies_after tr <$> _cookies c;
     _tweets_cache := _tweets_cache c;
     _tweets_cache_time := _tweets_cache_time c |}.

Section Scraper.

(** [datetime.fromisoformat] is the standard library's. *)
Variable fromisoformat : string -> res datetime.

(** *** [process_tweet_elements], lines 207-308 *)

(** Lines 212-221: the permalink and the id in it.  [Ok None] is a
    [continue]. *)
Definition tweet_identity (e : element) : res (option (string * string)) :=
  links ← tweet_links e;
  match links with
  | [] => Ok None
  | l0 :: _ =>
      tweet_url ← l0;
      match tweet_url with
      | None => Raise TypeError
      | Some url =>
          match Str.search_status url with
          | None => Ok None
          | Some tweet_id => Ok (Some (url, tweet_id))
          end
      end
  end.

(** Lines 234-240: [author_username], when the container shows one. *)
Definition author_username (e : element) : res (option string) :=
  author_elements ← user_name e;
  match author_elements with
  | [] => Ok None
  | a0 :: _ =>
      links ← author_links a0;
      match links with
      | _ :: l1 :: _ =>
          author_href ← l1;
          match author_href with
          | None => Raise AttributeError
          | Some h => Ok (Some (Str.lower (Str.last_segment h)))
          end
      | _ => Ok None
      end
  end.

(** Lines 230-248: [(is_retweet, original_author)]; the inner [except]
    leaves both at their initial values. *)
Definition retweet_status (username : string) (e : element)
  : bool * option string :=
  match author_username e with
  | Ok (Some a) =>
      if negb (String.eqb a (Str.lower username)) then (true, Some a)
      else (false, None)
  | Ok None => (false, None)
  | Raise _ => (false, None)
  end.

(** Lines 251-252 *)
Definition tweet_text_of (e : element) : res string :=
  els ← tweet_text e;
  match els with
  | [] => Ok ""
  | t0 :: _ => t0
  end.

(** Lines 258-265 *)
Definition created_at_of (e : element) : res datetime :=
  els ← time_elements e;
  match els with
  | [] => Ok (Aware (clock e))
  | t0 :: _ =>
      timestamp ← t0;
      match timestamp with
      | Some (String c ts) => fromisoformat (Str.replace_Z (String c ts))
      | _ => Ok (Aware (clock e))
      end
  end.

(** Lines 279-285: the [img] loop; the flag says that a read raised. *)
Fixpoint scan_imgs (imgs : list attr) (image_urls : list string)
  : list string * bool :=
  match imgs with
  | [] => (image_urls, false)
  | Raise _ :: _ => (image_urls, true)
  | Ok img_url :: rest =>
      match img_url with
      | Some url =>
          if truthy img_url && Str.contains "https://pbs.twimg.com/media" url
          then scan_imgs rest (image_urls ++ [Str.sub_name url])
          else scan_imgs rest image_urls
      | None => scan_imgs rest image_urls
      end
  end.

(** Lines 276-278: the container loop. *)
Fixpoint scan_containers (cs : list photo) (image_urls : list string)
  : list string * bool :=
  match cs with
  | [] => (image_urls, false)
  | c :: rest =>
      match img_elements c with
      | Raise _ => (image_urls, true)
      | Ok imgs =>
          let '(image_urls', raised) := scan_imgs imgs image_urls in
          if raised then (image_urls', true)
          else scan_containers rest image_urls'
      end
  end.

(** Lines 272-287: what was appended before an exception stays. *)
Definition image_urls_of (e : element) : list string :=
  match tweet_photo e with
  | Raise _ => []
  | Ok cs => fst (scan_containers cs [])
  end.

(** Lines 229-301, after the id was recorded.  [Ok None] is the [continue]
    of line 269. *)
Definition tweet_data_of (username : string) (start_time : Z) (e : element)
    (tweet_url tweet_id : string) : res (option tweet) :=
  let '(is_retweet, original_author) := retweet_status username e in
  text ← tweet_text_of e;
  created_at ← created_at_of e;
  too_old ← dt_lt created_at (Aware start_time);
  if (too_old : bool) then Ok None
  else
    let image_urls := image_urls_of e in
    let tweet_data : tweet :=
      <["is_retweet" := VBool is_retweet]>
      (<["url" := VStr tweet_url]>
      (<["image_urls" := VList image_urls]>
      (<["created_at" := VDatetime created_at]>
      (<["text" := VStr text]>
      (<["id" := VStr tweet_id]> ∅))))) in
    match original_author with
    | Some a =>
        if is_retweet && truthy original_author
        then Ok (Some (<["original_author" := VStr a]> tweet_data))
        else Ok (Some tweet_data)
    | None => Ok (Some tweet_data)
    end.

(** One turn of the [for] loop of line 209 on the pair
    [(processed_ids, processed)].  Both [except] clauses of lines 303-307
    go on with the next container. *)
Definition process_tweet_element (username : string) (start_time : Z)
    (st : gset string * list tweet) (e : element) : gset string * list tweet :=
  let '(processed_ids, processed) := st in
  match tweet_identity e with
  | Ok (Some (tweet_url, tweet_id)) =>
      if bool_decide (tweet_id ∈ processed_ids) then st
      else
        let processed_ids' := processed_ids ∪ {[tweet_id]} in
        match tweet_data_of username start_time e tweet_url tweet_id with
        | Ok (Some tweet_data) => (processed_ids', (processed ++ [tweet_data])%list)
        | Ok None => (processed_ids', processed)
        | Raise _ => (processed_ids', processed)
        end
  | Ok None => st
  | Raise _ => st
  end.

(** [process_tweet_elements(elements)]: the set [processed_ids] of the
    enclosing run is shared by all calls, the list [processed] is fresh. *)
Definition process_tweet_elements (username : string) (start_time : Z)
    (processed_ids : gset string) (elements : list element)
  : gset string * list tweet :=
  fold_left (process_tweet_element username start_time) elements
            (processed_ids, []).

(** *** [_apply_cookies], lines 97-145 *)

(** Lines 117-126: an error while adding one cookie is logged and the loop
    goes on.  The event [AddCookie i] stands for lines 120-124 on the cookie
    at position [i]: its domain is rewritten in place ([normalize_domain])
    and the cookie is handed to the browser.  What this leaves in
    [self._cookies] is [cookies_after] of the events. *)
Fixpoint add_cookies (s : session) (i : nat) (cookies : list cookie)
  : task unit :=
  match cookies with
  | [] => mret ()
  | _ :: rest =>
      _ ← attempt (call (AddCookie i) (add_cookie s i));
      add_cookies s (S i) rest
  end.

Definition _apply_cookies (c : client) (s : session) : task bool :=
  match _cookies c with
  | None => mret false
  | Some [] => mret false
  | Some cookies =>
      r ← attempt (
        _ ← call (Get "https://twitter.com") (home_get s);
        _ ← add_cookies s 0 cookies;
        _ ← call Refresh (refresh s);
        w ← attempt (call (WaitFor "div[data-testid='primaryColumn']")
                          (wait_primary_column s));
        match w with
        | Ok _ => mret true
        | Raise TimeoutException => mret false
        | Raise e => raise e
        end);
      match r with
      | Ok b => mret b
      | Raise _ => mret false
      end
  end.

(** *** [_get_user_tweets], lines 163-345 *)

(** Lines 316-333: [fuel] turns of the scroll loop are left, the next one
    is turn [scroll_count]. *)
Fixpoint scroll_loop (username : string) (start_time : Z) (s : session)
    (fuel scroll_count : nat) (processed_ids : gset string)
    (user_tweets : list tweet) : task (list tweet) :=
  match fuel with
  | O => mret user_tweets
  | S fuel' =>
      _ ← call (ScrollBy scroll_count) (scroll_by s scroll_count);
      new_tweet_elements ← call FindTweets (find_after_scroll s scroll_count);
      let '(processed_ids', new_tweets) :=
        process_tweet_elements username start_time processed_ids
                               new_tweet_elements in
      _ ← call (Processed (length new_tweets)) (Ok ());
      let user_tweets' := (user_tweets ++ new_tweets)%list in
      if Nat.eqb (length new_tweets) 0 then mret user_tweets'
      else scroll_loop username start_time s fuel' (S scroll_count)
                       processed_ids' user_tweets'
  end.

(** Lines 168-336: the body of the outer [try] once [driver] is bound. *)
Definition browse (c : client) (start_time : Z) (username : string)
    (s : session) : task (list tweet) :=
  applied ← _apply_cookies c s;
  if negb applied then mret []
  else
    let user_tweets : list tweet := [] in
    _ ← call (Get ("https://twitter.com/" +:+ username)) (profile_get s);
    w ← attempt (call (WaitFor "article[data-testid='tweet']") (wait_tweet s));
    match w with
    | Raise TimeoutException => mret []
    | Raise e => raise e
    | Ok _ =>
        let processed_ids : gset string := ∅ in
        tweet_elements ← call FindTweets (find_tweets s);
        let '(processed_ids', initial_tweets) :=
          process_tweet_elements username start_time processed_ids
                                 tweet_elements in
        let user_tweets' := (user_tweets ++ initial_tweets)%list in
        _ ← call (Processed (length initial_tweets)) (Ok ());
        scroll_loop username start_time s max_scrolls 0 processed_ids'
                    user_tweets'
    end.

(** Lines 166-336: the body of the outer [try]. *)
Definition fetch (c : client) (start_time : Z) (username : string)
    (s : session) : task (list tweet) :=
  _ ← call SetupDriver (setup_driver s);
  _ ← assign_driver;
  browse c start_time username s.

Definition _get_user_tweets (c : client) (start_time : Z) (username : string)
    (s : session) : task (list tweet) :=
  try_except_finally
    (fetch c start_time username s)
    (fun e =>
       match e with
       | TimeoutException => mret []
       | _ => mret []
       end)
    (d ← read_driver;
     if (d : bool) then call Quit (Ok ()) else mret ()).

(** *** [get_recent_tweets], lines 147-368 *)

(** [f"tweets_{hours}"] *)
Definition cache_key (hours : Z) : string := "tweets_" +:+ pretty hours.

(** Line 157 *)
Definition empty_by_user (users : list string) : gmap string (list tweet) :=
  fold_left (fun m username => <[Str.lower username := []]> m) users ∅.

(** Lines 348-362.  The coroutine is suspended at the [await] until the task
    has run to its end; an exception of the task would be raised there.
    Task [i] of the run uses the browser session [sessions i] and finds the
    cookies as the tasks before it have left them. *)
Fixpoint collect_users (c : client) (start_time : Z)
    (sessions : nat -> session) (i : nat) (users : list string)
    (tweets_by_user : gmap string (list tweet))
  : list event * res (gmap string (list tweet)) * client :=
  match users with
  | [] => ([], Ok tweets_by_user, c)
  | username :: rest =>
      let '(f, r) :=
        _get_user_tweets c start_time username (sessions i)
                         {| driver := false; log := [] |} in
      let c' := after_events c (log f) in
      match r with
      | Raise e => ((Submit username :: log f)%list, Raise e, c')
      | Ok tweets =>
          let '(tr, r', c'') :=
            collect_users c' start_time sessions (S i) rest
                          (<[Str.lower username := tweets]> tweets_by_user) in
          ((Submit username :: log f ++ Resume username :: Sleep :: tr)%list,
           r', c'')
      end
  end.

(** Lines 151-153.  [total_seconds()] of a difference of [d] microseconds is
    below [cache_ttl_minutes * 60] exactly when [d] is below that many
    millions. *)
Definition cache_lookup (c : client) (hours : Z) (current_time : Z)
  : option (gmap string (list tweet)) :=
  match _tweets_cache c !! cache_key hours,
        _tweets_cache_time c !! cache_key hours with
  | Some cached, Some fetched_at =>
      if current_time - fetched_at <? cache_ttl_minutes * 60 * 1000000
      then Some cached else None
  | _, _ => None
  end.

(** [current_time] is the clock at line 149, [start_now] the clock at
    line 160.  Line 160 is outside every [try]: when it raises, the call
    raises, before any task is started and with nothing stored. *)
Definition get_recent_tweets (c : client) (hours : Z)
    (current_time start_now : Z) (sessions : nat -> session)
  : list event * res (gmap string (list tweet)) * client :=
  match cache_lookup c hours current_time with
  | Some cached => ([], Ok cached, c)
  | None =>
      let tweets_by_user := empty_by_user (twitter_users c) in
      match start_time_of start_now hours with
      | Raise e => ([], Raise e, c)
      | Ok start_time =>
          let '(tr, r, c') :=
            collect_users c start_time sessions 0 (twitter_users c)
                          tweets_by_user in
          match r with
          | Raise e => (tr, Raise e, c')
          | Ok tweets_by_user' =>
              (tr, Ok tweets_by_user',
               {| twitter_users := twitter_users c';
                  _cookies := _cookies c';
                  _tweets_cache :=
                    <[cache_key hours := tweets_by_user']> (_tweets_cache c');
                  _tweets_cache_time :=
                    <[cache_key hours := current_time]>
                      (_tweets_cache_time c') |})
          end
      end
  end.

End Scraper.

(** ** Notions used in the statements *)

(** The value stored under ['original_author'], if the key is stored. *)
Definition stored_original_author (username : string) (e : element)
  : option value :=
  match retweet_status username e with
  | (true, Some (String c a)) => Some (VStr (String c a))
  | _ => None
  end.

(** The keys a tweet dictionary can hold. *)
Definition tweet_keys : list string :=
  ["id"; "text"; "created_at"; "image_urls"; "url"; "is_retweet";
   "original_author"].

(** [identified e i]: the permalink of [e] is read and carries the id [i]. *)
Definition identified (e : element) (i : string) : Prop :=
  exists url, tweet_identity e = Ok (Some (url, i)).

(** [extracted e i t]: [e] carries the id [i] and yields the dictionary [t]. *)
Definition extracted (fromisoformat : string -> res datetime)
    (username : string) (start_time : Z) (e : element) (i : string)
    (t : tweet) : Prop :=
  exists url,
    tweet_identity e = Ok (Some (url, i)) /\
    tweet_data_of fromisoformat username start_time e url i = Ok (Some t).

(** [extend f tr]: the frame [f] after the events [tr]. *)
Definition extend (f : frame) (tr : list event) : frame :=
  {| driver := driver f; log := (log f ++ tr)%list |}.

(** A task that neither reads nor binds [driver]: from every frame it adds
    the events [tr] and has the outcome [r]. *)
Definition uniform {A} (m : task A) (tr : list event) (r : res A) : Prop :=
  forall f, m f = (extend f tr, r).

(** The number of calls of [process_tweet_elements] among the events. *)
Fixpoint rounds (tr : list event) : nat :=
  match tr with
  | [] => O
  | Processed _ :: tr' => S (rounds tr')
  | _ :: tr' => rounds tr'
  end.

(** Events of the session set-up: no teardown and no extraction round. *)
Definition setup_events (tr : list event) : Prop :=
  (Quit ∉ tr) /\ rounds tr = O.

(** The list a call returned, nothing if it raised. *)
Definition from_ok {A} (r : res (list A)) : list A :=
  match r with
  | Ok l => l
  | Raise _ => []
  end.

(** The optional value a call returned, nothing if it raised. *)
Definition from_ok_option {A} (r : res (option A)) : option A :=
  match r with
  | Ok o => o
  | Raise _ => None
  end.

(** The containers found by the scrolls [k], ..., [k + n - 1]. *)
Fixpoint scroll_elements (s : session) (k n : nat) : list element :=
  match n with
  | O => []
  | S n' => from_ok (find_after_scroll s k) ++ scroll_elements s (S k) n'
  end.

(** The containers of the first [n] extraction rounds, in reading order. *)
Definition run_elements (s : session) (n : nat) : list element :=
  match n with
  | O => []
  | S n' => from_ok (find_tweets s) ++ scroll_elements s 0 n'
  end.

(** Whether [_apply_cookies] reports a logged-in session. *)
Definition session_applied (c : client) (s : session) : bool :=
  match (_apply_cookies c s {| driver := true; log := [] |}).2 with
  | Ok b => b
  | Raise _ => false
  end.

(** A run that returns tweets went through every step of the set-up. *)
Definition clean_start (c : client) (s : session) : Prop :=
  session_applied c s = true /\ is_ok (profile_get s) = true /\
  is_ok (wait_tweet s) = true /\ is_ok (find_tweets s) = true.

(** Events of the coroutine itself, as opposed to those of a task. *)
Definition is_dispatch (ev : event) : bool :=
  match ev with
  | Submit _ | Resume _ | Sleep => true
  | _ => false
  end.

(** [emits m]: whatever [m] does, it only adds task events to the log. *)
Definition emits {A} (m : task A) : Prop :=
  forall f f' r, m f = (f', r) ->
    exists tr,
      log f' = log f ++ tr /\
      forallb (fun ev => negb (is_dispatch ev)) tr = true.

(** A task starts with [driver = None] (line 164). *)
Definition init_frame : frame := {| driver := false; log := [] |}.

(** The list the awaited task of an account delivers, and the events of
    the task. *)
Definition task_result (fromisoformat : string -> res datetime) (c : client)
    (start_time : Z) (username : string) (s : session) : list tweet :=
  from_ok (_get_user_tweets fromisoformat c start_time username s init_frame).2.

Definition task_log (fromisoformat : string -> res datetime) (c : client)
    (start_time : Z) (username : string) (s : session) : list event :=
  log (_get_user_tweets fromisoformat c start_time username s init_frame).1.

(** The number of account tasks submitted and not yet delivered, at its
    highest over the events [tr], when [n] are in flight before them. *)
Fixpoint peak (n : nat) (tr : list event) : nat :=
  match tr with
  | [] => n
  | Submit _ :: tr' => Nat.max n (peak (S n) tr')
  | Resume _ :: tr' => Nat.max n (peak (Nat.pred n) tr')
  | _ :: tr' => peak n tr'
  end.

(** The accounts in the order in which their tasks are submitted. *)
Fixpoint submitted (tr : list event) : list string :=
  match tr with
  | [] => []
  | Submit u :: tr' => u :: submitted tr'
  | _ :: tr' => submitted tr'
  end.

(** The events of the tasks of the accounts [users], the first of which is
    task number [i]. *)
Fixpoint run_trace (fromisoformat : string -> res datetime) (c : client)
    (start_time : Z) (sessions : nat -> session) (i : nat)
    (users : list string) : list event :=
  match users with
  | [] => []
  | username :: rest =>
      Submit username
      :: task_log fromisoformat c start_time username (sessions i)
      ++ Resume username :: Sleep
      :: run_trace fromisoformat c start_time sessions (S i) rest
  end.

(** The dictionary after the results of these tasks were stored in turn. *)
Fixpoint merge_results (fromisoformat : string -> res datetime) (c : client)
    (start_time : Z) (sessions : nat -> session) (i : nat)
    (users : list string) (m : gmap string (list tweet))
  : gmap string (list tweet) :=
  match users with
  | [] => m
  | username :: rest =>
      merge_results fromisoformat c start_time sessions (S i) rest
        (<[Str.lower username :=
             task_result fromisoformat c start_time username (sessions i)]> m)
  end.

(** Every tweet of [m] is dated, and not before [start_time]. *)
Definition within_window (start_time : Z) (m : gmap string (list tweet))
  : Prop :=
  forall k l (t : tweet), m !! k = Some l -> t ∈ l ->
    exists ts,
      t !! "created_at" = Some (VDatetime (Aware ts)) /\ start_time <= ts.

(** The client after a run that stored [m]. *)
Definition stored (c : client) (hours current_time : Z)
    (m : gmap string (list tweet)) : client :=
  {| twitter_users := twitter_users c;
     _cookies := _cookies c;
     _tweets_cache := <[cache_key hours := m]> (_tweets_cache c);
     _tweets_cache_time :=
       <[cache_key hours := current_time]> (_tweets_cache_time c) |}.

(** What the run of a call that is not served from the cache collects. *)
Definition collected (fromisoformat : string -> res datetime) (c : client)
    (hours start_now : Z) (sessions : nat -> session)
  : gmap string (list tweet) :=
  merge_results fromisoformat c (start_now - timedelta_hours hours) sessions
                0 (twitter_users c) (empty_by_user (twitter_users c)).


(** The hit condition in the words of the specification: an entry for
    exactly this number of hours whose age is below the five minutes of the
    time-to-live (in microseconds).  [cache_lookup] is the code. *)
Definition fresh_entry (c : client) (hours current_time : Z)
    (cached : gmap string (list tweet)) : Prop :=
  exists fetched_at,
    _tweets_cache c !! cache_key hours = Some cached /\
    _tweets_cache_time c !! cache_key hours = Some fetched_at /\
    current_time - fetched_at < 300000000.

(** ** A rendered page to run the collector on *)

Module Fixture.

(** A parser for the two timestamps of the page below. *)
Definition iso (ts : string) : res datetime :=
  if String.eqb ts "2024-01-01T00:00:00.000+00:00"
  then Ok (Aware 1704067200000000)
  else if String.eqb ts "2024-01-01T00:00:01.000+00:00"
  then Ok (Aware 1704067201000000)
  else Raise ValueError.

(** A container with a permalink, an author link and a timestamp. *)
Definition article (url author_href ts : string) : element :=
  {| tweet_links := Ok [Ok (Some url)];
     user_name :=
       Ok [{| author_links := Ok [Ok (Some author_href);
                                  Ok (Some author_href)] |}];
     tweet_text := Ok [Ok "hello"];
     time_elements := Ok [Ok (Some ts)];
     clock := 1704067300000000;
     tweet_photo :=
       Ok [{| img_elements :=
                Ok [Ok (Some
                  "https://pbs.twimg.com/media/A?format=jpg&name=small")] |}]
  |}.

Definition T0 : string := "2024-01-01T00:00:00.000Z".
Definition T1 : string := "2024-01-01T00:00:01.000Z".

Definition e1 : element :=
  article "https://twitter.com/NASA/status/1" "https://twitter.com/NASA" T0.

Definition e2 : element :=
  article "https://twitter.com/NASA/status/2" "https://twitter.com/NASA" T1.

(** A repost: the author link is another account's. *)
Definition e_repost : element :=
  article "https://twitter.com/esa/status/7" "https://twitter.com/ESA" T1.

(** An author link that ends in a slash. *)
Definition e_slash : element :=
  article "https://twitter.com/esa/status/8" "https://twitter.com/esa/" T1.

(** A container with no [time] element. *)
Definition e_untimed : element :=
  {| tweet_links := Ok [Ok (Some "https://twitter.com/NASA/status/3")];
     user_name := Ok [];
     tweet_text := Ok [];
     time_elements := Ok [];
     clock := 1704067300000000;
     tweet_photo := Ok [] |}.

(** A container whose text can no longer be read once its id is known. *)
Definition e_stale : element :=
  {| tweet_links := Ok [Ok (Some "https://twitter.com/NASA/status/4")];
     user_name := Ok [];
     tweet_text := Raise StaleElementReferenceException;
     time_elements := Ok [];
     clock := 1704067300000000;
     tweet_photo := Ok [] |}.

(** The same tweet, readable. *)
Definition e_stale_again : element :=
  article "https://twitter.com/NASA/status/4" "https://twitter.com/NASA" T1.

(** A session in which every call succeeds; [first] is on the page when it
    has loaded and [later k] after scroll [k]. *)
Definition page (first : list element) (later : nat -> list element)
  : session :=
  {| setup_driver := Ok ();
     home_get := Ok ();
     add_cookie := fun _ => Ok ();
     refresh := Ok ();
     wait_primary_column := Ok ();
     profile_get := Ok ();
     wait_tweet := Ok ();
     find_tweets := Ok first;
     scroll_by := fun _ => Ok ();
     find_after_scroll := fun k => Ok (later k) |}.

(** The page of the three-round scenario. *)
Definition three_rounds : session :=
  page [e1] (fun k => match k with O => [e1; e2] | _ => [] end).

(** A session whose cookies are not accepted. *)
Definition rejected : session :=
  {| setup_driver := Ok ();
     home_get := Ok ();
     add_cookie := fun _ => Ok ();
     refresh := Ok ();
     wait_primary_column := Raise TimeoutException;
     profile_get := Ok ();
     wait_tweet := Ok ();
     find_tweets := Ok [e1];
     scroll_by := fun _ => Ok ();
     find_after_scroll := fun _ => Ok [] |}.

(** A session whose profile page shows no tweet in time. *)
Definition timed_out : session :=
  {| setup_driver := Ok ();
     home_get := Ok ();
     add_cookie := fun _ => Ok ();
     refresh := Ok ();
     wait_primary_column := Ok ();
     profile_get := Ok ();
     wait_tweet := Raise TimeoutException;
     find_tweets := Ok [];
     scroll_by := fun _ => Ok ();
     find_after_scroll := fun _ => Ok [] |}.

(** A session that breaks down at the second scroll. *)
Definition broken : session :=
  {| setup_driver := Ok ();
     home_get := Ok ();
     add_cookie := fun _ => Ok ();
     refresh := Ok ();
     wait_primary_column := Ok ();
     profile_get := Ok ();
     wait_tweet := Ok ();
     find_tweets := Ok [e1];
     scroll_by := fun k => match k with O => Ok () | _ => Raise WebDriverException end;
     find_after_scroll := fun _ => Ok [e2] |}.

(** Tweet number [k] of an endless page. *)
Definition numbered (k : nat) : element :=
  article ("https://twitter.com/NASA/status/" +:+ pretty k)
          "https://twitter.com/NASA" T1.

(** A page that shows one more tweet after every scroll. *)
Definition endless : session :=
  page [numbered 0] (fun k => [numbered (S k)]).

(** A page whose first scroll shows nothing new and whose second scroll
    would show another tweet. *)
Definition late_content : session :=
  page [e1] (fun k => match k with
                      | O => [e1]
                      | _ => [e2]
                      end).

Definition client_of (users : list string) : client :=
  {| twitter_users := users;
     _cookies := Some [{["name" := "auth_token"]}];
     _tweets_cache := ∅;
     _tweets_cache_time := ∅ |}.

(** 2024-01-01T00:01:40Z and the start of a 24 hour window before it. *)
Definition now : Z := 1704067300000000.
Definition window_start : Z := now - timedelta_hours 24.

End Fixture.

(** ** Notions used in the further properties *)

(** The number of scrolls among the events. *)
Fixpoint scrolls (tr : list event) : nat :=
  match tr with
  | [] => O
  | ScrollBy _ :: tr' => S (scrolls tr')
  | _ :: tr' => scrolls tr'
  end.

(** What one pass over the containers of the first [n] extraction rounds of
    a task accepts. *)
Definition accepted_in (fromisoformat : string -> res datetime)
    (username : string) (start_time : Z) (s : session) (n : nat)
  : list tweet :=
  (process_tweet_elements fromisoformat username start_time ∅
     (run_elements s n)).2.

(** The same for the scroll rounds [k], ..., [k + n - 1], entered with the
    ids [seen]. *)
Definition accepted_from (fromisoformat : string -> res datetime)
    (username : string) (start_time : Z) (s : session)
    (seen : gset string) (k n : nat) : list tweet :=
  (process_tweet_elements fromisoformat username start_time seen
     (scroll_elements s k n)).2.

(** [only P m]: whatever [m] does, it only adds events that satisfy [P]. *)
Definition only {A} (P : event -> bool) (m : task A) : Prop :=
  forall f f' r, m f = (f', r) ->
    exists tr, log f' = log f ++ tr /\ forallb P tr = true.

Definition is_scroll (ev : event) : bool :=
  match ev with
  | ScrollBy _ => true
  | _ => false
  end.

(** The id a container shows, if its permalink can be read. *)
Definition element_id (e : element) : option string :=
  match tweet_identity e with
  | Ok (Some (_, i)) => Some i
  | _ => None
  end.

(** A string of decimal digits: the characters [\d] matches. *)
Definition all_digits (s : string) : bool :=
  String.eqb (Str.digits_prefix s) s.

(** The cookies handed to the browser, by position, in the order of the
    events. *)
Fixpoint cookies_added (tr : list event) : list nat :=
  match tr with
  | [] => []
  | AddCookie i :: tr' => i :: cookies_added tr'
  | _ :: tr' => cookies_added tr'
  end.

(** ** The configuration, [modules/config.py] *)

(** Text operations of [Config.__init__] and of the bot's messages. *)
Module Text.

(** [str.isspace] on ASCII: tab to carriage return, the four separators
    28-31 and the space. *)
Definition is_space (c : ascii) : bool :=
  let n := nat_of_ascii c in
  ((9 <=? n)%nat && (n <=? 13)%nat) || ((28 <=? n)%nat && (n <=? 32)%nat).

(** [s.split(sep)] for a separator of one character: never empty. *)
Fixpoint split_on (sep : ascii) (s : string) : list string :=
  match s with
  | EmptyString => [EmptyString]
  | String c s' =>
      if Ascii.eqb c sep then EmptyString :: split_on sep s'
      else match split_on sep s' with
           | p :: ps => String c p :: ps
           | [] => [String c EmptyString]
           end
  end.

(** [s.lstrip()] *)
Fixpoint lstrip (s : string) : string :=
  match s with
  | EmptyString => EmptyString
  | String c s' => if is_space c then lstrip s' else s
  end.

(** [s.rstrip()] *)
Fixpoint rstrip (s : string) : string :=
  match s with
  | EmptyString => EmptyString
  | String c s' =>
      match rstrip s' with
      | EmptyString => if is_space c then EmptyString else String c EmptyString
      | r => String c r
      end
  end.

(** [s.strip()] *)
Definition strip (s : string) : string := rstrip (lstrip s).

(** [sep.join(parts)] *)
Fixpoint join (sep : string) (parts : list string) : string :=
  match parts with
  | [] => EmptyString
  | [p] => p
  | p :: rest => p +:+ sep +:+ join sep rest
  end.

(** [c not in s] *)
Fixpoint free_of (c : ascii) (s : string) : bool :=
  match s with
  | EmptyString => true
  | String a s' => negb (Ascii.eqb a c) && free_of c s'
  end.

Definition nonempty (s : string) : bool :=
  match s with
  | EmptyString => false
  | String _ _ => true
  end.

End Text.

Module Config.

(** The five [ValueError]s of [_validate_config], by the variable they
    name. *)
Inductive error :=
  | DISCORD_TOKEN_required
  | TWITTER_USERS_required
  | AI_PROVIDER_invalid
  | OPENAI_API_KEY_required
  | DEEPSEEK_API_KEY_required.

Record t := {
  discord_token : option string;
  summary_channel_id : string;
  discord_guild_id : option string;
  discord_channel_id : option string;
  twitter_users : list string;
  twitter_bearer_token : option string;
  twitter_api_key : option string;
  twitter_api_secret : option string;
  twitter_access_token : option string;
  twitter_access_secret : option string;
  twitter_email : option string;
  twitter_password : option string;
  ai_provider : string;
  openai_api_key : option string;
  openai_model : string;
  deepseek_api_key : option string;
  deepseek_model : option string
}.

(** Line 22: the handles of [TWITTER_USERS]. *)
Definition parse_users (twitter_users_str : string) : list string :=
  filter (fun user => Text.nonempty user = true)
         (Text.strip <$> Text.split_on "," twitter_users_str).

(** Lines 14-42: the fields, read from the environment. *)
Definition load (environ : gmap string string) : t :=
  {| discord_token := environ !! "DISCORD_TOKEN";
     summary_channel_id := default "" (environ !! "SUMMARY_CHANNEL_ID");
     discord_guild_id := environ !! "DISCORD_GUILD_ID";
     discord_channel_id := environ !! "DISCORD_CHANNEL_ID";
     twitter_users := parse_users (default "" (environ !! "TWITTER_USERS"));
     twitter_bearer_token := environ !! "TWITTER_BEARER_TOKEN";
     twitter_api_key := environ !! "TWITTER_API_KEY";
     twitter_api_secret := environ !! "TWITTER_API_SECRET";
     twitter_access_token := environ !! "TWITTER_ACCESS_TOKEN";
     twitter_access_secret := environ !! "TWITTER_ACCESS_SECRET";
     twitter_email := environ !! "TWITTER_EMAIL";
     twitter_password := environ !! "TWITTER_PASSWORD";
     ai_provider := Str.lower (default "openai" (environ !! "AI_PROVIDER"));
     openai_api_key := environ !! "OPENAI_API_KEY";
     openai_model := default "gpt-3.5-turbo" (environ !! "OPENAI_MODEL");
     deepseek_api_key := environ !! "DEEPSEEK_API_KEY";
     deepseek_model := environ !! "DEEPSEEK_MODEL" |}.

(** Lines 47-62: the first check that fails, if any. *)
Definition _validate_config (self : t) : option error :=
  if negb (truthy (discord_token self)) then Some DISCORD_TOKEN_required
  else if match twitter_users self with [] => true | _ => false end
  then Some TWITTER_USERS_required
  else if negb (String.eqb (ai_provider self) "openai"
                || String.eqb (ai_provider self) "deepseek")
  then Some AI_PROVIDER_invalid
  else if String.eqb (ai_provider self) "openai"
          && negb (truthy (openai_api_key self))
  then Some OPENAI_API_KEY_required
  else if String.eqb (ai_provider self) "deepseek"
          && negb (truthy (deepseek_api_key self))
  then Some DEEPSEEK_API_KEY_required
  else None.

(** [Config()]: the object, or the [ValueError] raised. *)
Definition init (environ : gmap string string) : error + t :=
  match _validate_config (load environ) with
  | Some err => inl err
  | None => inr (load environ)
  end.

(** A handle as [parse_users] yields them. *)
Definition clean (user : string) : Prop :=
  user <> "" /\ Text.strip user = user /\ Text.free_of "," user = true.

End Config.

(** ** The client object and a series of calls *)

(** [_load_cookies], lines 59-76: nothing when the file does not exist
    ([None]) and when opening or unpickling it raises. *)
Definition _load_cookies (cookie_file : option (res (list cookie)))
  : option (list cookie) :=
  match cookie_file with
  | None => None
  | Some (Ok cookies) => Some cookies
  | Some (Raise _) => None
  end.

(** [TwitterClient(config)], lines 32-57. *)
Definition TwitterClient (config : Config.t)
    (cookie_file : option (res (list cookie))) : client :=
  {| twitter_users := Config.twitter_users config;
     _cookies := _load_cookies cookie_file;
     _tweets_cache := ∅;
     _tweets_cache_time := ∅ |}.

(** One call of [get_recent_tweets]: the hours asked for, the two clock
    readings and the browser sessions of its tasks. *)
Record request := {
  req_hours : Z;
  req_current_time : Z;
  req_start_now : Z;
  req_sessions : nat -> session
}.

(** The client after the calls [reqs], made one after the other. *)
Fixpoint serve (fromisoformat : string -> res datetime) (c : client)
    (reqs : list request) : client :=
  match reqs with
  | [] => c
  | r :: rest =>
      serve fromisoformat
        (get_recent_tweets fromisoformat c (req_hours r)
           (req_current_time r) (req_start_now r) (req_sessions r)).2
        rest
  end.

(** A result dictionary with exactly the lower-cased handles as keys. *)
Definition keyed_by (users : list string) (m : gmap string (list tweet))
  : Prop :=
  forall key, is_Some (m !! key) <-> key ∈ Str.lower <$> users.

(** ** The images of a container *)

(** The [src] attributes the scraper can read on the [img] descendants of
    the photo containers of [e], in page order. *)
Definition photo_sources (e : element) : list string :=
  c ← from_ok (tweet_photo e);
  omap (fun img => match img with
                   | Ok (Some url) => Some url
                   | _ => None
                   end)
       (from_ok (img_elements c)).

(** Those that are media images, in original size. *)
Definition media_urls (e : element) : list string :=
  Str.sub_name
    <$> filter (fun url => Str.contains "https://pbs.twimg.com/media" url = true)
               (photo_sources e).

(** No read of the image part of [e] raises. *)
Definition photos_readable (e : element) : bool :=
  match tweet_photo e with
  | Raise _ => false
  | Ok cs =>
      forallb (fun c => match img_elements c with
                        | Raise _ => false
                        | Ok imgs => forallb is_ok imgs
                        end) cs
  end.

(** ** The test script, [cronjobs/test_twitter_client.py] *)

(** Lines 76-83: the entries of the accounts [username]. *)
Definition filtered_tweets (username : list string)
    (tweets_by_user : gmap string (list tweet)) : gmap string (list tweet) :=
  fold_left
    (fun filtered user =>
       let user_lower := Str.lower user in
       match tweets_by_user !! user_lower with
       | Some tweets => <[user_lower := tweets]> filtered
       | None => filtered
       end)
    username ∅.

(** ** The messages sent to Discord *)

(** A Python string whose characters may lie outside ASCII: the list of its
    code points, so that [len] is [length] and [s[:n]] is [take n s]. *)
Module U.

Definition ustr := list N.

(** An ASCII literal. *)
Definition lit (s : string) : ustr := N_of_ascii <$> list_ascii_of_string s.

(** [str.isspace] of one character. *)
Definition isspace (c : N) : bool :=
  (((9 <=? c) && (c <=? 13)) || ((28 <=? c) && (c <=? 32))
   || (c =? 133) || (c =? 160) || (c =? 5760)
   || ((8192 <=? c) && (c <=? 8202))
   || (c =? 8232) || (c =? 8233) || (c =? 8239) || (c =? 8287)
   || (c =? 12288))%N.

Fixpoint lstrip (p : N -> bool) (s : ustr) : ustr :=
  match s with
  | [] => []
  | c :: s' => if p c then lstrip p s' else s
  end.

Definition rstrip (p : N -> bool) (s : ustr) : ustr :=
  rev (lstrip p (rev s)).

(** [s.strip()] is [strip isspace s], [s.strip("*")] is
    [strip (N.eqb 42) s]. *)
Definition strip (p : N -> bool) (s : ustr) : ustr := rstrip p (lstrip p s).

(** [s.split(sep)] for a separator of one character. *)
Fixpoint split_char (sep : N) (s : ustr) : list ustr :=
  match s with
  | [] => [[]]
  | c :: s' =>
      if N.eqb c sep then [] :: split_char sep s'
      else match split_char sep s' with
           | p :: ps => (c :: p) :: ps
           | [] => [[c]]
           end
  end.

(** [s.split("####")]: the leftmost occurrences, none overlapping. *)
Fixpoint split_hashes (s : ustr) : list ustr :=
  match s with
  | [] => [[]]
  | c :: s' =>
      match s' with
      | c2 :: c3 :: c4 :: rest =>
          if ((c =? 35) && (c2 =? 35) && (c3 =? 35) && (c4 =? 35))%N
          then [] :: split_hashes rest
          else match split_hashes s' with
               | p :: ps => (c :: p) :: ps
               | [] => [[c]]
               end
      | _ => match split_hashes s' with
             | p :: ps => (c :: p) :: ps
             | [] => [[c]]
             end
      end
  end.

(** [sep.join(parts)] *)
Fixpoint join (sep : ustr) (parts : list ustr) : ustr :=
  match parts with
  | [] => []
  | [p] => p
  | p :: rest => p ++ sep ++ join sep rest
  end.

End U.

(** A tweet of the JSON file that [save_tweets_to_markdown] writes with
    [json.dump(..., default=str)] from the dictionaries of the client:
    the six keys are always there and the time is a string. *)
Record jtweet := {
  j_id : U.ustr;
  j_text : U.ustr;
  j_created_at : U.ustr;
  j_image_urls : list U.ustr;
  j_url : U.ustr;
  j_is_retweet : bool;
  j_original_author : option U.ustr
}.

(** *** [cronjobs/generate_ai_summary.py] *)

Module GenerateAiSummary.

Record embed := {
  title : U.ustr;
  description : U.ustr;
  footer : option U.ustr
}.

Section Embeds.

(** The f-strings of lines 101 and 105. *)
Variable main_title : U.ustr.
Variable footer_text : U.ustr.

(** Lines 110-124: the embed of one section after the first, if any. *)
Definition section_embed (section : U.ustr) : option embed :=
  match U.strip U.isspace section with
  | [] => None
  | stripped =>
      let lines := U.split_char 10%N stripped in
      Some {| title :=
                U.strip U.isspace
                  (U.strip (N.eqb 42%N) (U.strip U.isspace (hd [] lines)));
              description := U.strip U.isspace (U.join [10%N] (tl lines));
              footer := None |}
  end.

(** Lines 94-124: the embeds of the summary message. *)
Definition summary_embeds (summary : U.ustr) : list embed :=
  let sections := U.split_hashes summary in
  (if (1 <? length sections)%nat then
     match U.strip U.isspace (hd [] sections) with
     | [] => []
     | main_summary =>
         [ {| title := main_title;
              description := main_summary;
              footer := Some footer_text |} ]
     end
   else [])
  ++ omap section_embed (tl sections).

End Embeds.

(** Line 136: the content the links message starts with. *)
Definition links_header : U.ustr :=
  U.lit "**" ++ [21407; 22987; 25512; 25991; 36899; 32080; 65306]%N
  ++ U.lit "**" ++ [10%N].

(** Lines 138-141 *)
Definition links_content (username : U.ustr) (tweets : list jtweet)
  : U.ustr :=
  U.lit "**User: " ++ username ++ U.lit "**" ++ [10%N]
  ++ concat ((fun tweet => j_url tweet ++ [10%N]) <$> tweets) ++ [10%N].

(** Lines 137-153: the contents handed to [send_message_to_discord] while
    the accounts are gone through, and the content left at the end. *)
Fixpoint links_loop (tweets_data : list (U.ustr * list jtweet))
    (content : U.ustr) : list U.ustr * U.ustr :=
  match tweets_data with
  | [] => ([], content)
  | (username, tweets) :: rest =>
      let links_content := links_content username tweets in
      if (1900 <? length (content ++ links_content))%nat then
        let '(sent, final) := links_loop rest links_content in
        (content :: sent, final)
      else links_loop rest (content ++ links_content)
  end.

(** Lines 136-161: the contents of the link messages, in the order in
    which they are sent. *)
Definition links_messages (tweets_data : list (U.ustr * list jtweet))
  : list U.ustr :=
  let '(sent, final) := links_loop tweets_data links_header in
  match U.strip U.isspace final with
  | [] => sent
  | _ => sent ++ [final]
  end.

End GenerateAiSummary.

(** *** [cronjobs/send_webhook.py] *)

Module SendWebhook.

Record embed := {
  title : option U.ustr;
  description : option U.ustr;
  url : U.ustr;
  color : option Z;
  footer : option U.ustr;
  author : option U.ustr;
  image : option U.ustr
}.

(** Line 114 *)
Definition tweet_type (tweet : jtweet) : U.ustr :=
  if j_is_retweet tweet then [36681; 25512]%N else [25512; 25991]%N.

(** Line 118 *)
Definition title_of (tweet : jtweet) : U.ustr :=
  tweet_type tweet ++ U.lit ": " ++ take 100 (j_text tweet)
  ++ (if (100 <? length (j_text tweet))%nat then U.lit "..." else []).

(** Line 119 *)
Definition description_of (tweet : jtweet) : U.ustr :=
  if (length (j_text tweet) <=? 500)%nat then j_text tweet
  else take 497 (j_text tweet) ++ U.lit "...".

(** Lines 117-132: the embed of the tweet itself. *)
Definition tweet_embed (tweet : jtweet) : embed :=
  {| title := Some (title_of tweet);
     description := Some (description_of tweet);
     url := j_url tweet;
     color := Some (if negb (j_is_retweet tweet) then 1942002 else 15844367);
     footer := Some ([128338; 32]%N ++ j_created_at tweet
                     ++ U.lit " | Tweet ID: " ++ j_id tweet);
     author :=
       match j_original_author tweet with
       | Some original_author =>
           if j_is_retweet tweet
           then Some ([21407; 20316; 32773]%N ++ U.lit ": @"
                      ++ original_author)
           else None
       | None => None
       end;
     image := None |}.

(** Lines 135-154: the embeds one tweet adds to the message of its
    account. *)
Definition tweet_embeds (tweet : jtweet) : list embed :=
  match j_image_urls tweet with
  | [] => [tweet_embed tweet]
  | first :: more =>
      {| title := title (tweet_embed tweet);
         description := description (tweet_embed tweet);
         url := url (tweet_embed tweet);
         color := color (tweet_embed tweet);
         footer := footer (tweet_embed tweet);
         author := author (tweet_embed tweet);
         image := Some first |}
      :: ((fun img_url =>
             {| title := None; description := None; url := j_url tweet;
                color := None; footer := None; author := None;
                image := Some img_url |}) <$> more)
  end.

(** Lines 100-159: the message of every account that has tweets, in the
    order of the file, as the loop builds them one after the other. *)
Definition user_messages (tweets_data : list (U.ustr * list jtweet))
  : list (U.ustr * list embed) :=
  omap (fun '(username, tweets) =>
          match take 5 tweets with
          | [] => None
          | recent_tweets =>
              Some (username, t ← recent_tweets; tweet_embeds t)
          end)
       tweets_data.

(** What a call hands to [requests.post]. *)
Inductive message :=
  | Given                                   (* [message_data], line 50 *)
  | Summary (fields : list (U.ustr * nat))  (* lines 74-95 *)
  | UserTweets (username : U.ustr) (embeds : list embed)  (* lines 107-157 *)
  | JsonFile.                               (* lines 162-176 *)

(** Lines 86-92: the name and the number of tweets of every account. *)
Definition summary_fields (tweets_data : list (U.ustr * list jtweet))
  : list (U.ustr * nat) :=
  (fun '(username, tweets) => (username, length tweets)) <$> tweets_data.

(** The posts of a call on the Twitter data when none of them fails. *)
Definition all_messages (tweets_data : list (U.ustr * list jtweet))
  : list message :=
  Summary (summary_fields tweets_data)
  :: ((fun '(username, embeds) => UserTweets username embeds)
        <$> user_messages tweets_data)
  ++ [JsonFile].

(** Post number [k] of a call is [requests.post] followed by
    [raise_for_status]; [posts k] is its outcome.  An exception ends the
    call (line 182): [send_posts] hands the messages over in turn up to
    the first one whose post raises, and says whether none did. *)
Fixpoint send_posts (posts : nat -> res unit) (k : nat)
    (messages : list message) : list message * bool :=
  match messages with
  | [] => ([], true)
  | m :: rest =>
      match posts k with
      | Raise _ => ([m], false)
      | Ok _ =>
          let '(sent, ok) := send_posts posts (S k) rest in
          (m :: sent, ok)
      end
  end.

(** [send_message_to_discord], lines 23-184: the messages handed to
    [requests.post], in order, and the value returned.  [message_data] says
    that a non-empty message was given.  [files] is [None] when a path is
    missing or names no file, and else the outcome of loading the JSON
    file.  The messages of the accounts are built and posted one by one, so
    what follows a failing post is never built. *)
Definition send_message_to_discord (posts : nat -> res unit)
    (message_data : bool)
    (files : option (res (list (U.ustr * list jtweet))))
  : list message * bool :=
  if message_data then send_posts posts 0 [Given]
  else
    match files with
    | None => ([], false)
    | Some (Raise _) => ([], false)
    | Some (Ok tweets_data) => send_posts posts 0 (all_messages tweets_data)
    end.

End SendWebhook.

(** ** From the dictionaries of the client to the JSON file *)

(** What [json.dump(..., ensure_ascii=False, default=str)] and [json.load]
    make of a tweet dictionary that has the six keys of a tweet with values
    of their types: strings, lists and booleans as they are, the time as
    [str] renders it. *)
Definition jtweet_of (str_of_datetime : datetime -> U.ustr) (t : tweet)
  : option jtweet :=
  match t !! "id", t !! "text", t !! "created_at", t !! "image_urls",
        t !! "url", t !! "is_retweet" with
  | Some (VStr tweet_id), Some (VStr text), Some (VDatetime created_at),
    Some (VList image_urls), Some (VStr tweet_url), Some (VBool is_retweet) =>
      match t !! "original_author" with
      | None =>
          Some {| j_id := U.lit tweet_id; j_text := U.lit text;
                  j_created_at := str_of_datetime created_at;
                  j_image_urls := U.lit <$> image_urls;
                  j_url := U.lit tweet_url; j_is_retweet := is_retweet;
                  j_original_author := None |}
      | Some (VStr original_author) =>
          Some {| j_id := U.lit tweet_id; j_text := U.lit text;
                  j_created_at := str_of_datetime created_at;
                  j_image_urls := U.lit <$> image_urls;
                  j_url := U.lit tweet_url; j_is_retweet := is_retweet;
                  j_original_author := Some (U.lit original_author) |}
      | Some _ => None
      end
  | _, _, _, _, _, _ => None
  end.

(** * Lemmas *)

(** ** The string operations on examples *)

Example lower_ex : Str.lower "NASA_jpl9" = "nasa_jpl9".
Proof. reflexivity. Qed.

Example last_segment_ex : Str.last_segment "https://twitter.com/NASA" = "NASA".
Proof. reflexivity. Qed.

Example last_segment_slash : Str.last_segment "https://twitter.com/NASA/" = "".
Proof. reflexivity. Qed.

Example search_status_ex :
  Str.search_status "https://twitter.com/NASA/status/1234?s=20" = Some "1234".
Proof. reflexivity. Qed.

Example search_status_none :
  Str.search_status "https://twitter.com/NASA/status/" = None.
Proof. reflexivity. Qed.

Example sub_name_ex :
  Str.sub_name "https://pbs.twimg.com/media/A?format=jpg&name=small"
  = "https://pbs.twimg.com/media/A?format=jpg&name=orig".
Proof. reflexivity. Qed.

Example sub_name_mid :
  Str.sub_name "a&name=900x900&b&name=&name=x" = "a&name=orig&b&name=&name=orig".
Proof. reflexivity. Qed.


(** ** Facts about one container *)

(** Adding an id to [processed_ids]. *)
Lemma added_elem (seen : gset string) i : i ∈ seen ∪ {[i]}.
Proof. set_solver. Qed.

Lemma added_subseteq (seen seen' : gset string) i :
  seen ∪ {[i]} ⊆ seen' -> seen ⊆ seen'.
Proof. set_solver. Qed.

Lemma added_not_elem (seen : gset string) i j :
  j ∉ seen ∪ {[i]} -> j ∉ seen.
Proof. set_solver. Qed.

Lemma added_inv (seen : gset string) i j :
  j ∈ seen ∪ {[i]} -> j ∈ seen \/ j = i.
Proof. set_solver. Qed.

Section ContainerFacts.

Variable fromisoformat : string -> res datetime.
Variable username : string.
Variable start_time : Z.

Local Abbreviation tweet_data :=
  (tweet_data_of fromisoformat username start_time).
Local Abbreviation process_one :=
  (process_tweet_element fromisoformat username start_time).
Local Abbreviation process_all :=
  (process_tweet_elements fromisoformat username start_time).

(** What an accepted container puts in its dictionary. *)
Lemma tweet_data_of_spec e tweet_url tweet_id (t : tweet) :
  tweet_data e tweet_url tweet_id = Ok (Some t) ->
  exists text ts,
    tweet_text_of e = Ok text /\
    created_at_of fromisoformat e = Ok (Aware ts) /\
    start_time <= ts /\
    t !! "id" = Some (VStr tweet_id) /\
    t !! "text" = Some (VStr text) /\
    t !! "created_at" = Some (VDatetime (Aware ts)) /\
    t !! "image_urls" = Some (VList (image_urls_of e)) /\
    t !! "url" = Some (VStr tweet_url) /\
    t !! "is_retweet" = Some (VBool (fst (retweet_status username e))) /\
    t !! "original_author" = stored_original_author username e /\
    (forall k, k ∉ tweet_keys -> t !! k = None).
Proof.
  unfold tweet_data_of, stored_original_author.
  destruct (retweet_status username e) as [is_retweet original_author] eqn:Hrt.
  destruct (tweet_text_of e) as [text|] eqn:Htext; simpl; [|discriminate].
  destruct (created_at_of fromisoformat e) as [created_at|] eqn:Hcr; simpl;
    [|discriminate].
  destruct created_at as [ts|ts]; simpl; [|discriminate].
  destruct (ts <? start_time) eqn:Hlt; [discriminate|].
  apply Z.ltb_ge in Hlt.
  intros Ht. exists text, ts.
  repeat split; try done;
    destruct original_author as [[|c a]|], is_retweet; simpl in Ht;
      simplify_eq; try (by simplify_map_eq);
      intros k Hk; unfold tweet_keys in Hk;
      repeat (rewrite lookup_insert_ne; [|set_solver]); apply lookup_empty.
Qed.

(** The flag and the stored author, in terms of [author_username]. *)
Lemma retweet_status_spec e :
  (fst (retweet_status username e) = true <->
   exists a, author_username e = Ok (Some a) /\ a <> Str.lower username) /\
  (fst (retweet_status username e) = false ->
   stored_original_author username e = None) /\
  (forall a, fst (retweet_status username e) = true ->
             author_username e = Ok (Some a) ->
             stored_original_author username e
             = if decide (a = "") then None else Some (VStr a)).
Proof.
  unfold stored_original_author, retweet_status.
  destruct (author_username e) as [[a|]|err] eqn:Ha; simpl.
  - destruct (String.eqb_spec a (Str.lower username)) as [Heq|Hne]; simpl.
    + split; [|split; [done|discriminate]].
      split; [discriminate|]. intros (a' & ? & ?). by simplify_eq.
    + split; [|split; [discriminate|]].
      * split; [|done]. intros _. by exists a.
      * intros a' _ [= <-]. by destruct a.
  - split; [|split; [done|discriminate]].
    split; [discriminate|]. by intros (a' & ? & ?).
  - split; [|split; [done|discriminate]].
    split; [discriminate|]. by intros (a' & ? & ?).
Qed.

(** The key ['original_author'] is stored for a repost with a non-empty
    handle, and then it holds this handle. *)
Lemma stored_original_author_spec e :
  (forall a, stored_original_author username e = Some (VStr a) <->
             fst (retweet_status username e) = true /\
             author_username e = Ok (Some a) /\ a <> "") /\
  (forall v, stored_original_author username e = Some v ->
             exists a, v = VStr a).
Proof.
  unfold stored_original_author, retweet_status.
  destruct (author_username e) as [[a|]|err] eqn:Ha; simpl.
  - destruct (String.eqb_spec a (Str.lower username)) as [Heq|Hne]; simpl.
    + split; [|done]. intros a'. split; [done|]. by intros (? & _).
    + split.
      * intros a'. destruct a as [|ch a].
        -- split; [done|]. intros (_ & [= <-] & ?). done.
        -- split; [by intros [= <-]|]. by intros (_ & [= <-] & _).
      * intros v. destruct a as [|ch a]; [done|]. intros [= <-]. by eexists.
  - split; [|done]. intros a'. split; [done|]. by intros (? & _).
  - split; [|done]. intros a'. split; [done|]. by intros (? & _).
Qed.

Lemma extracted_id e i t : extracted fromisoformat username start_time e i t -> t !! "id" = Some (VStr i).
Proof.
  intros (url & _ & Ht). apply tweet_data_of_spec in Ht.
  destruct Ht as (? & ? & ? & ? & ? & Hid & _). exact Hid.
Qed.

(** One turn of the loop: the container is left aside with nothing changed,
    or its id is new and is recorded, whether or not a dictionary follows. *)
Lemma process_tweet_element_cases seen acc e :
  (process_one (seen, acc) e = (seen, acc) /\
   forall i, identified e i -> i ∈ seen)
  \/ (exists url i,
        tweet_identity e = Ok (Some (url, i)) /\ (i ∉ seen) /\
        ((process_one (seen, acc) e = (seen ∪ {[i]}, acc) /\
          forall t, tweet_data e url i <> Ok (Some t))
         \/ (exists t, tweet_data e url i = Ok (Some t) /\
              process_one (seen, acc) e
              = (seen ∪ {[i]}, (acc ++ [t])%list)))).
Proof.
  unfold process_tweet_element, identified.
  destruct (tweet_identity e) as [[[url i]|]|] eqn:Hid.
  - destruct (bool_decide (i ∈ seen)) eqn:Hin.
    + left. apply bool_decide_eq_true in Hin. split; [done|].
      intros i' [url' ?]. by simplify_eq.
    + right. apply bool_decide_eq_false in Hin. exists url, i.
      split; [done|]. split; [done|].
      destruct (tweet_data e url i) as [[t|]|]; eauto; left; by split.
  - left. split; [done|]. intros i' [url' ?]. discriminate.
  - left. split; [done|]. intros i' [url' ?]. discriminate.
Qed.

(** The list the loop appends to does not influence what it appends. *)
Lemma process_tweet_element_acc seen acc e :
  process_one (seen, acc) e
  = ((process_one (seen, []) e).1,
     (acc ++ (process_one (seen, []) e).2)%list).
Proof.
  unfold process_tweet_element.
  destruct (tweet_identity e) as [[[url i]|]|]; simpl;
    try by rewrite app_nil_r.
  destruct (bool_decide (i ∈ seen)); simpl; [by rewrite app_nil_r|].
  destruct (tweet_data e url i) as [[t|]|]; simpl;
    by rewrite ?app_nil_r.
Qed.

Lemma fold_process_acc els : forall seen acc,
  fold_left process_one els (seen, acc)
  = ((fold_left process_one els (seen, [])).1,
     (acc ++ (fold_left process_one els (seen, [])).2)%list).
Proof.
  induction els as [|e els IH]; intros seen acc; cbn [fold_left].
  - by rewrite app_nil_r.
  - rewrite (process_tweet_element_acc seen acc e).
    destruct (process_one (seen, []) e) as [s1 n1]; simpl.
    rewrite (IH s1 (acc ++ n1)%list), (IH s1 n1).
    simpl. by rewrite app_assoc.
Qed.

(** What a pass over a batch does to [processed_ids] and which dictionaries
    it appends. *)
Lemma fold_process_spec els : forall seen acc seen' acc',
  fold_left process_one els (seen, acc) = (seen', acc') ->
  seen ⊆ seen' /\
  (forall i, i ∈ seen' -> i ∈ seen \/ exists e, e ∈ els /\ identified e i) /\
  (forall e i, e ∈ els -> identified e i -> i ∈ seen') /\
  exists new,
    acc' = (acc ++ new)%list /\
    Forall (fun t => exists e i, e ∈ els /\ (i ∉ seen) /\ i ∈ seen' /\
                                 extracted fromisoformat username start_time e i t) new /\
    NoDup ((.!! "id") <$> new).
Proof.
  induction els as [|e els IH]; intros seen acc seen' acc' Hf;
    cbn [fold_left] in Hf.
  - simplify_eq. split; [done|]. split; [by left|].
    split; [by intros ?? ?%elem_of_nil|].
    exists []. rewrite app_nil_r. repeat split; [constructor|constructor].
  - destruct (process_tweet_element_cases seen acc e)
      as [[Hsame Hknown]|(url & i & Hid & Hnew & Hstep)].
    + rewrite Hsame in Hf. apply IH in Hf.
      destruct Hf as (Hsub & Hfrom & Hall & new & -> & Hnewp & Hnd).
      split; [done|]. split.
      { intros j Hj. destruct (Hfrom j Hj) as [?|(e' & ? & ?)]; [by left|].
        right. exists e'. split; [by right|done]. }
      split.
      { intros e' j [-> |He']%elem_of_cons Hj; [|by eapply Hall].
        apply Hsub. by apply Hknown. }
      exists new. split; [done|]. split; [|done].
      eapply Forall_impl; [exact Hnewp|]. simpl.
      intros t (e' & j & ? & ? & ? & ?). exists e', j.
      split; [by right|done].
    + assert (Hident : identified e i) by (by exists url).
      assert (Hrest : forall seen1 acc1,
        fold_left process_one els (seen ∪ {[i]}, acc1)
        = (seen1, acc') ->
        seen ⊆ seen1 /\
        (forall j, j ∈ seen1 ->
           j ∈ seen \/ exists e', e' ∈ e :: els /\ identified e' j) /\
        (forall e' j, e' ∈ e :: els -> identified e' j -> j ∈ seen1) /\
        exists new,
          acc' = (acc1 ++ new)%list /\
          Forall (fun t => exists e' j, e' ∈ e :: els /\ (j ∉ seen) /\
                                        j ∈ seen1 /\ extracted fromisoformat username start_time e' j t) new /\
          Forall (fun t => forall j, t !! "id" = Some (VStr j) -> j <> i) new /\
          NoDup ((.!! "id") <$> new)).
      { intros seen1 acc1 Hf1. apply IH in Hf1.
        destruct Hf1 as (Hsub & Hfrom & Hall & new & -> & Hnewp & Hnd).
        split; [by eapply added_subseteq|]. split.
        { intros j Hj. destruct (Hfrom j Hj) as [Hj'|(e' & ? & ?)].
          - apply added_inv in Hj' as [?| ->]; [by left|].
            right. exists e. split; [by left|done].
          - right. exists e'. split; [by right|done]. }
        split.
        { intros e' j [-> |He']%elem_of_cons Hj; [|by eapply Hall].
          destruct Hj as [url' Hj]. assert (j = i) as -> by congruence.
          apply Hsub, added_elem. }
        exists new. split; [done|]. split; [|split; [|done]].
        - eapply Forall_impl; [exact Hnewp|]. simpl.
          intros t (e' & j & ? & ? & ? & ?). exists e', j.
          split; [by right|]. split; [by eapply added_not_elem|done].
        - eapply Forall_impl; [exact Hnewp|]. simpl.
          intros t (e' & j & _ & Hj & _ & Hex) j' Hj' ->.
          apply extracted_id in Hex. rewrite Hex in Hj'. simplify_eq.
          apply Hj, added_elem. }
      destruct Hstep as [[Hstep Hrej]|(t & Ht & Hstep)];
        rewrite Hstep in Hf; apply Hrest in Hf;
        destruct Hf as (Hsub & Hfrom & Hall & new & Hacc & Hnewp & Hne & Hnd).
      * split; [done|]. split; [done|]. split; [done|].
        exists new. by repeat split.
      * split; [done|]. split; [done|]. split; [done|].
        exists (t :: new). split; [by rewrite Hacc, <- app_assoc|]. split.
        { constructor; [|done].
          exists e, i. split; [by left|]. split; [done|].
          split; [|by exists url].
          apply (Hall e i); [by left|done]. }
        rewrite fmap_cons. constructor; [|done].
        assert (Hti : t !! "id" = Some (VStr i))
          by (apply (extracted_id e); by exists url).
        rewrite Hti. intros Hin. apply list_elem_of_fmap in Hin.
        destruct Hin as (t' & Ht' & Hin).
        rewrite Forall_forall in Hne.
        by apply (Hne t' Hin i).
Qed.

End ContainerFacts.

(** ** Facts about tasks *)

Lemma rounds_app tr1 tr2 : rounds (tr1 ++ tr2) = (rounds tr1 + rounds tr2)%nat.
Proof.
  induction tr1 as [|ev tr1 IH]; [done|].
  destruct ev; simpl; by rewrite ?IH.
Qed.

Lemma extend_nil f : extend f [] = f.
Proof. destruct f. unfold extend. simpl. by rewrite app_nil_r. Qed.

Lemma extend_extend f tr1 tr2 :
  extend (extend f tr1) tr2 = extend f (tr1 ++ tr2).
Proof. unfold extend. simpl. by rewrite app_assoc. Qed.

Lemma uniform_ret {A} (a : A) : uniform (mret a) [] (Ok a).
Proof. intros f. unfold mret, task_ret. by rewrite extend_nil. Qed.

Lemma uniform_raise {A} e : uniform (@raise A e) [] (Raise e).
Proof. intros f. unfold raise. by rewrite extend_nil. Qed.

Lemma uniform_call {A} ev (r : res A) : uniform (call ev r) [ev] r.
Proof. by intros f. Qed.

Lemma uniform_bind_ok {A B} (m : task A) (k : A -> task B) tr1 a tr2 r :
  uniform m tr1 (Ok a) -> uniform (k a) tr2 r ->
  uniform (m ≫= k) (tr1 ++ tr2) r.
Proof.
  intros Hm Hk f. unfold mbind, task_bind. rewrite Hm, Hk.
  by rewrite extend_extend.
Qed.

Lemma uniform_bind_raise {A B} (m : task A) (k : A -> task B) tr e :
  uniform m tr (Raise e) -> uniform (m ≫= k) tr (Raise e).
Proof. intros Hm f. unfold mbind, task_bind. by rewrite Hm. Qed.

Lemma uniform_attempt {A} (m : task A) tr r :
  uniform m tr r -> uniform (attempt m) tr (Ok r).
Proof. intros Hm f. unfold attempt. by rewrite Hm. Qed.

(** Closes [ev ∉ [ev1; ...; evn]] for distinct constructors. *)
Ltac not_among :=
  let H := fresh in
  intros H;
  repeat (apply elem_of_cons in H as [H|H]; [discriminate H|]);
  by apply elem_of_nil in H.

Lemma setup_events_app tr1 tr2 :
  setup_events tr1 -> setup_events tr2 -> setup_events (tr1 ++ tr2).
Proof.
  intros [H1 R1] [H2 R2]. split.
  - rewrite elem_of_app. tauto.
  - rewrite rounds_app. lia.
Qed.

Lemma setup_events_nil : setup_events [].
Proof. split; [apply not_elem_of_nil|done]. Qed.

Lemma add_cookies_uniform s cookies : forall i,
  exists tr, uniform (add_cookies s i cookies) tr (Ok ()) /\ setup_events tr.
Proof.
  induction cookies as [|ck cookies IH]; intros i; simpl.
  - exists []. split; [apply uniform_ret|apply setup_events_nil].
  - destruct (IH (S i)) as (tr & Htr & Hs).
    exists ([AddCookie i] ++ tr). split.
    + eapply uniform_bind_ok; [|exact Htr].
      apply uniform_attempt, uniform_call.
    + apply setup_events_app; [|done].
      split; [|done]. not_among.
Qed.

(** [_apply_cookies] returns a boolean, whatever the browser does. *)
Lemma apply_cookies_uniform c s :
  exists tr b, uniform (_apply_cookies c s) tr (Ok b) /\ setup_events tr.
Proof.
  unfold _apply_cookies.
  destruct (_cookies c) as [[|ck cookies]|].
  2: { destruct (add_cookies_uniform s (ck :: cookies) 0%nat)
         as (trc & Hc & Hsc).
       set (body := (_ ← call (Get "https://twitter.com") (home_get s); _)).
       assert (Hbody : exists tr r, uniform body tr r /\ setup_events tr).
       { unfold body. destruct (home_get s) as [[]|e] eqn:Hg.
         - destruct (refresh s) as [[]|e] eqn:Hr.
           + assert (Hw : exists r, uniform
                (w ← attempt (call (WaitFor "div[data-testid='primaryColumn']")
                                   (wait_primary_column s));
                 match w with
                 | Ok _ => mret true
                 | Raise TimeoutException => mret false
                 | Raise e => raise e
                 end) [WaitFor "div[data-testid='primaryColumn']"] r).
             { destruct (wait_primary_column s) as [[]|e] eqn:Hw.
               - exists (Ok true).
                 eapply (uniform_bind_ok _ _ [_] _ []);
                   [apply uniform_attempt, uniform_call|apply uniform_ret].
               - destruct e;
                   try (exists (Ok false);
                        eapply (uniform_bind_ok _ _ [_] _ []);
                        [apply uniform_attempt, uniform_call
                        |apply uniform_ret]);
                   eexists (Raise _);
                   (eapply (uniform_bind_ok _ _ [_] _ []);
                    [apply uniform_attempt, uniform_call
                    |apply uniform_raise]). }
             destruct Hw as (r & Hw).
             eexists _, r. split.
             * eapply uniform_bind_ok; [apply uniform_call|].
               eapply uniform_bind_ok; [exact Hc|].
               eapply uniform_bind_ok; [apply uniform_call|exact Hw].
             * apply (setup_events_app [_]);
                 [split; [not_among|done]|].
               apply setup_events_app; [done|].
               split; [|done].
               not_among.
           + eexists _, (Raise e). split.
             * eapply uniform_bind_ok; [apply uniform_call|].
               eapply uniform_bind_ok; [exact Hc|].
               apply uniform_bind_raise, uniform_call.
             * apply (setup_events_app [_]);
                 [split; [not_among|done]|].
               apply setup_events_app; [done|].
               split; [|done]. not_among.
         - eexists _, (Raise e). split.
           + apply uniform_bind_raise, uniform_call.
           + split; [|done]. not_among. }
       destruct Hbody as (tr & r & Hb & Hs).
       destruct r as [b|e].
       - exists tr, b. split; [|done].
         rewrite <- (app_nil_r tr).
         eapply uniform_bind_ok; [apply uniform_attempt, Hb|].
         apply uniform_ret.
       - exists tr, false. split; [|done].
         rewrite <- (app_nil_r tr).
         eapply uniform_bind_ok; [apply uniform_attempt, Hb|].
         apply uniform_ret. }
  all: exists [], false; split; [apply uniform_ret|apply setup_events_nil].
Qed.

(** ** Facts about a collection task *)

Section TaskFacts.

Variable fromisoformat : string -> res datetime.
Variable c : client.
Variable start_time : Z.
Variable username : string.
Variable s : session.

Local Abbreviation process_one :=
  (process_tweet_element fromisoformat username start_time).
Local Abbreviation process_all :=
  (process_tweet_elements fromisoformat username start_time).
Local Abbreviation scroll :=
  (scroll_loop fromisoformat username start_time s).

Lemma process_tweet_elements_app seen b rest :
  (process_all seen (b ++ rest)).2
  = (process_all seen b).2
    ++ (process_all (process_all seen b).1 rest).2.
Proof.
  unfold process_tweet_elements. rewrite fold_left_app.
  destruct (fold_left process_one b (seen, [])) as [seen' new].
  by rewrite fold_process_acc.
Qed.

(** One turn of the scroll loop whose browser calls succeed. *)
Lemma scroll_loop_step fuel k seen acc b seen' new f :
  scroll_by s k = Ok () ->
  find_after_scroll s k = Ok b ->
  process_all seen b = (seen', new) ->
  scroll (S fuel) k seen acc f
  = if Nat.eqb (length new) 0
    then (extend f [ScrollBy k; FindTweets; Processed (length new)],
          Ok (acc ++ new))
    else scroll fuel (S k) seen' (acc ++ new)
           (extend f [ScrollBy k; FindTweets; Processed (length new)]).
Proof.
  intros Hsb Hfind Hp. cbn [scroll_loop].
  unfold mbind, task_bind, call. rewrite Hsb, Hfind. simpl.
  rewrite Hp. simpl. unfold extend. simpl. rewrite <- !app_assoc. simpl.
  by destruct (Nat.eqb (length new) 0).
Qed.

(** The scroll loop: it stops within [fuel] rounds, and what it returns is
    what one pass over all containers it read appends. *)
Lemma scroll_loop_spec fuel : forall k seen acc,
  exists tr r,
    uniform (scroll fuel k seen acc) tr r /\
    (Quit ∉ tr) /\ (rounds tr <= fuel)%nat /\
    forall l, r = Ok l ->
      l = acc ++ (process_all seen
                    (scroll_elements s k (rounds tr))).2.
Proof.
  induction fuel as [|fuel IH]; intros k seen acc.
  - exists [], (Ok acc). split; [apply uniform_ret|].
    split; [apply not_elem_of_nil|]. split; [done|].
    intros l [= <-]. simpl. by rewrite app_nil_r.
  - destruct (scroll_by s k) as [[]|e] eqn:Hsb.
    2: { exists [ScrollBy k], (Raise e). split.
         - intros f. cbn [scroll_loop].
           unfold mbind, task_bind, call. by rewrite Hsb.
         - split; [not_among|]. split; [simpl; lia|done]. }
    destruct (find_after_scroll s k) as [b|e] eqn:Hfind.
    2: { exists [ScrollBy k; FindTweets], (Raise e). split.
         - intros f. cbn [scroll_loop].
           unfold mbind, task_bind, call. rewrite Hsb, Hfind.
           unfold extend. simpl. by rewrite <- app_assoc.
         - split; [not_among|]. split; [simpl; lia|done]. }
    destruct (process_all seen b) as [seen' new] eqn:Hp.
    destruct (Nat.eqb (length new) 0) eqn:Hlen.
    + exists [ScrollBy k; FindTweets; Processed (length new)],
             (Ok (acc ++ new)).
      split.
      * intros f. cbn [scroll_loop].
        unfold mbind, task_bind, call. rewrite Hsb, Hfind. simpl.
        rewrite Hp. simpl. rewrite Hlen.
        unfold mret, task_ret, extend. simpl.
        by rewrite <- !app_assoc.
      * split; [not_among|]. split; [simpl; lia|].
        intros l [= <-]. simpl. rewrite Hfind. simpl.
        by rewrite app_nil_r, Hp.
    + destruct (IH (S k) seen' (acc ++ new)) as (tr & r & Hu & Hq & Hr & Hl).
      exists ([ScrollBy k; FindTweets; Processed (length new)] ++ tr), r.
      split.
      * intros f. cbn [scroll_loop].
        unfold mbind, task_bind, call. rewrite Hsb, Hfind. simpl.
        rewrite Hp. simpl. rewrite Hlen, Hu.
        unfold extend. simpl. by rewrite <- !app_assoc.
      * split.
        { rewrite elem_of_app. intros [H|H]; [revert H; not_among|done]. }
        split; [simpl; lia|].
        intros l Hrl. rewrite (Hl l Hrl). simpl. rewrite Hfind. simpl.
        rewrite process_tweet_elements_app, Hp. simpl.
        by rewrite app_assoc.
Qed.

Lemma session_applied_uniform :
  exists tr,
    uniform (_apply_cookies c s) tr (Ok (session_applied c s)) /\
    setup_events tr.
Proof.
  destruct (apply_cookies_uniform c s) as (tr & b & Hu & Hs).
  exists tr. split; [|done]. unfold session_applied. by rewrite Hu.
Qed.

Lemma browse_spec :
  exists tr r,
    uniform (browse fromisoformat c start_time username s) tr r /\
    (Quit ∉ tr) /\ (rounds tr <= S max_scrolls)%nat /\
    forall l, r = Ok l ->
      l = [] \/
      (clean_start c s /\
       l = (process_all ∅ (run_elements s (rounds tr))).2).
Proof.
  destruct session_applied_uniform as (trc & Hc & Hqc & Hrc).
  unfold browse, clean_start.
  destruct (session_applied c s) eqn:Happ.
  2: { exists trc, (Ok []). split.
       - rewrite <- (app_nil_r trc).
         eapply uniform_bind_ok; [exact Hc|apply uniform_ret].
       - split; [done|]. split; [lia|]. intros l [= <-]. by left. }
  destruct (profile_get s) as [[]|e] eqn:Hget.
  2: { exists (trc ++ [Get ("https://twitter.com/" +:+ username)]), (Raise e).
       split.
       - eapply uniform_bind_ok; [exact Hc|]. simpl.
         apply uniform_bind_raise, uniform_call.
       - split.
         { rewrite elem_of_app. intros [H|H]; [done|revert H; not_among]. }
         split; [rewrite rounds_app; simpl; lia|done]. }
  set (pre := trc ++ [Get ("https://twitter.com/" +:+ username);
                      WaitFor "article[data-testid='tweet']"]).
  assert (Hpre : (Quit ∉ pre) /\ rounds pre = O).
  { unfold pre. split.
    - rewrite elem_of_app. intros [H|H]; [done|revert H; not_among].
    - rewrite rounds_app. simpl. lia. }
  destruct Hpre as [Hqpre Hrpre].
  destruct (wait_tweet s) as [[]|e] eqn:Hwait.
  2: { exists pre, (match e with
                    | TimeoutException => Ok []
                    | _ => Raise e
                    end).
       split.
       - intros f. unfold mbind, task_bind, attempt, call.
         rewrite Hc. simpl.
         destruct e; unfold mret, task_ret, raise, extend, pre; simpl;
           by rewrite <- ?app_assoc.
       - split; [done|]. split; [lia|].
         intros l Hl. left. destruct e; congruence. }
  destruct (find_tweets s) as [b|e] eqn:Hfind.
  2: { exists (pre ++ [FindTweets]), (Raise e). split.
       - intros f. unfold mbind, task_bind, attempt, call.
         rewrite Hc. simpl. unfold extend, pre. simpl.
         by rewrite <- !app_assoc.
       - split.
         { rewrite elem_of_app. intros [H|H]; [done|revert H; not_among]. }
         split; [rewrite rounds_app; simpl; lia|done]. }
  destruct (process_all ∅ b) as [seen' new] eqn:Hp.
  destruct (scroll_loop_spec max_scrolls 0%nat seen' new)
    as (trl & r & Hu & Hq & Hr & Hl).
  exists (pre ++ [FindTweets; Processed (length new)] ++ trl), r. split.
  - intros f. unfold mbind, task_bind, attempt, call.
    rewrite Hc. cbn -[scroll_loop]. rewrite Hp, Hu.
    unfold extend, pre. simpl. by rewrite <- !app_assoc.
  - split.
    { rewrite !elem_of_app.
      intros [H|[H|H]]; [done|revert H; not_among|done]. }
    split; [rewrite !rounds_app; simpl; lia|].
    intros l Hrl. right. split; [done|].
    rewrite (Hl l Hrl), !rounds_app, Hrpre.
    cbn [rounds Nat.add run_elements]. rewrite Hfind.
    cbn [from_ok]. by rewrite process_tweet_elements_app, Hp.
Qed.

(** The whole task, started with [driver = None]. *)
Lemma get_user_tweets_spec :
  exists tr l,
    (forall f, driver f = false ->
       _get_user_tweets fromisoformat c start_time username s f
       = ({| driver := is_ok (setup_driver s);
             log := log f ++ SetupDriver :: tr
                    ++ (if is_ok (setup_driver s) then [Quit] else []) |},
          Ok l)) /\
    (Quit ∉ tr) /\ (rounds tr <= S max_scrolls)%nat /\
    (l = [] \/
     (is_ok (setup_driver s) = true /\ clean_start c s /\
      l = (process_all ∅ (run_elements s (rounds tr))).2)) /\
    (forall f e,
       (fetch fromisoformat c start_time username s f).2 = Raise e -> l = []).
Proof.
  unfold _get_user_tweets, try_except_finally, fetch.
  destruct (setup_driver s) as [[]|e0] eqn:Hsetup.
  - destruct browse_spec as (tr & r & Hu & Hq & Hr & Hl).
    exists tr, (match r with Ok l => l | Raise _ => [] end).
    split; [|split; [done|split; [done|split]]].
    + intros f Hf. unfold mbind, task_bind, call, assign_driver, read_driver.
      simpl. rewrite Hu. unfold extend. simpl.
      destruct r as [l|e]; [|destruct e]; simpl;
        by rewrite <- !app_assoc.
    + destruct r as [l|e]; [|by left].
      destruct (Hl l eq_refl) as [-> |[Hc ->]]; [by left|by right].
    + intros f e. unfold mbind, task_bind, call, assign_driver. simpl.
      rewrite Hu. simpl. by intros ->.
  - exists [], []. split; [|split; [apply not_elem_of_nil|split;
                                   [simpl; lia|split; [by left|done]]]].
    intros [d lg] Hf. simpl in Hf. subst d.
    unfold mbind, task_bind, call, read_driver. simpl.
    by destruct e0.
Qed.

End TaskFacts.

(** ** The events of a task *)

Lemma emits_ret {A} (a : A) : emits (mret a).
Proof.
  intros f f' r [= <- <-]. exists []. by rewrite app_nil_r.
Qed.

Lemma emits_raise {A} e : emits (@raise A e).
Proof.
  intros f f' r [= <- <-]. exists []. by rewrite app_nil_r.
Qed.

Lemma emits_call {A} ev (r : res A) : is_dispatch ev = false -> emits (call ev r).
Proof.
  intros Hev f f' r' [= <- <-]. exists [ev]. simpl. by rewrite Hev.
Qed.

Lemma emits_assign_driver : emits assign_driver.
Proof.
  intros f f' r [= <- <-]. exists []. simpl. by rewrite app_nil_r.
Qed.

Lemma emits_read_driver : emits read_driver.
Proof.
  intros f f' r [= <- <-]. exists []. by rewrite app_nil_r.
Qed.

Lemma emits_bind {A B} (m : task A) (k : A -> task B) :
  emits m -> (forall a, emits (k a)) -> emits (m ≫= k).
Proof.
  intros Hm Hk f f' r. unfold mbind, task_bind.
  destruct (m f) as [f1 [a|e]] eqn:Hmf; intros Hr.
  - destruct (Hm _ _ _ Hmf) as (tr1 & E1 & H1).
    destruct (Hk a _ _ _ Hr) as (tr2 & E2 & H2).
    exists (tr1 ++ tr2). split; [by rewrite E2, E1, app_assoc|].
    rewrite forallb_app. by rewrite H1, H2.
  - injection Hr as <- <-. exact (Hm _ _ _ Hmf).
Qed.

Lemma emits_attempt {A} (m : task A) : emits m -> emits (attempt m).
Proof.
  intros Hm f f' r. unfold attempt.
  destruct (m f) as [f1 r1] eqn:Hmf. intros [= <- <-].
  exact (Hm _ _ _ Hmf).
Qed.

Lemma emits_try_except_finally {A} (body : task A) handler finalizer :
  emits body -> (forall e, emits (handler e)) -> emits finalizer ->
  emits (try_except_finally body handler finalizer).
Proof.
  intros Hb Hh Hf f f' r. unfold try_except_finally.
  destruct (body f) as [f1 r1] eqn:Hbf.
  destruct (Hb _ _ _ Hbf) as (tr1 & E1 & H1).
  assert (Hmid : forall f2 (r2 : res A),
    match r1 with Ok a => (f1, Ok a) | Raise e => handler e f1 end = (f2, r2) ->
    exists tr, log f2 = log f ++ tr /\
               forallb (fun ev => negb (is_dispatch ev)) tr = true).
  { intros f2 r2. destruct r1 as [a|e].
    - intros [= <- <-]. by exists tr1.
    - intros Hhe. destruct (Hh e _ _ _ Hhe) as (tr2 & E2 & H2).
      exists (tr1 ++ tr2). split; [by rewrite E2, E1, app_assoc|].
      rewrite forallb_app. by rewrite H1, H2. }
  destruct (match r1 with Ok a => (f1, Ok a) | Raise e => handler e f1 end)
    as [f2 r2].
  destruct (Hmid f2 r2 eq_refl) as (tr2 & E2 & H2).
  destruct (finalizer f2) as [f3 r3] eqn:Hff.
  destruct (Hf _ _ _ Hff) as (tr3 & E3 & H3).
  intros [= <- <-]. exists (tr2 ++ tr3).
  split; [by rewrite E3, E2, app_assoc|].
  rewrite forallb_app. by rewrite H2, H3.
Qed.

Section TaskEvents.

Variable fromisoformat : string -> res datetime.
Variable c : client.
Variable start_time : Z.
Variable username : string.
Variable s : session.

Lemma add_cookies_emits cookies : forall i, emits (add_cookies s i cookies).
Proof.
  induction cookies as [|ck cookies IH]; intros i; simpl.
  - apply emits_ret.
  - apply emits_bind; [by apply emits_attempt, emits_call|].
    intros _. apply IH.
Qed.

Lemma apply_cookies_emits : emits (_apply_cookies c s).
Proof.
  unfold _apply_cookies.
  destruct (_cookies c) as [[|ck cookies]|]; try apply emits_ret.
  apply emits_bind.
  - apply emits_attempt.
    apply emits_bind; [by apply emits_call|]. intros _.
    apply emits_bind; [apply add_cookies_emits|]. intros _.
    apply emits_bind; [by apply emits_call|]. intros _.
    apply emits_bind; [by apply emits_attempt, emits_call|].
    intros [[]|[]]; first [apply emits_ret|apply emits_raise].
  - intros [b|e]; apply emits_ret.
Qed.

Lemma scroll_loop_emits fuel : forall k seen acc,
  emits (scroll_loop fromisoformat username start_time s fuel k seen acc).
Proof.
  induction fuel as [|fuel IH]; intros k seen acc; cbn [scroll_loop].
  - apply emits_ret.
  - apply emits_bind; [by apply emits_call|]. intros _.
    apply emits_bind; [by apply emits_call|]. intros els.
    destruct (process_tweet_elements _ _ _ _ _) as [seen' new].
    apply emits_bind; [by apply emits_call|]. intros _.
    destruct (Nat.eqb _ _); [apply emits_ret|apply IH].
Qed.

Lemma browse_emits : emits (browse fromisoformat c start_time username s).
Proof.
  unfold browse.
  apply emits_bind; [apply apply_cookies_emits|]. intros applied.
  destruct (negb applied); [apply emits_ret|].
  apply emits_bind; [by apply emits_call|]. intros _.
  apply emits_bind; [by apply emits_attempt, emits_call|].
  intros [[]|[]]; try apply emits_ret; try apply emits_raise.
  apply emits_bind; [by apply emits_call|]. intros els.
  destruct (process_tweet_elements _ _ _ _ _) as [seen' new].
  apply emits_bind; [by apply emits_call|]. intros _.
  apply scroll_loop_emits.
Qed.

Lemma get_user_tweets_emits :
  emits (_get_user_tweets fromisoformat c start_time username s).
Proof.
  unfold _get_user_tweets. apply emits_try_except_finally.
  - unfold fetch.
    apply emits_bind; [by apply emits_call|]. intros _.
    apply emits_bind; [apply emits_assign_driver|]. intros _.
    apply browse_emits.
  - intros []; apply emits_ret.
  - apply emits_bind; [apply emits_read_driver|].
    intros []; [by apply emits_call|apply emits_ret].
Qed.

End TaskEvents.

(** ** The cookies of the client *)

Lemma cookies_after_app tr1 : forall tr2 cookies,
  cookies_after (tr1 ++ tr2) cookies
  = cookies_after tr2 (cookies_after tr1 cookies).
Proof.
  induction tr1 as [|ev tr1 IH]; intros tr2 cookies; [done|].
  destruct ev; cbn [app cookies_after]; apply IH.
Qed.

Lemma cookies_after_length tr : forall cookies,
  length (cookies_after tr cookies) = length cookies.
Proof.
  induction tr as [|ev tr IH]; intros cookies; [done|].
  destruct ev; cbn [cookies_after]; rewrite IH; try done.
  apply length_alter.
Qed.


Lemma after_events_nil c : after_events c [] = c.
Proof. by destruct c as [? [?|] ? ?]. Qed.

Lemma after_events_app c tr1 tr2 :
  after_events (after_events c tr1) tr2 = after_events c (tr1 ++ tr2).
Proof.
  unfold after_events. cbn [twitter_users _cookies _tweets_cache
                            _tweets_cache_time].
  f_equal. destruct (_cookies c) as [cookies|]; [|done].
  cbn [fmap option_fmap option_map]. by rewrite cookies_after_app.
Qed.

(** A task looks at the number of the cookies only. *)
Lemma add_cookies_shape s (cookies cookies' : list cookie) :
  length cookies = length cookies' ->
  forall i, add_cookies s i cookies = add_cookies s i cookies'.
Proof.
  revert cookies'.
  induction cookies as [|ck cookies IH]; intros [|ck' cookies'] Hlen i;
    try done.
  cbn [add_cookies]. by rewrite (IH cookies') by (by injection Hlen).
Qed.

Lemma apply_cookies_shape c c' s :
  length <$> _cookies c' = length <$> _cookies c ->
  _apply_cookies c' s = _apply_cookies c s.
Proof.
  unfold _apply_cookies.
  destruct (_cookies c) as [[|ck cookies]|], (_cookies c') as [[|ck' cookies']|];
    try done.
  intros [= Hlen].
  by rewrite (add_cookies_shape s (ck' :: cookies') (ck :: cookies))
    by (cbn [length]; by rewrite Hlen).
Qed.

Lemma get_user_tweets_shape (fromisoformat : string -> res datetime) c c'
    start_time username s :
  length <$> _cookies c' = length <$> _cookies c ->
  _get_user_tweets fromisoformat c' start_time username s
  = _get_user_tweets fromisoformat c start_time username s.
Proof.
  intros Hshape. unfold _get_user_tweets, fetch, browse.
  by rewrite (apply_cookies_shape c c' s Hshape).
Qed.

Lemma after_events_shape c tr :
  length <$> _cookies (after_events c tr) = length <$> _cookies c.
Proof.
  cbn [after_events _cookies]. destruct (_cookies c) as [cookies|]; [|done].
  cbn [fmap option_fmap option_map]. by rewrite cookies_after_length.
Qed.

(** ** Line 160 *)

Lemma start_time_of_ok now hours start_time :
  start_time_of now hours = Ok start_time ->
  start_time = now - timedelta_hours hours /\
  datetime_min <= start_time <= datetime_max.
Proof.
  unfold start_time_of, timedelta_of_hours, datetime_sub.
  destruct (_ && _); [|done].
  destruct (_ && _) eqn:Hrange; [|done]. intros [= <-].
  apply andb_prop in Hrange as [?%Z.leb_le ?%Z.leb_le]. done.
Qed.

Lemma start_time_of_raise now hours e :
  start_time_of now hours = Raise e -> e = OverflowError.
Proof.
  unfold start_time_of, timedelta_of_hours, datetime_sub.
  destruct (_ && _); [|by intros [= <-]].
  destruct (_ && _); [done|by intros [= <-]].
Qed.

(** A window that ends at a clock reading and is at most a million hours
    long starts at a [datetime] unless the clock stands in the first 115
    years. *)
Lemma start_time_of_in_range now hours :
  datetime_min + 3600000000000000 <= now <= datetime_max ->
  0 <= hours <= 1000000 ->
  start_time_of now hours = Ok (now - timedelta_hours hours).
Proof.
  intros Hnow Hhours.
  unfold start_time_of, timedelta_of_hours, datetime_sub, timedelta_hours,
    datetime_min, datetime_max in *.
  assert (0 <= hours / 24 <= 1000000).
  { split; [apply Z.div_pos; lia|].
    apply Z.div_le_upper_bound; lia. }
  rewrite (proj2 (andb_true_iff _ _)) by (split; apply Z.leb_le; lia).
  rewrite (proj2 (andb_true_iff _ _)) by (split; apply Z.leb_le; lia).
  done.
Qed.

(** ** Facts about a run over all accounts *)

Section RunFacts.

Variable fromisoformat : string -> res datetime.
Variable c : client.
Variable start_time : Z.
Variable sessions : nat -> session.

Local Abbreviation result_of := (task_result fromisoformat c start_time).
Local Abbreviation log_of := (task_log fromisoformat c start_time).
Local Abbreviation trace_of :=
  (run_trace fromisoformat c start_time sessions).
Local Abbreviation merged :=
  (merge_results fromisoformat c start_time sessions).
Local Abbreviation collect :=
  (collect_users fromisoformat c start_time sessions).

Lemma task_run username s :
  _get_user_tweets fromisoformat c start_time username s init_frame
  = ({| driver := is_ok (setup_driver s); log := log_of username s |},
     Ok (result_of username s)).
Proof.
  destruct (get_user_tweets_spec fromisoformat c start_time username s)
    as (tr & l & Hrun & _).
  unfold task_result, task_log.
  by rewrite (Hrun init_frame eq_refl).
Qed.

(** The loop over the accounts never raises; the cookies it leaves are
    those the events of its tasks make of the cookies it found. *)
Lemma collect_users_spec users : forall tr0 i m,
  collect_users fromisoformat (after_events c tr0) start_time sessions i
                users m
  = (trace_of i users, Ok (merged i users m),
     after_events c (tr0 ++ trace_of i users)).
Proof.
  induction users as [|u users IH]; intros tr0 i m.
  - cbn [collect_users run_trace merge_results]. by rewrite app_nil_r.
  - cbn [collect_users run_trace merge_results].
    change {| driver := false; log := [] |} with init_frame.
    rewrite (get_user_tweets_shape fromisoformat c (after_events c tr0))
      by apply after_events_shape.
    rewrite task_run. cbn [log]. rewrite after_events_app, IH.
    f_equal. unfold after_events. f_equal.
    destruct (_cookies c) as [cookies|]; [|done].
    cbn [fmap option_fmap option_map]. f_equal.
    rewrite !cookies_after_app. cbn [cookies_after].
    by rewrite cookies_after_app.
Qed.



(** An entry of the result is an entry of the initial dictionary or the
    result of one of the tasks. *)
Lemma merge_results_value users : forall i m k l,
  merged i users m !! k = Some l ->
  m !! k = Some l \/
  exists j u, users !! j = Some u /\ Str.lower u = k /\
              l = result_of u (sessions (i + j)).
Proof.
  induction users as [|u users IH]; intros i m k l Hl; [by left|].
  simpl in Hl. apply IH in Hl as [Hl|(j & u' & Hj & Hk & ->)].
  - rewrite lookup_insert in Hl. case_decide as Hk.
    + right. exists O, u. rewrite Nat.add_0_r. by simplify_eq.
    + by left.
  - right. exists (S j), u'. rewrite Nat.add_succ_r. by simpl.
Qed.


Lemma task_log_events username s :
  forallb (fun ev => negb (is_dispatch ev)) (log_of username s) = true.
Proof.
  unfold task_log.
  destruct (_get_user_tweets fromisoformat c start_time username s init_frame)
    as [f' r] eqn:Hrun.
  destruct (get_user_tweets_emits fromisoformat c start_time username s
              _ _ _ Hrun) as (tr & E & H).
  simpl in *. by rewrite E.
Qed.

Lemma task_log_shape username s :
  exists tr,
    log_of username s
    = SetupDriver :: tr ++ (if is_ok (setup_driver s) then [Quit] else []) /\
    (Quit ∉ tr) /\ (rounds tr <= S max_scrolls)%nat.
Proof.
  destruct (get_user_tweets_spec fromisoformat c start_time username s)
    as (tr & l & Hrun & Hq & Hr & _).
  exists tr. split; [|done].
  unfold task_log. by rewrite (Hrun init_frame eq_refl).
Qed.

Lemma peak_task_events tl : forall n rest,
  forallb (fun ev => negb (is_dispatch ev)) tl = true ->
  peak n (tl ++ rest) = peak n rest.
Proof.
  induction tl as [|ev tl IH]; intros n rest Hall; [done|].
  simpl in Hall. apply andb_prop in Hall as [Hev Htl].
  destruct ev; simpl in *; try discriminate; by apply IH.
Qed.

Lemma submitted_task_events tl : forall rest,
  forallb (fun ev => negb (is_dispatch ev)) tl = true ->
  submitted (tl ++ rest) = submitted rest.
Proof.
  induction tl as [|ev tl IH]; intros rest Hall; [done|].
  simpl in Hall. apply andb_prop in Hall as [Hev Htl].
  destruct ev; simpl in *; try discriminate; by apply IH.
Qed.

(** Tasks run one after the other: never two in flight. *)
Lemma run_trace_peak users : forall i, (peak 0 (trace_of i users) <= 1)%nat.
Proof.
  induction users as [|u users IH]; intros i; [simpl; lia|].
  cbn [run_trace peak].
  rewrite peak_task_events by apply task_log_events.
  cbn [peak Nat.pred]. specialize (IH (S i)). lia.
Qed.

Lemma run_trace_submitted users : forall i,
  submitted (trace_of i users) = users.
Proof.
  induction users as [|u users IH]; intros i; [done|].
  cbn [run_trace submitted].
  rewrite submitted_task_events by apply task_log_events.
  cbn [submitted]. by rewrite IH.
Qed.

End RunFacts.

Lemma empty_by_user_fold users : forall (m : gmap string (list tweet)) k,
  fold_left (fun m username => <[Str.lower username := []]> m) users m !! k
  = if bool_decide (k ∈ Str.lower <$> users) then Some [] else m !! k.
Proof.
  induction users as [|u users IH]; intros m k; [done|].
  cbn [fold_left]. rewrite IH, fmap_cons.
  destruct (decide (k ∈ Str.lower <$> users)) as [Hin|Hin].
  - rewrite !bool_decide_eq_true_2; [done|by right|done].
  - rewrite (bool_decide_eq_false_2 _ Hin).
    destruct (decide (Str.lower u = k)) as [<- |Hne].
    + rewrite lookup_insert_eq. rewrite bool_decide_eq_true_2; [done|by left].
    + rewrite lookup_insert_ne by done.
      rewrite bool_decide_eq_false_2; [done|].
      intros [?|?]%elem_of_cons; congruence.
Qed.

Lemma empty_by_user_lookup users k :
  empty_by_user users !! k
  = if bool_decide (k ∈ Str.lower <$> users) then Some [] else None.
Proof. unfold empty_by_user. by rewrite empty_by_user_fold, lookup_empty. Qed.

(** ** What a task returns *)

Section ResultFacts.

Variable fromisoformat : string -> res datetime.
Variable c : client.
Variable start_time : Z.
Variable username : string.
Variable s : session.

Local Abbreviation result :=
  (task_result fromisoformat c start_time username s).
Local Abbreviation events :=
  (task_log fromisoformat c start_time username s).

(** A task returns nothing, or what one pass over the containers of its
    extraction rounds accepts. *)
Lemma task_result_spec :
  (rounds events <= S max_scrolls)%nat /\
  (result = [] \/
   (is_ok (setup_driver s) = true /\ clean_start c s /\
    result
    = (process_tweet_elements fromisoformat username start_time ∅
         (run_elements s (rounds events))).2)).
Proof.
  destruct (get_user_tweets_spec fromisoformat c start_time username s)
    as (tr & l & Hrun & Hq & Hr & Hl & _).
  unfold task_result, task_log.
  rewrite (Hrun init_frame eq_refl). simpl.
  assert (Hrounds : rounds (tr ++ (if is_ok (setup_driver s)
                                   then [Quit] else [])) = rounds tr).
  { rewrite rounds_app. destruct (is_ok (setup_driver s)); simpl; lia. }
  rewrite Hrounds. split; [done|].
  destruct Hl as [-> |(? & ? & ->)]; [by left|by right].
Qed.

(** Every returned dictionary was extracted from a container of one of the
    rounds, and no two of them carry the same id. *)
Lemma task_result_items :
  NoDup ((.!! "id") <$> result) /\
  Forall (fun t => exists e i,
            e ∈ run_elements s (rounds events) /\
            extracted fromisoformat username start_time e i t) result.
Proof.
  destruct task_result_spec as [_ [-> |(_ & _ & ->)]].
  { split; constructor. }
  unfold process_tweet_elements.
  destruct (fold_left _ _ _) as [seen' acc'] eqn:Hf.
  apply fold_process_spec in Hf.
  destruct Hf as (_ & _ & _ & new & -> & Hnew & Hnd). simpl.
  split; [done|].
  eapply Forall_impl; [exact Hnew|]. simpl.
  intros t (e & i & ? & _ & _ & ?). by exists e, i.
Qed.


(** A run that does not get through the set-up gives the empty list. *)
Lemma task_result_unclean :
  is_ok (setup_driver s) = false \/ session_applied c s = false \/
  is_ok (profile_get s) = false \/ is_ok (wait_tweet s) = false \/
  is_ok (find_tweets s) = false ->
  result = [].
Proof.
  intros Hfail.
  destruct task_result_spec as [_ [Hnil|(Hs & (Ha & Hp & Hw & Hf) & _)]];
    [done|].
  destruct Hfail as [?|[?|[?|[?|?]]]]; congruence.
Qed.

(** A container that is not accepted at its first reading keeps its id out
    of the result of the pass. *)
Lemma first_reading_decides pre e post url i :
  tweet_identity e = Ok (Some (url, i)) ->
  (forall e', e' ∈ pre -> ~ identified e' i) ->
  (forall t, tweet_data_of fromisoformat username start_time e url i
             <> Ok (Some t)) ->
  forall t,
    t ∈ (process_tweet_elements fromisoformat username start_time ∅
           (pre ++ e :: post)).2 ->
    t !! "id" <> Some (VStr i).
Proof.
  intros Hid Hfirst Hrej t.
  unfold process_tweet_elements. rewrite fold_left_app. cbn [fold_left].
  destruct (fold_left _ pre _) as [seen1 acc1] eqn:Hpre.
  apply fold_process_spec in Hpre.
  destruct Hpre as (_ & Hfrom & _ & new1 & -> & Hnew1 & _).
  assert (Hi : i ∉ seen1).
  { intros Hin. destruct (Hfrom i Hin) as [Hin'|(e' & He' & Hident)].
    - by apply elem_of_empty in Hin'.
    - by apply (Hfirst e'). }
  destruct (process_tweet_element_cases fromisoformat username start_time
              seen1 ([] ++ new1) e)
    as [[_ Hknown]|(url' & i' & Hid' & _ & Hstep)].
  { exfalso. apply Hi, Hknown. by exists url. }
  rewrite Hid in Hid'. injection Hid' as <- <-.
  destruct Hstep as [[Hstep _]|(t' & Ht' & _)]; [|by destruct (Hrej t')].
  rewrite Hstep.
  destruct (fold_left _ post _) as [seen2 acc2] eqn:Hpost.
  apply fold_process_spec in Hpost.
  destruct Hpost as (_ & _ & _ & new2 & -> & Hnew2 & _). simpl.
  rewrite Forall_forall in Hnew1, Hnew2.
  intros [Ht|Ht]%elem_of_app Htid.
  - destruct (Hnew1 t Ht) as (e' & j & _ & _ & Hj & Hex).
    apply extracted_id in Hex. rewrite Hex in Htid.
    injection Htid as ->. done.
  - destruct (Hnew2 t Ht) as (e' & j & _ & Hj & _ & Hex).
    apply extracted_id in Hex. rewrite Hex in Htid.
    injection Htid as ->. apply Hj, added_elem.
Qed.

End ResultFacts.

(** ** The two ways through [get_recent_tweets] *)

Section CallFacts.

Variable fromisoformat : string -> res datetime.
Variable c : client.
Variable hours current_time start_now : Z.
Variable sessions : nat -> session.

Lemma get_recent_tweets_hit cached :
  cache_lookup c hours current_time = Some cached ->
  get_recent_tweets fromisoformat c hours current_time start_now sessions
  = ([], Ok cached, c).
Proof. intros H. unfold get_recent_tweets. by rewrite H. Qed.

Lemma get_recent_tweets_miss start_time :
  cache_lookup c hours current_time = None ->
  start_time_of start_now hours = Ok start_time ->
  get_recent_tweets fromisoformat c hours current_time start_now sessions
  = (run_trace fromisoformat c (start_now - timedelta_hours hours) sessions
               0 (twitter_users c),
     Ok (collected fromisoformat c hours start_now sessions),
     stored (after_events c
               (run_trace fromisoformat c
                  (start_now - timedelta_hours hours) sessions 0
                  (twitter_users c)))
            hours current_time
            (collected fromisoformat c hours start_now sessions)).
Proof.
  intros H Hstart. unfold get_recent_tweets. rewrite H, Hstart.
  apply start_time_of_ok in Hstart as [-> _].
  rewrite <- (after_events_nil c) at 1.
  by rewrite collect_users_spec.
Qed.

Lemma get_recent_tweets_overflow e :
  cache_lookup c hours current_time = None ->
  start_time_of start_now hours = Raise e ->
  get_recent_tweets fromisoformat c hours current_time start_now sessions
  = ([], Raise OverflowError, c).
Proof.
  intros H Hstart. unfold get_recent_tweets. rewrite H, Hstart.
  by rewrite (start_time_of_raise _ _ _ Hstart).
Qed.

(** The three ways through a call. *)
Lemma get_recent_tweets_cases :
  (exists cached,
     cache_lookup c hours current_time = Some cached /\
     _tweets_cache c !! cache_key hours = Some cached /\
     get_recent_tweets fromisoformat c hours current_time start_now sessions
     = ([], Ok cached, c)) \/
  (cache_lookup c hours current_time = None /\
   start_time_of start_now hours = Raise OverflowError /\
   get_recent_tweets fromisoformat c hours current_time start_now sessions
   = ([], Raise OverflowError, c)) \/
  (cache_lookup c hours current_time = None /\
   start_time_of start_now hours = Ok (start_now - timedelta_hours hours) /\
   get_recent_tweets fromisoformat c hours current_time start_now sessions
   = (run_trace fromisoformat c (start_now - timedelta_hours hours) sessions
                0 (twitter_users c),
      Ok (collected fromisoformat c hours start_now sessions),
      stored (after_events c
                (run_trace fromisoformat c
                   (start_now - timedelta_hours hours) sessions 0
                   (twitter_users c)))
             hours current_time
             (collected fromisoformat c hours start_now sessions))).
Proof.
  destruct (cache_lookup c hours current_time) as [cached|] eqn:Hlook.
  - left. exists cached. split; [done|]. split.
    + unfold cache_lookup in Hlook.
      destruct (_tweets_cache c !! cache_key hours) as [m|]; [|done].
      destruct (_tweets_cache_time c !! cache_key hours) as [t|]; [|done].
      by destruct (_ <? _); simplify_eq.
    + by apply get_recent_tweets_hit.
  - right. destruct (start_time_of start_now hours) as [st|e] eqn:Hstart.
    + right. split; [done|].
      pose proof (start_time_of_ok _ _ _ Hstart) as [-> _].
      split; [done|]. by eapply get_recent_tweets_miss.
    + left. split; [done|].
      pose proof (start_time_of_raise _ _ _ Hstart) as ->.
      split; [done|]. by eapply get_recent_tweets_overflow.
Qed.

(** Every list of a collected dictionary is empty or the result of the task
    of a configured account. *)
Lemma collected_value k l :
  collected fromisoformat c hours start_now sessions !! k = Some l ->
  l = [] \/
  exists j u, twitter_users c !! j = Some u /\ Str.lower u = k /\
    l = task_result fromisoformat c (start_now - timedelta_hours hours) u
                    (sessions j).
Proof.
  intros Hl. apply merge_results_value in Hl as [Hl|Hl]; [|by right].
  left. rewrite empty_by_user_lookup in Hl. by case_bool_decide; simplify_eq.
Qed.

End CallFacts.

(** ** The cache *)

Lemma cache_lookup_fresh c hours current_time cached :
  cache_lookup c hours current_time = Some cached <->
  fresh_entry c hours current_time cached.
Proof.
  unfold cache_lookup, fresh_entry, cache_ttl_minutes.
  destruct (_tweets_cache c !! cache_key hours) as [m|];
    destruct (_tweets_cache_time c !! cache_key hours) as [t|];
    try (split; [done|by intros (t' & ? & ? & ?)]).
  destruct (Z.ltb_spec (current_time - t) (5 * 60 * 1000000)).
  - split.
    + intros [= ->]. exists t. split; [done|]. split; [done|lia].
    + intros (t' & ? & ? & ?). by simplify_eq.
  - split; [done|]. intros (t' & ? & ? & ?). simplify_eq. lia.
Qed.

Lemma cache_key_inj hours hours' :
  cache_key hours = cache_key hours' -> hours = hours'.
Proof.
  unfold cache_key. cbn [String.append]. intros [= H].
  by apply pretty_Z_inj in H.
Qed.

(** ** Facts about a series of calls *)



Lemma merge_results_dom (fromisoformat : string -> res datetime) (c : client)
    (start_time : Z) (sessions : nat -> session) users : forall i m k,
  is_Some (merge_results fromisoformat c start_time sessions i users m !! k)
  <-> is_Some (m !! k) \/ k ∈ Str.lower <$> users.
Proof.
  induction users as [|u users IH]; intros i m k.
  - simpl. rewrite elem_of_nil. tauto.
  - cbn [merge_results]. rewrite IH, lookup_insert_is_Some', fmap_cons,
      elem_of_cons. intuition congruence.
Qed.

Lemma collected_keyed (fromisoformat : string -> res datetime) (c : client)
    (hours start_now : Z) (sessions : nat -> session) :
  keyed_by (twitter_users c)
           (collected fromisoformat c hours start_now sessions).
Proof.
  intros k. unfold collected.
  rewrite merge_results_dom, empty_by_user_lookup.
  case_bool_decide as Hin; split.
  - by intros _.
  - intros _. by right.
  - intros [[? [=]]|?]; done.
  - intros ?. by right.
Qed.

Lemma serve_snoc (fromisoformat : string -> res datetime) reqs : forall c r,
  serve fromisoformat c (reqs ++ [r])
  = (get_recent_tweets fromisoformat (serve fromisoformat c reqs)
       (req_hours r) (req_current_time r) (req_start_now r)
       (req_sessions r)).2.
Proof.
  induction reqs as [|r' reqs IH]; intros c r; [done|].
  cbn [serve app]. by rewrite IH.
Qed.





(** What a run collects lies in its window. *)
Lemma collected_within_window (fromisoformat : string -> res datetime)
    (c : client) (hours start_now : Z) (sessions : nat -> session) :
  within_window (start_now - timedelta_hours hours)
                (collected fromisoformat c hours start_now sessions).
Proof.
  intros k l t Hl Ht.
  apply collected_value in Hl as [-> |(j & u & _ & _ & ->)];
    [by apply elem_of_nil in Ht|].
  destruct (task_result_items fromisoformat c
              (start_now - timedelta_hours hours) u (sessions j))
    as [_ Hitems].
  rewrite Forall_forall in Hitems.
  destruct (Hitems t Ht) as (e & i & _ & url & _ & Hdata).
  apply tweet_data_of_spec in Hdata.
  destruct Hdata as (text & ts & _ & _ & Hle & _ & _ & Hcr & _).
  by exists ts.
Qed.

(** Every entry of the cache of a client that started without any was
    stored by the run of one of the calls made since, at the time of that
    call and for its hours, on the client as the calls before had left
    it. *)
Lemma serve_cached (fromisoformat : string -> res datetime) (c0 : client)
    reqs :
  _tweets_cache c0 = ∅ ->
  forall k m,
    _tweets_cache (serve fromisoformat c0 reqs) !! k = Some m ->
    exists r0 reqs1 reqs2,
      reqs = reqs1 ++ r0 :: reqs2 /\ k = cache_key (req_hours r0) /\
      _tweets_cache_time (serve fromisoformat c0 reqs) !! k
      = Some (req_current_time r0) /\
      start_time_of (req_start_now r0) (req_hours r0)
      = Ok (req_start_now r0 - timedelta_hours (req_hours r0)) /\
      m = collected fromisoformat (serve fromisoformat c0 reqs1)
            (req_hours r0) (req_start_now r0) (req_sessions r0).
Proof.
  intros Hempty.
  induction reqs as [|r reqs IH] using rev_ind.
  - intros k m. cbn [serve]. by rewrite Hempty, lookup_empty.
  - rewrite serve_snoc.
    set (c := serve fromisoformat c0 reqs) in *.
    assert (Hmono : forall k m,
      _tweets_cache c !! k = Some m ->
      exists r0 reqs1 reqs2,
        reqs ++ [r] = reqs1 ++ r0 :: reqs2 /\ k = cache_key (req_hours r0) /\
        _tweets_cache_time c !! k = Some (req_current_time r0) /\
        start_time_of (req_start_now r0) (req_hours r0)
        = Ok (req_start_now r0 - timedelta_hours (req_hours r0)) /\
        m = collected fromisoformat (serve fromisoformat c0 reqs1)
              (req_hours r0) (req_start_now r0) (req_sessions r0)).
    { intros k m (r0 & reqs1 & reqs2 & -> & ?)%IH.
      exists r0, reqs1, (reqs2 ++ [r]). split; [|done].
      by rewrite <- app_assoc. }
    destruct (get_recent_tweets_cases fromisoformat c (req_hours r)
                (req_current_time r) (req_start_now r) (req_sessions r))
      as [(cached & _ & _ & ->)|[(_ & _ & ->)|(_ & Hstart & ->)]];
      cbn [snd]; try done.
    intros k m. cbn [stored after_events _tweets_cache _tweets_cache_time].
    destruct (decide (cache_key (req_hours r) = k)) as [<- |Hne].
    + rewrite !lookup_insert_eq. intros [= <-]. by exists r, reqs, [].
    + rewrite !lookup_insert_ne by done. apply Hmono.
Qed.

(** * The claims *)

(** ** C1: every account has an entry, and failures stay local *)




(** ** C2: every returned tweet lies in the window of the run that collected it *)

(** C2, as the code has it.  Take a client as [TwitterClient] builds it and
    any calls made on it, one after the other.  Every dictionary a further
    call returns was collected by the run of one of these calls, this one
    included, that asked for the same number of hours, and every tweet of
    every account in it has an aware [created_at] that is not before the
    start of the window of that run: its clock at line 160 minus the hours.
    When the call is not served from the cache the run is its own.  When it
    is served from the cache the run is that of an earlier call, made less
    than five minutes before: the tweets may be older than the window of the
    call that returns them.  For any client, a call that is not served from
    the cache returns tweets of its own window only.  A container without a
    [time] element, or whose [datetime] attribute is missing or empty, gets
    the clock reading of its extraction; a container whose [created_at] is
    before [start_time] yields no dictionary. *)
Theorem created_at_within_window
    (fromisoformat : string -> res datetime) (config : Config.t)
    (cookie_file : option (res (list cookie))) (reqs : list request)
    (r : request) :
  (forall m,
     (get_recent_tweets fromisoformat
        (serve fromisoformat (TwitterClient config cookie_file) reqs)
        (req_hours r) (req_current_time r) (req_start_now r)
        (req_sessions r)).1.2 = Ok m ->
     exists r0,
       r0 ∈ reqs ++ [r] /\
       req_hours r0 = req_hours r /\
       within_window (req_start_now r0 - timedelta_hours (req_hours r0)) m /\
       (cache_lookup
          (serve fromisoformat (TwitterClient config cookie_file) reqs)
          (req_hours r) (req_current_time r) = None -> r0 = r) /\
       (cache_lookup
          (serve fromisoformat (TwitterClient config cookie_file) reqs)
          (req_hours r) (req_current_time r) = Some m ->
        r0 ∈ reqs /\
        req_current_time r - req_current_time r0 < 300000000)) /\
  (forall c hours current_time start_now sessions m,
     cache_lookup c hours current_time = None ->
     (get_recent_tweets fromisoformat c hours current_time start_now
                        sessions).1.2 = Ok m ->
     within_window (start_now - timedelta_hours hours) m) /\
  (forall e rest,
     time_elements e = Ok [] \/ time_elements e = Ok (Ok None :: rest) \/
     time_elements e = Ok (Ok (Some "") :: rest) ->
     created_at_of fromisoformat e = Ok (Aware (clock e))) /\
  (forall username start_time e url i ts,
     created_at_of fromisoformat e = Ok (Aware ts) ->
     ts < start_time ->
     forall t, tweet_data_of fromisoformat username start_time e url i
               <> Ok (Some t)).
Proof.
  split; [|split; [|split]].
  - intros m.
    set (c := serve fromisoformat (TwitterClient config cookie_file) reqs).
    destruct (get_recent_tweets_cases fromisoformat c (req_hours r)
                (req_current_time r) (req_start_now r) (req_sessions r))
      as [(cached & Hlook & Hcache & ->)|[(_ & _ & ->)|(Hlook & _ & ->)]];
      cbn [fst snd]; [| done |].
    + intros [= ->].
      destruct (serve_cached fromisoformat (TwitterClient config cookie_file)
                  reqs eq_refl _ _ Hcache)
        as (r0 & reqs1 & reqs2 & Hreqs & Hkey & Htime & _ & ->).
      assert (Hin : r0 ∈ reqs).
      { rewrite Hreqs, elem_of_app. right. by left. }
      apply cache_key_inj in Hkey.
      exists r0. split; [rewrite elem_of_app; by left|].
      split; [done|]. split; [apply collected_within_window|].
      split; [congruence|]. intros _. split; [done|].
      apply cache_lookup_fresh in Hlook as (t & _ & Ht & Hage).
      fold c in Htime. rewrite Htime in Ht. by simplify_eq.
    + intros [= <-]. exists r.
      split; [rewrite elem_of_app; right; by apply list_elem_of_singleton|].
      split; [done|]. split; [apply collected_within_window|].
      split; [done|]. congruence.
  - intros c hours current_time start_now sessions m Hmiss.
    destruct (get_recent_tweets_cases fromisoformat c hours current_time
                start_now sessions)
      as [(cached & Hlook & _ & ->)|[(_ & _ & ->)|(_ & _ & ->)]];
      cbn [fst snd]; [congruence | done |].
    intros [= <-]. apply collected_within_window.
  - intros e rest [H|[H|H]]; unfold created_at_of; by rewrite H.
  - intros username start_time e url i ts Hcr Hlt t Hdata.
    apply tweet_data_of_spec in Hdata.
    destruct Hdata as (text & ts' & _ & Hcr' & Hle & _).
    rewrite Hcr in Hcr'. simplify_eq. lia.
Qed.

(** A first call for the account NASA, whose page has the two tweets of the
    three-round scenario; a container without timestamp; a container dated
    before the window. *)
Lemma created_at_within_window_witness :
  (forall m,
     (get_recent_tweets Fixture.iso (Fixture.client_of ["NASA"]) 24
        Fixture.now Fixture.now (fun _ => Fixture.three_rounds)).1.2 = Ok m ->
     within_window (Fixture.now - timedelta_hours 24) m) /\
  created_at_of Fixture.iso Fixture.e_untimed
  = Ok (Aware (clock Fixture.e_untimed)) /\
  (forall t,
     tweet_data_of Fixture.iso "NASA" 1704067200000001 Fixture.e1
                   "https://twitter.com/NASA/status/1" "1" <> Ok (Some t)).
Proof.
  destruct (created_at_within_window Fixture.iso
              (Config.load {["TWITTER_USERS" := "NASA"]}) None []
              {| req_hours := 24; req_current_time := Fixture.now;
                 req_start_now := Fixture.now;
                 req_sessions := fun _ => Fixture.three_rounds |})
    as (_ & Hrun & Hdefault & Hold).
  split; [|split].
  - intros m. apply Hrun. vm_compute. reflexivity.
  - apply (Hdefault Fixture.e_untimed []). left. reflexivity.
  - apply (Hold "NASA" 1704067200000001 Fixture.e1 _ _ 1704067200000000).
    + vm_compute. reflexivity.
    + reflexivity.
Defined.

(** A call at 01:00:00 for a window of one hour collects the tweets of
    00:00:00 and 00:00:01.  A second call for one hour, four minutes later,
    is served from the cache: what it returns is older than the start of
    its own window, 00:04:00. *)
Lemma cached_tweets_older_than_window :
  exists m,
    (get_recent_tweets Fixture.iso
       (get_recent_tweets Fixture.iso (Fixture.client_of ["NASA"]) 1
          1704070800000000 1704070800000000
          (fun _ => Fixture.three_rounds)).2
       1 1704071040000000 1704071040000000
       (fun _ => Fixture.three_rounds)).1.2 = Ok m /\
    (fun l : list tweet => (fun t : tweet => t !! "created_at") <$> l)
      <$> m !! "nasa"
    = Some [Some (VDatetime (Aware 1704067200000000));
            Some (VDatetime (Aware 1704067201000000))] /\
    1704067201000000 < 1704071040000000 - timedelta_hours 1.
Proof.
  exists (collected Fixture.iso (Fixture.client_of ["NASA"]) 1
            1704070800000000 (fun _ => Fixture.three_rounds)).
  split; [vm_compute; reflexivity|].
  split; [vm_compute; reflexivity|]. reflexivity.
Qed.

(** ** C3: ids are unique within a run *)

(** C3.  In the list a collection task returns every dictionary has an id
    and no id occurs twice; and a container whose id is already in
    [processed_ids] is left aside with nothing changed, whatever else it
    holds. *)
Theorem ids_unique_within_run
    (fromisoformat : string -> res datetime) (c : client) (start_time : Z)
    (username : string) (s : session) :
  NoDup ((.!! "id") <$> task_result fromisoformat c start_time username s) /\
  Forall (fun t : tweet => exists i, t !! "id" = Some (VStr i))
         (task_result fromisoformat c start_time username s) /\
  forall (seen : gset string) (processed : list tweet) (e : element)
         (url i : string),
    tweet_identity e = Ok (Some (url, i)) ->
    i ∈ seen ->
    process_tweet_element fromisoformat username start_time
      (seen, processed) e = (seen, processed).
Proof.
  destruct (task_result_items fromisoformat c start_time username s)
    as [Hnd Hitems].
  split; [done|]. split.
  - eapply Forall_impl; [exact Hitems|]. simpl.
    intros t (e & i & _ & Hex). exists i. by eapply extracted_id.
  - intros seen processed e url i Hid Hin.
    unfold process_tweet_element. rewrite Hid.
    by rewrite bool_decide_eq_true_2.
Qed.

(** A container that shows tweet "1" again, with other content, while "1"
    is in [processed_ids]. *)
Lemma ids_unique_within_run_witness :
  process_tweet_element Fixture.iso "NASA" Fixture.window_start
    ({["1"]}, [])
    (Fixture.article "https://twitter.com/NASA/status/1"
                     "https://twitter.com/ESA" Fixture.T1)
  = ({["1"]}, []).
Proof.
  destruct (ids_unique_within_run Fixture.iso (Fixture.client_of ["NASA"])
              Fixture.window_start "NASA" Fixture.three_rounds)
    as (_ & _ & H).
  apply (H {["1"]} [] _ "https://twitter.com/NASA/status/1" "1").
  - reflexivity.
  - apply elem_of_singleton. reflexivity.
Defined.

(** ** C4: the cache *)




(** ** C5: three extraction rounds *)

(** C5.  When the page shows a container with id "1" at first, containers
    with ids "1" and "2" after the first scroll and nothing after the second
    scroll, and the containers with a new id are accepted, the task returns
    the dictionaries of "1" and "2" in this order after exactly three
    extraction rounds: the round that accepts nothing ends the loop, well
    before the [1 + max_scrolls] rounds the cap would allow. *)
Theorem idle_round_ends_collection
    (fromisoformat : string -> res datetime) (c : client) (start_time : Z)
    (username : string) (s : session)
    (a a' b : element) (url_a url_a' url_b : string) (t_a t_b : tweet) :
  setup_driver s = Ok () ->
  session_applied c s = true ->
  profile_get s = Ok () ->
  wait_tweet s = Ok () ->
  find_tweets s = Ok [a] ->
  scroll_by s 0 = Ok () ->
  find_after_scroll s 0 = Ok [a'; b] ->
  scroll_by s 1 = Ok () ->
  find_after_scroll s 1 = Ok [] ->
  tweet_identity a = Ok (Some (url_a, "1")) ->
  tweet_data_of fromisoformat username start_time a url_a "1"
    = Ok (Some t_a) ->
  tweet_identity a' = Ok (Some (url_a', "1")) ->
  tweet_identity b = Ok (Some (url_b, "2")) ->
  tweet_data_of fromisoformat username start_time b url_b "2"
    = Ok (Some t_b) ->
  task_result fromisoformat c start_time username s = [t_a; t_b] /\
  rounds (task_log fromisoformat c start_time username s) = 3%nat /\
  (3 < S max_scrolls)%nat.
Proof.
  intros Hsetup Happ Hget Hwait Hfind Hs0 Hf0 Hs1 Hf1 Ha Hta Ha' Hb Htb.
  destruct (session_applied_uniform c s) as (trc & Hc & Hqc & Hrc).
  rewrite Happ in Hc.
  assert (H1 : exists seen1 : gset string,
            process_tweet_elements fromisoformat username start_time ∅ [a]
            = (seen1, [t_a]) /\ "1" ∈ seen1 /\ "2" ∉ seen1).
  { exists (∅ ∪ {["1"]}). split; [|split; [apply added_elem|]].
    - unfold process_tweet_elements. cbn [fold_left].
      unfold process_tweet_element. rewrite Ha.
      rewrite bool_decide_eq_false_2 by apply not_elem_of_empty.
      by rewrite Hta.
    - intros [H|H]%elem_of_union; [by apply elem_of_empty in H|].
      by apply elem_of_singleton in H. }
  destruct H1 as (seen1 & H1 & Hin1 & Hnew2).
  assert (H2 : exists seen2 : gset string,
            process_tweet_elements fromisoformat username start_time
              seen1 [a'; b] = (seen2, [t_b])).
  { exists (seen1 ∪ {["2"]}).
    unfold process_tweet_elements. cbn [fold_left].
    unfold process_tweet_element. rewrite Ha'.
    rewrite (bool_decide_eq_true_2 _ Hin1), Hb.
    rewrite (bool_decide_eq_false_2 _ Hnew2).
    by rewrite Htb. }
  destruct H2 as (seen2 & H2).
  assert (Hrun : _get_user_tweets fromisoformat c start_time username s
                   init_frame
                 = (extend {| driver := true; log := [] |}
                      ([SetupDriver] ++ trc
                       ++ [Get ("https://twitter.com/" +:+ username);
                           WaitFor "article[data-testid='tweet']";
                           FindTweets; Processed 1;
                           ScrollBy 0; FindTweets; Processed 1;
                           ScrollBy 1; FindTweets; Processed 0; Quit]),
                    Ok [t_a; t_b])).
  { unfold _get_user_tweets, try_except_finally, fetch, browse.
    unfold mbind, task_bind, call, assign_driver, attempt, read_driver.
    rewrite Hsetup. cbn -[process_tweet_elements scroll_loop]. rewrite Hc.
    cbn -[process_tweet_elements scroll_loop].
    rewrite Hget, Hwait, Hfind, H1.
    cbn -[process_tweet_elements scroll_loop]. unfold max_scrolls.
    rewrite (scroll_loop_step _ _ _ _ _ _ _ _ _ _ _ _ Hs0 Hf0 H2).
    cbn [length Nat.eqb].
    rewrite (scroll_loop_step _ _ _ _ _ _ _ _ _ seen2 []  _ Hs1 Hf1 eq_refl).
    cbn [length Nat.eqb]. unfold extend. simpl.
    by rewrite <- !app_assoc. }
  unfold task_result, task_log. rewrite Hrun. simpl.
  split; [done|]. split; [|unfold max_scrolls; lia].
  rewrite rounds_app, Hrc. done.
Qed.

(** The three-round scenario on a concrete page. *)
Lemma idle_round_ends_collection_witness :
  exists t_a t_b : tweet,
    t_a !! "id" = Some (VStr "1") /\ t_b !! "id" = Some (VStr "2") /\
    task_result Fixture.iso (Fixture.client_of ["NASA"])
                Fixture.window_start "NASA" Fixture.three_rounds
    = [t_a; t_b] /\
    rounds (task_log Fixture.iso (Fixture.client_of ["NASA"])
                     Fixture.window_start "NASA" Fixture.three_rounds)
    = 3%nat.
Proof.
  pose proof (idle_round_ends_collection
    Fixture.iso (Fixture.client_of ["NASA"]) Fixture.window_start "NASA"
    Fixture.three_rounds Fixture.e1 Fixture.e1 Fixture.e2
    "https://twitter.com/NASA/status/1" "https://twitter.com/NASA/status/1"
    "https://twitter.com/NASA/status/2"
    (from_option id ∅ (from_ok_option (tweet_data_of Fixture.iso "NASA"
       Fixture.window_start Fixture.e1
       "https://twitter.com/NASA/status/1" "1")))
    (from_option id ∅ (from_ok_option (tweet_data_of Fixture.iso "NASA"
       Fixture.window_start Fixture.e2
       "https://twitter.com/NASA/status/2" "2")))) as H.
  destruct H as (Hres & Hrounds & _);
    try (vm_compute; reflexivity).
  eexists _, _. split; [|split; [|split; [exact Hres|exact Hrounds]]];
    vm_compute; reflexivity.
Defined.

(** ** C6: the repost flag and the original author *)

(** C6, as the code has it.  Every returned dictionary comes from a
    container of the run.  Its [is_retweet] flag is true exactly when the
    container shows an author handle ([author_username], lower-cased) that
    differs from the lower-cased queried handle.  When the flag is false the
    key [original_author] is absent.  When the flag is true the key holds
    that handle, unless the handle is the empty string: line 300 stores the
    key only for a non-empty handle, and then the key is absent as well. *)
Theorem repost_flag_and_original_author
    (fromisoformat : string -> res datetime) (c : client) (start_time : Z)
    (username : string) (s : session) :
  Forall (fun t : tweet =>
    exists e i flag,
      e ∈ run_elements s
            (rounds (task_log fromisoformat c start_time username s)) /\
      extracted fromisoformat username start_time e i t /\
      t !! "is_retweet" = Some (VBool flag) /\
      (flag = true <->
       exists a, author_username e = Ok (Some a) /\
                 a <> Str.lower username) /\
      (flag = false -> t !! "original_author" = None) /\
      (forall a, flag = true -> author_username e = Ok (Some a) ->
                 t !! "original_author"
                 = if decide (a = "") then None else Some (VStr a)))
    (task_result fromisoformat c start_time username s).
Proof.
  destruct (task_result_items fromisoformat c start_time username s)
    as [_ Hitems].
  eapply Forall_impl; [exact Hitems|]. simpl.
  intros t (e & i & He & Hex).
  exists e, i, (fst (retweet_status username e)).
  split; [done|]. split; [done|].
  destruct Hex as (url & _ & Hdata). apply tweet_data_of_spec in Hdata.
  destruct Hdata as (text & ts & _ & _ & _ & _ & _ & _ & _ & _ & Hflag
                     & Horig & _).
  rewrite Horig. split; [done|]. apply retweet_status_spec.
Qed.

(** The author link of the container ends in a slash: the flag is set and
    no [original_author] is stored. *)
Lemma repost_without_original_author :
  author_username Fixture.e_slash = Ok (Some "") /\
  "" <> Str.lower "NASA" /\
  (.!! "is_retweet") <$>
    task_result Fixture.iso (Fixture.client_of ["NASA"])
      Fixture.window_start "NASA"
      (Fixture.page [Fixture.e_slash] (fun _ => []))
  = [Some (VBool true)] /\
  (.!! "original_author") <$>
    task_result Fixture.iso (Fixture.client_of ["NASA"])
      Fixture.window_start "NASA"
      (Fixture.page [Fixture.e_slash] (fun _ => []))
  = [None].
Proof.
  split; [reflexivity|]. split; [discriminate|].
  split; vm_compute; reflexivity.
Qed.

(** A repost and a tweet of the account itself. *)
Lemma repost_flag_and_original_author_witness :
  (.!! "is_retweet") <$>
    task_result Fixture.iso (Fixture.client_of ["NASA"])
      Fixture.window_start "NASA"
      (Fixture.page [Fixture.e_repost; Fixture.e1] (fun _ => []))
  = [Some (VBool true); Some (VBool false)] /\
  (.!! "original_author") <$>
    task_result Fixture.iso (Fixture.client_of ["NASA"])
      Fixture.window_start "NASA"
      (Fixture.page [Fixture.e_repost; Fixture.e1] (fun _ => []))
  = [Some (VStr "esa"); None] /\
  Forall (fun t : tweet =>
    exists e i flag,
      e ∈ run_elements
            (Fixture.page [Fixture.e_repost; Fixture.e1] (fun _ => []))
            (rounds (task_log Fixture.iso (Fixture.client_of ["NASA"])
               Fixture.window_start "NASA"
               (Fixture.page [Fixture.e_repost; Fixture.e1] (fun _ => []))))
      /\
      extracted Fixture.iso "NASA" Fixture.window_start e i t /\
      t !! "is_retweet" = Some (VBool flag) /\
      (flag = true <->
       exists a, author_username e = Ok (Some a) /\ a <> Str.lower "NASA") /\
      (flag = false -> t !! "original_author" = None) /\
      (forall a, flag = true -> author_username e = Ok (Some a) ->
                 t !! "original_author"
                 = if decide (a = "") then None else Some (VStr a)))
    (task_result Fixture.iso (Fixture.client_of ["NASA"])
       Fixture.window_start "NASA"
       (Fixture.page [Fixture.e_repost; Fixture.e1] (fun _ => []))).
Proof.
  split; [vm_compute; reflexivity|]. split; [vm_compute; reflexivity|].
  apply (repost_flag_and_original_author Fixture.iso
           (Fixture.client_of ["NASA"]) Fixture.window_start "NASA"
           (Fixture.page [Fixture.e_repost; Fixture.e1] (fun _ => []))).
Defined.

(** ** C7: the browser is torn down on every path *)

(** C7.  A collection task never raises.  When [_setup_driver] returned a
    handle, the task calls [driver.quit()] exactly once, as the last thing
    it does before its result is delivered, whatever the browser did in
    between: the run completed, the page showed no tweet in time, the
    session was rejected, or a call raised.  When [_setup_driver] raised,
    there is nothing to tear down and [quit] is not called. *)
Theorem driver_quit_on_every_path
    (fromisoformat : string -> res datetime) (c : client) (start_time : Z)
    (username : string) (s : session) :
  (_get_user_tweets fromisoformat c start_time username s init_frame).2
  = Ok (task_result fromisoformat c start_time username s) /\
  (setup_driver s = Ok () ->
   exists tr,
     task_log fromisoformat c start_time username s
     = SetupDriver :: tr ++ [Quit] /\ (Quit ∉ tr)) /\
  (forall e, setup_driver s = Raise e ->
     Quit ∉ task_log fromisoformat c start_time username s).
Proof.
  split; [by rewrite task_run|].
  destruct (task_log_shape fromisoformat c start_time username s)
    as (tr & Hlog & Hq & _).
  split.
  - intros Hs. rewrite Hs in Hlog. by exists tr.
  - intros e Hs. rewrite Hs in Hlog. simpl in Hlog.
    rewrite Hlog, app_nil_r. intros [?|?]%elem_of_cons; [discriminate|done].
Qed.

(** The four ways out of a task that holds a handle, and one that never got
    one. *)
Lemma driver_quit_on_every_path_witness :
  (forall s, s ∈ [Fixture.three_rounds; Fixture.timed_out; Fixture.rejected;
                  Fixture.broken] ->
     exists tr,
       task_log Fixture.iso (Fixture.client_of ["NASA"]) Fixture.window_start
                "NASA" s
       = SetupDriver :: tr ++ [Quit] /\ (Quit ∉ tr)) /\
  task_result Fixture.iso (Fixture.client_of ["NASA"]) Fixture.window_start
              "NASA" Fixture.broken = [].
Proof.
  split; [|vm_compute; reflexivity].
  intros s Hs.
  apply (driver_quit_on_every_path Fixture.iso (Fixture.client_of ["NASA"])
           Fixture.window_start "NASA" s).
  repeat (apply elem_of_cons in Hs as [-> |Hs]; [reflexivity|]).
  by apply elem_of_nil in Hs.
Defined.

(** ** C8: the keys of a returned dictionary *)

(** C8, as the code has it.  Every returned dictionary holds a string under
    [id], [text] and [url], an aware datetime under [created_at], a list of
    strings under [image_urls] and a boolean under [is_retweet]; the only
    other key it can hold is [original_author].  The dictionary comes from a
    container of the run, and it holds [original_author] exactly for a
    repost whose author handle is not the empty string: then the key holds
    this handle, a string.  There is no [author] key. *)
Theorem tweet_keys_without_author
    (fromisoformat : string -> res datetime) (c : client) (start_time : Z)
    (username : string) (s : session) :
  Forall (fun t : tweet =>
    (exists i text url ts imgs flag,
       t !! "id" = Some (VStr i) /\
       t !! "text" = Some (VStr text) /\
       t !! "created_at" = Some (VDatetime (Aware ts)) /\
       t !! "url" = Some (VStr url) /\
       t !! "image_urls" = Some (VList imgs) /\
       t !! "is_retweet" = Some (VBool flag)) /\
    (exists e i,
       e ∈ run_elements s
             (rounds (task_log fromisoformat c start_time username s)) /\
       extracted fromisoformat username start_time e i t /\
       (forall a,
          t !! "original_author" = Some (VStr a) <->
          t !! "is_retweet" = Some (VBool true) /\
          author_username e = Ok (Some a) /\ a <> "") /\
       (forall v, t !! "original_author" = Some v -> exists a, v = VStr a)) /\
    (forall k, is_Some (t !! k) -> k ∈ tweet_keys) /\
    t !! "author" = None)
    (task_result fromisoformat c start_time username s).
Proof.
  destruct (task_result_items fromisoformat c start_time username s)
    as [_ Hitems].
  eapply Forall_impl; [exact Hitems|]. simpl.
  intros t (e & i & He & Hex).
  assert (Hdata := Hex). destruct Hdata as (url & _ & Hdata).
  apply tweet_data_of_spec in Hdata.
  destruct Hdata as (text & ts & _ & _ & _ & Hid & Htext & Hcr & Himg & Hurl
                     & Hflag & Horig & Hother).
  split; [|split; [|split]].
  - by exists i, text, url, ts, (image_urls_of e),
              (fst (retweet_status username e)).
  - exists e, i. split; [done|]. split; [done|].
    rewrite Horig, Hflag.
    destruct (stored_original_author_spec username e) as [Hsome Hstr].
    split; [|done]. intros a. rewrite Hsome.
    split.
    + intros (-> & ? & ?). done.
    + intros ([= ->] & ? & ?). done.
  - intros k Hk. destruct (decide (k ∈ tweet_keys)) as [|Hnot]; [done|].
    rewrite (Hother k Hnot) in Hk. by destruct Hk.
  - apply Hother. unfold tweet_keys. not_among.
Qed.

(** A repost and a tweet of the account itself: the first holds the handle
    of the original author, the second has no such key, and neither has an
    [author] key. *)
Lemma tweet_keys_without_author_witness :
  Forall (fun t : tweet =>
    (forall k, is_Some (t !! k) -> k ∈ tweet_keys) /\ t !! "author" = None)
    (task_result Fixture.iso (Fixture.client_of ["NASA"])
       Fixture.window_start "NASA"
       (Fixture.page [Fixture.e_repost; Fixture.e1] (fun _ => []))) /\
  (.!! "original_author") <$>
    task_result Fixture.iso (Fixture.client_of ["NASA"])
      Fixture.window_start "NASA"
      (Fixture.page [Fixture.e_repost; Fixture.e1] (fun _ => []))
  = [Some (VStr "esa"); None].
Proof.
  split; [|vm_compute; reflexivity].
  eapply Forall_impl;
    [apply (tweet_keys_without_author Fixture.iso
              (Fixture.client_of ["NASA"]) Fixture.window_start "NASA"
              (Fixture.page [Fixture.e_repost; Fixture.e1] (fun _ => [])))|].
  simpl. intros t (_ & _ & Hkeys & Hauthor). by split.
Defined.

(** The two tweets of the three-round scenario carry no [author] key. *)
Lemma returned_tweets_lack_author :
  (.!! "author") <$>
    task_result Fixture.iso (Fixture.client_of ["NASA"])
      Fixture.window_start "NASA" Fixture.three_rounds
  = [None; None].
Proof. vm_compute. reflexivity. Qed.

(** ** C9: accounts are collected one after the other *)

(** C9, as the code has it.  The pool has three workers, but the coroutine
    awaits the task of an account, and then sleeps, before it submits the
    task of the next account: at no moment of a call is more than one
    account task in flight.  In a call that is not served from the cache
    and gets past line 160 the tasks are submitted in the configured order,
    each followed by the delivery of its result and the pause, and the
    results are stored in that order; a call that raises at line 160 has
    submitted no task. *)
Theorem accounts_collected_one_at_a_time
    (fromisoformat : string -> res datetime) (c : client)
    (hours current_time start_now : Z) (sessions : nat -> session) :
  (peak 0 (get_recent_tweets fromisoformat c hours current_time start_now
             sessions).1.1 <= 1)%nat /\
  max_workers = 3%nat /\
  (cache_lookup c hours current_time = None ->
   (start_time_of start_now hours = Raise OverflowError /\
    (get_recent_tweets fromisoformat c hours current_time start_now
       sessions).1 = ([], Raise OverflowError)) \/
   (start_time_of start_now hours = Ok (start_now - timedelta_hours hours) /\
    submitted (get_recent_tweets fromisoformat c hours current_time start_now
                 sessions).1.1 = twitter_users c /\
    (get_recent_tweets fromisoformat c hours current_time start_now
       sessions).1.1
    = run_trace fromisoformat c (start_now - timedelta_hours hours) sessions
                0 (twitter_users c) /\
    (get_recent_tweets fromisoformat c hours current_time start_now
       sessions).1.2
    = Ok (merge_results fromisoformat c (start_now - timedelta_hours hours)
            sessions 0 (twitter_users c)
            (empty_by_user (twitter_users c))))).
Proof.
  destruct (get_recent_tweets_cases fromisoformat c hours current_time
              start_now sessions)
    as [(cached & Hlook & _ & ->)|[(_ & Hstart & ->)|(_ & Hstart & ->)]];
    cbn [fst snd].
  - split; [simpl; lia|]. split; [done|]. congruence.
  - split; [simpl; lia|]. split; [done|]. intros _. by left.
  - split; [apply run_trace_peak|]. split; [done|]. intros _. right.
    split; [done|]. split; [apply run_trace_submitted|done].
Qed.

(** Two accounts on a new client: the task of the second is submitted after
    the result of the first was delivered. *)
Lemma accounts_collected_one_at_a_time_witness :
  filter (fun ev => is_dispatch ev = true)
    (get_recent_tweets Fixture.iso (Fixture.client_of ["NASA"; "esa"]) 24
       Fixture.now Fixture.now (fun _ => Fixture.three_rounds)).1.1
  = [Submit "NASA"; Resume "NASA"; Sleep; Submit "esa"; Resume "esa"; Sleep]
  /\
  submitted
    (get_recent_tweets Fixture.iso (Fixture.client_of ["NASA"; "esa"]) 24
       Fixture.now Fixture.now (fun _ => Fixture.three_rounds)).1.1
  = ["NASA"; "esa"].
Proof.
  split; [vm_compute; reflexivity|].
  destruct (accounts_collected_one_at_a_time Fixture.iso
              (Fixture.client_of ["NASA"; "esa"]) 24 Fixture.now Fixture.now
              (fun _ => Fixture.three_rounds)) as (_ & _ & Hrun).
  destruct (Hrun eq_refl) as [[Hstart _]|(_ & Hsub & _)];
    [discriminate Hstart|exact Hsub].
Defined.

(** No run has a moment at which the tasks of two accounts are in flight:
    the next account is never dispatched while the previous one is at
    work. *)
Lemma dispatch_waits_for_previous_account :
  ~ exists (fromisoformat : string -> res datetime) (c : client)
           (hours current_time start_now : Z) (sessions : nat -> session),
      (2 <= peak 0 (get_recent_tweets fromisoformat c hours current_time
                      start_now sessions).1.1)%nat.
Proof.
  intros (fromisoformat & c & hours & current_time & start_now & sessions
          & Hpeak).
  destruct (get_recent_tweets_cases fromisoformat c hours current_time
              start_now sessions)
    as [(cached & _ & _ & Hrun)|[(_ & _ & Hrun)|(_ & _ & Hrun)]];
    rewrite Hrun in Hpeak; cbn [fst snd] in Hpeak.
  - simpl in Hpeak. lia.
  - simpl in Hpeak. lia.
  - pose proof (run_trace_peak fromisoformat c
                  (start_now - timedelta_hours hours) sessions
                  (twitter_users c) 0%nat). lia.
Qed.

(** ** C10: an id is recorded before the container is judged *)

(** C10.  A container with a readable id that is not in [processed_ids] puts
    its id there whatever happens next, and a container whose [created_at]
    is before [start_time], or whose reading raises after the id was known,
    yields no dictionary.  What a task returns is nothing or what one pass
    over the containers of all its extraction rounds, in reading order,
    accepts.  Hence, when the first container that carries an id is not
    accepted, no dictionary with this id is in the result, even if a later
    container with the same id would have been accepted. *)
Theorem rejected_id_stays_out
    (fromisoformat : string -> res datetime) (c : client) (start_time : Z)
    (username : string) (s : session) :
  (forall (seen : gset string) (processed : list tweet) e url i,
     tweet_identity e = Ok (Some (url, i)) -> i ∉ seen ->
     (process_tweet_element fromisoformat username start_time
        (seen, processed) e).1 = seen ∪ {[i]}) /\
  (forall e url i,
     (exists ts, created_at_of fromisoformat e = Ok (Aware ts) /\
                 ts < start_time) \/
     (exists err, tweet_data_of fromisoformat username start_time e url i
                  = Raise err) ->
     forall t, tweet_data_of fromisoformat username start_time e url i
               <> Ok (Some t)) /\
  (task_result fromisoformat c start_time username s = [] \/
   task_result fromisoformat c start_time username s
   = (process_tweet_elements fromisoformat username start_time ∅
        (run_elements s
           (rounds (task_log fromisoformat c start_time username s)))).2) /\
  (forall pre e post url i,
     run_elements s (rounds (task_log fromisoformat c start_time username s))
     = pre ++ e :: post ->
     tweet_identity e = Ok (Some (url, i)) ->
     (forall e', e' ∈ pre -> ~ identified e' i) ->
     (forall t, tweet_data_of fromisoformat username start_time e url i
                <> Ok (Some t)) ->
     forall t, t ∈ task_result fromisoformat c start_time username s ->
               t !! "id" <> Some (VStr i)).
Proof.
  split; [|split; [|split]].
  - intros seen processed e url i Hid Hnew.
    unfold process_tweet_element. rewrite Hid.
    rewrite (bool_decide_eq_false_2 _ Hnew).
    by destruct (tweet_data_of _ _ _ _ _ _) as [[t|]|].
  - intros e url i [(ts & Hcr & Hlt)|(err & Herr)] t Hdata.
    + apply tweet_data_of_spec in Hdata.
      destruct Hdata as (text & ts' & _ & Hcr' & Hle & _).
      rewrite Hcr in Hcr'. simplify_eq. lia.
    + congruence.
  - destruct (task_result_spec fromisoformat c start_time username s)
      as [_ [Hnil|(_ & _ & Hres)]]; [by left|by right].
  - intros pre e post url i Hes Hid Hfirst Hrej t Ht.
    destruct (task_result_spec fromisoformat c start_time username s)
      as [_ [Hnil|(_ & _ & Hres)]].
    + rewrite Hnil in Ht. by apply elem_of_nil in Ht.
    + rewrite Hres, Hes in Ht.
      by eapply first_reading_decides.
Qed.

(** Tweet "4" cannot be read when it first shows, and is readable after the
    first scroll: it stays out, although it is accepted on a page where it
    is readable from the start. *)
Lemma rejected_id_stays_out_witness :
  (forall t : tweet,
     t ∈ task_result Fixture.iso (Fixture.client_of ["NASA"])
           Fixture.window_start "NASA"
           (Fixture.page [Fixture.e_stale]
              (fun k => match k with
                        | O => [Fixture.e_stale_again; Fixture.e1]
                        | _ => []
                        end)) ->
     t !! "id" <> Some (VStr "4")) /\
  (.!! "id") <$>
    task_result Fixture.iso (Fixture.client_of ["NASA"])
      Fixture.window_start "NASA"
      (Fixture.page [Fixture.e_stale_again] (fun _ => []))
  = [Some (VStr "4")].
Proof.
  split; [|vm_compute; reflexivity].
  destruct (rejected_id_stays_out Fixture.iso (Fixture.client_of ["NASA"])
              Fixture.window_start "NASA"
              (Fixture.page [Fixture.e_stale]
                 (fun k => match k with
                           | O => [Fixture.e_stale_again; Fixture.e1]
                           | _ => []
                           end))) as (_ & _ & _ & H).
  apply (H [] Fixture.e_stale [Fixture.e_stale_again; Fixture.e1]
           "https://twitter.com/NASA/status/4" "4").
  - vm_compute. reflexivity.
  - reflexivity.
  - intros e' He'. by apply elem_of_nil in He'.
  - intros t. vm_compute. discriminate.
Defined.

(** * Further properties *)

(** ** The shape of a collection task *)

Lemma rounds_scrolls_app tr1 tr2 :
  scrolls (tr1 ++ tr2) = (scrolls tr1 + scrolls tr2)%nat.
Proof.
  induction tr1 as [|ev tr1 IH]; [done|].
  destruct ev; simpl; by rewrite ?IH.
Qed.

(** The events and the outcome of a uniform task are determined. *)
Lemma uniform_unique {A} (m : task A) tr1 r1 tr2 r2 :
  uniform m tr1 r1 -> uniform m tr2 r2 -> tr1 = tr2 /\ r1 = r2.
Proof.
  intros H1 H2. specialize (H1 init_frame). rewrite (H2 init_frame) in H1.
  injection H1 as Hlog Hr. simpl in Hlog. by split.
Qed.

(** Tasks that only add events of one kind. *)
Lemma only_ret {A} P (a : A) : only P (mret a).
Proof. intros f f' r [= <- <-]. exists []. by rewrite app_nil_r. Qed.

Lemma only_raise {A} P e : only P (@raise A e).
Proof. intros f f' r [= <- <-]. exists []. by rewrite app_nil_r. Qed.

Lemma only_call {A} (P : event -> bool) ev (r : res A) :
  P ev = true -> only P (call ev r).
Proof.
  intros Hev f f' r' [= <- <-]. exists [ev]. simpl. by rewrite Hev.
Qed.

Lemma only_bind {A B} P (m : task A) (k : A -> task B) :
  only P m -> (forall a, only P (k a)) -> only P (m ≫= k).
Proof.
  intros Hm Hk f f' r. unfold mbind, task_bind.
  destruct (m f) as [f1 [a|e]] eqn:Hmf; intros Hr.
  - destruct (Hm _ _ _ Hmf) as (tr1 & E1 & H1).
    destruct (Hk a _ _ _ Hr) as (tr2 & E2 & H2).
    exists (tr1 ++ tr2). split; [by rewrite E2, E1, app_assoc|].
    rewrite forallb_app. by rewrite H1, H2.
  - injection Hr as <- <-. exact (Hm _ _ _ Hmf).
Qed.

Lemma only_attempt {A} P (m : task A) : only P m -> only P (attempt m).
Proof.
  intros Hm f f' r. unfold attempt.
  destruct (m f) as [f1 r1] eqn:Hmf. intros [= <- <-].
  exact (Hm _ _ _ Hmf).
Qed.

Lemma add_cookies_only P s cookies :
  (forall i, P (AddCookie i) = true) ->
  forall i, only P (add_cookies s i cookies).
Proof.
  intros HP. induction cookies as [|ck cookies IH]; intros i; simpl.
  - apply only_ret.
  - apply only_bind; [by apply only_attempt, only_call|].
    intros _. apply IH.
Qed.

(** [_apply_cookies] only loads the home page, adds cookies, refreshes and
    waits. *)
Lemma apply_cookies_only P c s :
  P (Get "https://twitter.com") = true ->
  (forall i, P (AddCookie i) = true) ->
  P Refresh = true ->
  P (WaitFor "div[data-testid='primaryColumn']") = true ->
  only P (_apply_cookies c s).
Proof.
  intros Hget Hadd Href Hwait. unfold _apply_cookies.
  destruct (_cookies c) as [[|ck cookies]|]; try apply only_ret.
  apply only_bind.
  - apply only_attempt.
    apply only_bind; [by apply only_call|]. intros _.
    apply only_bind; [by apply add_cookies_only|]. intros _.
    apply only_bind; [by apply only_call|]. intros _.
    apply only_bind; [by apply only_attempt, only_call|].
    intros [[]|[]]; first [apply only_ret|apply only_raise].
  - intros [b|e]; apply only_ret.
Qed.

Lemma only_no_scroll tr :
  forallb (fun ev => negb (is_scroll ev)) tr = true -> scrolls tr = O.
Proof.
  induction tr as [|ev tr IH]; [done|]. simpl.
  intros [Hev Htr]%andb_prop. destruct ev; try discriminate; by apply IH.
Qed.

Section ShapeFacts.

Variable fromisoformat : string -> res datetime.
Variable c : client.
Variable start_time : Z.
Variable username : string.
Variable s : session.

Local Abbreviation process_all :=
  (process_tweet_elements fromisoformat username start_time).
Local Abbreviation scroll :=
  (scroll_loop fromisoformat username start_time s).
Local Abbreviation later :=
  (accepted_from fromisoformat username start_time s).
Local Abbreviation upto :=
  (accepted_in fromisoformat username start_time s).

Lemma accepted_from_succ seen k j b seen' new :
  find_after_scroll s k = Ok b ->
  process_all seen b = (seen', new) ->
  later seen k (S j) = new ++ later seen' (S k) j.
Proof.
  intros Hfind Hp. unfold accepted_from. cbn [scroll_elements].
  rewrite Hfind. cbn [from_ok].
  by rewrite process_tweet_elements_app, Hp.
Qed.

(** The scroll loop in full: how many scrolls it makes, that a loop that
    returns made every browser call of its rounds with success, that every
    round but the last accepted something, and that it ends at the cap or
    after a round that accepted nothing. *)
Lemma scroll_loop_shape fuel : forall k seen acc,
  exists tr r,
    uniform (scroll fuel k seen acc) tr r /\
    (scrolls tr <= fuel)%nat /\
    forall l, r = Ok l ->
      scrolls tr = rounds tr /\
      (fuel <> O -> (1 <= rounds tr)%nat) /\
      (forall j, (j < rounds tr)%nat ->
         scroll_by s (k + j) = Ok () /\
         is_ok (find_after_scroll s (k + j)) = true) /\
      (forall j, (S j < rounds tr)%nat ->
         (length (later seen k j) < length (later seen k (S j)))%nat) /\
      (rounds tr = fuel \/
       later seen k (rounds tr) = later seen k (rounds tr - 1)) /\
      l = acc ++ later seen k (rounds tr).
Proof.
  induction fuel as [|fuel IH]; intros k seen acc.
  - exists [], (Ok acc). split; [apply uniform_ret|]. split; [done|].
    intros l [= <-]. split; [done|]. split; [done|].
    split; [intros j Hj; simpl in Hj; lia|].
    split; [intros j Hj; simpl in Hj; lia|].
    split; [by left|]. unfold accepted_from. simpl. by rewrite app_nil_r.
  - destruct (scroll_by s k) as [[]|e] eqn:Hsb.
    2: { exists [ScrollBy k], (Raise e). split.
         - intros f. cbn [scroll_loop].
           unfold mbind, task_bind, call. by rewrite Hsb.
         - split; [simpl; lia|done]. }
    destruct (find_after_scroll s k) as [b|e] eqn:Hfind.
    2: { exists [ScrollBy k; FindTweets], (Raise e). split.
         - intros f. cbn [scroll_loop].
           unfold mbind, task_bind, call. rewrite Hsb, Hfind.
           unfold extend. simpl. by rewrite <- app_assoc.
         - split; [simpl; lia|done]. }
    destruct (process_all seen b) as [seen' new] eqn:Hp.
    assert (Hsucc : forall j, later seen k (S j) = new ++ later seen' (S k) j)
      by (intros j; by eapply accepted_from_succ).
    assert (Hzero : later seen k 0 = []) by done.
    destruct (Nat.eqb (length new) 0) eqn:Hlen.
    + exists [ScrollBy k; FindTweets; Processed (length new)],
             (Ok (acc ++ new)).
      split.
      { intros f. rewrite (scroll_loop_step _ _ _ _ _ _ _ _ _ _ _ _
                             Hsb Hfind Hp). by rewrite Hlen. }
      split; [simpl; lia|].
      intros l [= <-]. simpl.
      apply Nat.eqb_eq in Hlen. destruct new; [|done].
      split; [done|]. split; [lia|]. split.
      { intros j Hj. assert (j = O) as -> by lia.
        rewrite Nat.add_0_r, Hfind. by split. }
      split; [intros j Hj; lia|].
      split; [right; by rewrite Hsucc|].
      by rewrite Hsucc.
    + destruct (IH (S k) seen' (acc ++ new)) as (tr & r & Hu & Hs & Hl).
      exists ([ScrollBy k; FindTweets; Processed (length new)] ++ tr), r.
      split.
      { intros f. rewrite (scroll_loop_step _ _ _ _ _ _ _ _ _ _ _ _
                             Hsb Hfind Hp). rewrite Hlen, Hu.
        by rewrite extend_extend. }
      split; [simpl; lia|].
      intros l Hrl.
      destruct (Hl l Hrl) as (Hsr & Hone & Hcalls & Hgrow & Hend & Hres).
      apply Nat.eqb_neq in Hlen.
      cbn [app scrolls rounds].
      split; [lia|]. split; [lia|]. split.
      { intros [|j] Hj.
        - rewrite Nat.add_0_r, Hfind. by split.
        - replace (k + S j)%nat with (S k + j)%nat by lia.
          apply Hcalls. lia. }
      split.
      { intros [|j] Hj.
        - rewrite Hzero, Hsucc, length_app. simpl. lia.
        - rewrite !Hsucc, !length_app.
          assert (length (later seen' (S k) j)
                  < length (later seen' (S k) (S j)))%nat
            by (apply Hgrow; lia). lia. }
      split.
      { destruct Hend as [Hcap|Hidle]; [left; lia|].
        destruct (rounds tr) as [|n] eqn:Hn.
        - left. destruct fuel; [done|]. assert (1 <= 0)%nat by auto. lia.
        - right. simpl in Hidle. rewrite Nat.sub_0_r in Hidle.
          simpl. rewrite !Hsucc. by rewrite Hidle. }
      rewrite Hres, Hsucc. by rewrite app_assoc.
Qed.

Lemma accepted_in_succ j b seen' new :
  find_tweets s = Ok b ->
  process_all ∅ b = (seen', new) ->
  upto (S j) = new ++ later seen' 0 j.
Proof.
  intros Hfind Hp. unfold accepted_in, accepted_from. cbn [run_elements].
  rewrite Hfind. cbn [from_ok].
  by rewrite process_tweet_elements_app, Hp.
Qed.

(** The body of a task once the handle is bound. *)
Lemma browse_shape :
  exists tr r,
    uniform (browse fromisoformat c start_time username s) tr r /\
    (scrolls tr <= max_scrolls)%nat /\
    forall l, r = Ok l ->
      (rounds tr = O /\ scrolls tr = O /\ l = []) \/
      (clean_start c s /\ (2 <= rounds tr)%nat /\
       S (scrolls tr) = rounds tr /\
       (forall j, (S j < rounds tr)%nat ->
          scroll_by s j = Ok () /\ is_ok (find_after_scroll s j) = true) /\
       (forall j, (1 <= j)%nat -> (S j < rounds tr)%nat ->
          (length (upto j) < length (upto (S j)))%nat) /\
       (rounds tr = S max_scrolls \/ upto (rounds tr) = upto (rounds tr - 1))
       /\ l = upto (rounds tr)).
Proof.
  destruct (session_applied_uniform c s) as (trc & Hc & Hqc & Hrc).
  assert (Hsc : scrolls trc = O).
  { apply only_no_scroll.
    destruct (apply_cookies_only (fun ev => negb (is_scroll ev)) c s
                eq_refl (fun _ => eq_refl) eq_refl eq_refl init_frame _ _
                (Hc init_frame)) as (tr' & E & H).
    simpl in E. by subst tr'. }
  unfold browse, clean_start.
  destruct (session_applied c s) eqn:Happ.
  2: { exists trc, (Ok []). split.
       - rewrite <- (app_nil_r trc).
         eapply uniform_bind_ok; [exact Hc|apply uniform_ret].
       - split; [lia|]. intros l [= <-]. by left. }
  destruct (profile_get s) as [[]|e] eqn:Hget.
  2: { exists (trc ++ [Get ("https://twitter.com/" +:+ username)]), (Raise e).
       split.
       - eapply uniform_bind_ok; [exact Hc|]. simpl.
         apply uniform_bind_raise, uniform_call.
       - split; [|done]. rewrite rounds_scrolls_app, Hsc. simpl. lia. }
  set (pre := trc ++ [Get ("https://twitter.com/" +:+ username);
                      WaitFor "article[data-testid='tweet']"]).
  assert (Hpre : scrolls pre = O /\ rounds pre = O).
  { unfold pre. rewrite rounds_scrolls_app, rounds_app, Hsc, Hrc. by split. }
  destruct Hpre as [Hspre Hrpre].
  destruct (wait_tweet s) as [[]|e] eqn:Hwait.
  2: { exists pre, (match e with
                    | TimeoutException => Ok []
                    | _ => Raise e
                    end).
       split.
       - intros f. unfold mbind, task_bind, attempt, call.
         rewrite Hc. simpl.
         destruct e; unfold mret, task_ret, raise, extend, pre; simpl;
           by rewrite <- ?app_assoc.
       - split; [lia|]. intros l Hl. left.
         split; [done|]. split; [done|]. destruct e; congruence. }
  destruct (find_tweets s) as [b|e] eqn:Hfind.
  2: { exists (pre ++ [FindTweets]), (Raise e). split.
       - intros f. unfold mbind, task_bind, attempt, call.
         rewrite Hc. simpl. unfold extend, pre. simpl.
         by rewrite <- !app_assoc.
       - split; [|done]. rewrite rounds_scrolls_app, Hspre. simpl. lia. }
  destruct (process_all ∅ b) as [seen' new] eqn:Hp.
  destruct (scroll_loop_shape max_scrolls 0%nat seen' new)
    as (trl & r & Hu & Hs & Hl).
  exists (pre ++ [FindTweets; Processed (length new)] ++ trl), r. split.
  - intros f. unfold mbind, task_bind, attempt, call.
    rewrite Hc. cbn -[scroll_loop]. rewrite Hp, Hu.
    unfold extend, pre. simpl. by rewrite <- !app_assoc.
  - assert (Hsucc : forall j, upto (S j) = new ++ later seen' 0 j).
    { intros j. by eapply accepted_in_succ. }
    rewrite !rounds_scrolls_app, !rounds_app, Hspre, Hrpre.
    cbn [scrolls rounds Nat.add].
    split; [lia|].
    intros l Hrl.
    destruct (Hl l Hrl) as (Hsr & Hone & Hcalls & Hgrow & Hend & Hres).
    right. split; [done|].
    assert (1 <= rounds trl)%nat by (apply Hone; discriminate).
    split; [lia|]. split; [lia|]. split.
    { intros j Hj. apply (Hcalls j). lia. }
    split.
    { intros [|j] Hj1 Hj; [lia|].
      rewrite !Hsucc, !length_app.
      assert (length (later seen' 0 j) < length (later seen' 0 (S j)))%nat
        by (apply Hgrow; lia). lia. }
    split.
    { destruct Hend as [Hcap|Hidle]; [left; lia|right].
      destruct (rounds trl) as [|n]; [lia|].
      simpl in Hidle. rewrite Nat.sub_0_r in Hidle.
      cbn [Nat.sub]. rewrite !Hsucc. by rewrite Hidle. }
    by rewrite Hres, Hsucc.
Qed.

(** A whole task, by the outcome of [_setup_driver]. *)
Lemma task_shape :
  (forall e, setup_driver s = Raise e ->
     task_log fromisoformat c start_time username s = [SetupDriver] /\
     task_result fromisoformat c start_time username s = [] /\
     forall f, (fetch fromisoformat c start_time username s f).2 = Raise e)
  /\
  (forall tr r,
     setup_driver s = Ok () ->
     uniform (browse fromisoformat c start_time username s) tr r ->
     task_log fromisoformat c start_time username s
     = SetupDriver :: tr ++ [Quit] /\
     task_result fromisoformat c start_time username s = from_ok r /\
     forall f, (fetch fromisoformat c start_time username s f).2 = r).
Proof.
  unfold task_log, task_result, _get_user_tweets, try_except_finally, fetch.
  split.
  - intros e He. unfold mbind, task_bind, call, read_driver. rewrite He.
    simpl. by destruct e.
  - intros tr r Hs Hu.
    unfold mbind, task_bind, call, assign_driver, read_driver. rewrite Hs.
    simpl. rewrite !Hu. simpl.
    split; [|split; [|intros f; by rewrite Hu]];
      destruct r as [l|e]; [| destruct e | | destruct e]; done.
Qed.

End ShapeFacts.

Lemma task_scrolls (fromisoformat : string -> res datetime) (c : client)
    (start_time : Z) (username : string) (s : session) :
  (scrolls (task_log fromisoformat c start_time username s) <= max_scrolls)%nat.
Proof.
  destruct (task_shape fromisoformat c start_time username s) as [Hfail Hok].
  destruct (setup_driver s) as [[]|e] eqn:Hs.
  - destruct (browse_shape fromisoformat c start_time username s)
      as (tr & r & Hu & Hsc & _).
    destruct (Hok tr r eq_refl Hu) as (-> & _).
    cbn [scrolls]. rewrite rounds_scrolls_app. simpl. lia.
  - destruct (Hfail e eq_refl) as (-> & _). simpl. lia.
Qed.

Lemma run_trace_scrolls (fromisoformat : string -> res datetime) (c : client)
    (start_time : Z) (sessions : nat -> session) users : forall i,
  (scrolls (run_trace fromisoformat c start_time sessions i users)
   <= max_scrolls * length users)%nat.
Proof.
  induction users as [|u users IH]; intros i; [simpl; lia|].
  cbn [run_trace scrolls length]. rewrite rounds_scrolls_app.
  cbn [scrolls].
  pose proof (task_scrolls fromisoformat c start_time u (sessions i)).
  specialize (IH (S i)). lia.
Qed.

(** X1.  A task makes at most 10 scrolls and at most 11 extraction rounds,
    whatever the page does; a call scrolls at most 10 times per configured
    account. *)
Theorem scroll_and_round_caps
    (fromisoformat : string -> res datetime) (c : client)
    (hours current_time start_now : Z) (sessions : nat -> session) :
  (forall start_time username s,
     (scrolls (task_log fromisoformat c start_time username s) <= 10)%nat /\
     (rounds (task_log fromisoformat c start_time username s) <= 11)%nat) /\
  (scrolls (get_recent_tweets fromisoformat c hours current_time start_now
              sessions).1.1 <= 10 * length (twitter_users c))%nat.
Proof.
  split.
  - intros start_time username s. split; [apply task_scrolls|].
    destruct (task_log_shape fromisoformat c start_time username s)
      as (tr & -> & _ & Hr).
    cbn [rounds]. rewrite rounds_app.
    unfold max_scrolls in Hr.
    destruct (is_ok (setup_driver s)); simpl; lia.
  - destruct (get_recent_tweets_cases fromisoformat c hours current_time
                start_now sessions)
      as [(cached & _ & _ & ->)|[(_ & _ & ->)|(_ & _ & ->)]];
      cbn [fst snd]; [simpl; lia..|].
    apply run_trace_scrolls.
Qed.

(** A page that shows a new tweet after every scroll is left after the
    tenth scroll. *)
Lemma scroll_cap_is_reached :
  scrolls (task_log Fixture.iso (Fixture.client_of ["NASA"])
             Fixture.window_start "NASA" Fixture.endless) = 10%nat /\
  rounds (task_log Fixture.iso (Fixture.client_of ["NASA"])
            Fixture.window_start "NASA" Fixture.endless) = 11%nat /\
  length (task_result Fixture.iso (Fixture.client_of ["NASA"])
            Fixture.window_start "NASA" Fixture.endless) = 11%nat.
Proof. repeat split; vm_compute; reflexivity. Qed.

(** X2.  A task returns tweets only if every browser call it made
    succeeded: the set-up, the session, the profile page, the wait, the
    first extraction and each scroll and extraction of the rounds it went
    through.  An exception in a later round therefore loses the tweets
    accepted before it. *)
Theorem tweets_only_from_unbroken_run
    (fromisoformat : string -> res datetime) (c : client) (start_time : Z)
    (username : string) (s : session) :
  task_result fromisoformat c start_time username s <> [] ->
  setup_driver s = Ok () /\ clean_start c s /\
  (forall j,
     (S j < rounds (task_log fromisoformat c start_time username s))%nat ->
     scroll_by s j = Ok () /\ is_ok (find_after_scroll s j) = true) /\
  task_result fromisoformat c start_time username s
  = accepted_in fromisoformat username start_time s
      (rounds (task_log fromisoformat c start_time username s)).
Proof.
  intros Hne.
  destruct (task_shape fromisoformat c start_time username s) as [Hfail Hok].
  destruct (setup_driver s) as [[]|e] eqn:Hs.
  2: { by destruct (Hfail e eq_refl) as (_ & Hnil & _). }
  destruct (browse_shape fromisoformat c start_time username s)
    as (tr & r & Hu & _ & Hl).
  destruct (Hok tr r eq_refl Hu) as (Hlog & Hres & _).
  rewrite Hres in Hne |- *. rewrite Hlog.
  assert (Hrounds : rounds (SetupDriver :: tr ++ [Quit]) = rounds tr).
  { cbn [rounds]. rewrite rounds_app. simpl. lia. }
  rewrite Hrounds.
  destruct r as [l|e]; [|done]. simpl in *.
  destruct (Hl l eq_refl) as [(_ & _ & ->)|(Hc & _ & _ & Hcalls & _ & _ & ->)];
    [done|].
  done.
Qed.

(** The three-round page returns tweets; on the page that breaks at the
    second scroll the tweets of the first two rounds are lost. *)
Lemma tweets_only_from_unbroken_run_witness :
  (setup_driver Fixture.three_rounds = Ok () /\
   clean_start (Fixture.client_of ["NASA"]) Fixture.three_rounds) /\
  length (accepted_in Fixture.iso "NASA" Fixture.window_start
            Fixture.broken 2) = 2%nat /\
  task_result Fixture.iso (Fixture.client_of ["NASA"]) Fixture.window_start
              "NASA" Fixture.broken = [].
Proof.
  split; [|split; vm_compute; reflexivity].
  destruct (tweets_only_from_unbroken_run Fixture.iso
              (Fixture.client_of ["NASA"]) Fixture.window_start "NASA"
              Fixture.three_rounds) as (H1 & H2 & _).
  - intros H. apply (f_equal length) in H. vm_compute in H. discriminate H.
  - by split.
Defined.

(** X3.  When the body of a task returns normally, either no extraction
    round took place (the session was not accepted or no tweet showed in
    time) and the result is empty, or the initial round was followed by at
    least one scroll, even if it accepted nothing; every scroll round but
    the last accepted at least one new tweet; and the loop ended at the cap
    of ten scrolls or right after a scroll round that accepted nothing.
    The result is what one pass over all rounds accepts. *)
Theorem scrolling_ends_at_idle_round_or_cap
    (fromisoformat : string -> res datetime) (c : client) (start_time : Z)
    (username : string) (s : session) (l : list tweet) :
  (fetch fromisoformat c start_time username s init_frame).2 = Ok l ->
  let n := rounds (task_log fromisoformat c start_time username s) in
  task_result fromisoformat c start_time username s = l /\
  ((n = O /\ l = []) \/
   ((2 <= n <= 11)%nat /\
    S (scrolls (task_log fromisoformat c start_time username s)) = n /\
    (forall j, (1 <= j)%nat -> (S j < n)%nat ->
       (length (accepted_in fromisoformat username start_time s j)
        < length (accepted_in fromisoformat username start_time s (S j)))%nat)
    /\
    (n = 11%nat \/
     accepted_in fromisoformat username start_time s n
     = accepted_in fromisoformat username start_time s (n - 1)) /\
    l = accepted_in fromisoformat username start_time s n)).
Proof.
  intros Hfetch n. subst n.
  destruct (task_shape fromisoformat c start_time username s) as [Hfail Hok].
  destruct (setup_driver s) as [[]|e] eqn:Hs.
  2: { destruct (Hfail e eq_refl) as (_ & _ & Hf).
       rewrite Hf in Hfetch. discriminate. }
  destruct (browse_shape fromisoformat c start_time username s)
    as (tr & r & Hu & Hsc & Hl).
  destruct (Hok tr r eq_refl Hu) as (Hlog & Hres & Hf).
  rewrite Hf in Hfetch. subst r. rewrite Hres, Hlog.
  assert (Hrounds : rounds (SetupDriver :: tr ++ [Quit]) = rounds tr).
  { cbn [rounds]. rewrite rounds_app. simpl. lia. }
  assert (Hscrolls : scrolls (SetupDriver :: tr ++ [Quit]) = scrolls tr).
  { cbn [scrolls]. rewrite rounds_scrolls_app. simpl. lia. }
  rewrite Hrounds, Hscrolls. split; [done|].
  destruct (Hl l eq_refl)
    as [(? & _ & ?)|(_ & Htwo & Hsr & _ & Hgrow & Hend & Hres')];
    [by left|right].
  unfold max_scrolls in *.
  split; [lia|]. split; [done|]. split; [done|]. by split.
Qed.

(** The three-round page, and a page whose first scroll shows nothing new
    although the second would. *)
Lemma scrolling_ends_at_idle_round_or_cap_witness :
  rounds (task_log Fixture.iso (Fixture.client_of ["NASA"])
            Fixture.window_start "NASA" Fixture.three_rounds) = 3%nat /\
  accepted_in Fixture.iso "NASA" Fixture.window_start Fixture.three_rounds 3
  = accepted_in Fixture.iso "NASA" Fixture.window_start
      Fixture.three_rounds 2 /\
  rounds (task_log Fixture.iso (Fixture.client_of ["NASA"])
            Fixture.window_start "NASA" Fixture.late_content) = 2%nat /\
  length (task_result Fixture.iso (Fixture.client_of ["NASA"])
            Fixture.window_start "NASA" Fixture.late_content) = 1%nat.
Proof.
  destruct (scrolling_ends_at_idle_round_or_cap Fixture.iso
              (Fixture.client_of ["NASA"]) Fixture.window_start "NASA"
              Fixture.three_rounds
              (task_result Fixture.iso (Fixture.client_of ["NASA"])
                 Fixture.window_start "NASA" Fixture.three_rounds))
    as (_ & [(H0 & _)|(_ & _ & _ & Hend & _)]).
  - vm_compute. reflexivity.
  - vm_compute in H0. discriminate.
  - split; [vm_compute; reflexivity|]. split.
    + destruct Hend as [H11|Hidle].
      * vm_compute in H11. discriminate.
      * vm_compute. reflexivity.
    + split; vm_compute; reflexivity.
Defined.

(** ** The order and the ids of the returned tweets *)

Section OrderFacts.

Variable fromisoformat : string -> res datetime.
Variable username : string.
Variable start_time : Z.

Local Abbreviation process_one :=
  (process_tweet_element fromisoformat username start_time).

(** A pass appends dictionaries in the order of the containers. *)
Lemma fold_process_order els : forall seen acc seen' acc',
  fold_left process_one els (seen, acc) = (seen', acc') ->
  exists new,
    acc' = acc ++ new /\
    ((.!! "id") <$> new)
      `sublist_of` ((fun i => Some (VStr i)) <$> omap element_id els).
Proof.
  induction els as [|e els IH]; intros seen acc seen' acc' Hf;
    cbn [fold_left] in Hf.
  - simplify_eq. exists []. by rewrite app_nil_r.
  - destruct (process_tweet_element_cases fromisoformat username start_time
                seen acc e)
      as [[Hsame _]|(url & i & Hid & _ & Hstep)].
    + rewrite Hsame in Hf. apply IH in Hf as (new & -> & Hsub).
      exists new. split; [done|]. cbn [omap list_omap].
      destruct (element_id e); [|done].
      rewrite fmap_cons. by apply sublist_cons.
    + assert (Hel : element_id e = Some i)
        by (unfold element_id; by rewrite Hid).
      cbn [omap list_omap]. rewrite Hel, fmap_cons.
      destruct Hstep as [[Hstep _]|(t & Ht & Hstep)]; rewrite Hstep in Hf;
        apply IH in Hf as (new & -> & Hsub).
      * exists new. split; [done|]. by apply sublist_cons.
      * exists (t :: new). split; [by rewrite <- app_assoc|].
        rewrite fmap_cons.
        assert (Hti : t !! "id" = Some (VStr i)).
        { apply (extracted_id fromisoformat username start_time e).
          by exists url. }
        rewrite Hti. by apply sublist_skip.
Qed.

End OrderFacts.

(** X4.  The tweets of a task's result are in the order in which their
    containers were read: their ids form a subsequence of the ids shown by
    the containers of the extraction rounds, first round first. *)
Theorem result_in_reading_order
    (fromisoformat : string -> res datetime) (c : client) (start_time : Z)
    (username : string) (s : session) :
  ((.!! "id") <$> task_result fromisoformat c start_time username s)
    `sublist_of`
  ((fun i => Some (VStr i)) <$>
     omap element_id
       (run_elements s
          (rounds (task_log fromisoformat c start_time username s)))).
Proof.
  destruct (task_result_spec fromisoformat c start_time username s)
    as [_ [-> |(_ & _ & ->)]]; [apply sublist_nil_l|].
  unfold process_tweet_elements.
  destruct (fold_left _ _ _) as [seen' acc'] eqn:Hf.
  apply fold_process_order in Hf as (new & -> & Hsub). done.
Qed.

Lemma append_cons b (s t : string) : String b s +:+ t = String b (s +:+ t).
Proof. reflexivity. Qed.

Lemma starts_with_app p : forall q s,
  Str.starts_with (p +:+ q) s
  = Str.starts_with p s && Str.starts_with q (Str.drop (String.length p) s).
Proof.
  induction p as [|a p IH]; intros q s; [by destruct q|].
  destruct s as [|b s]; simpl; [done|].
  rewrite IH. by destruct (Ascii.eqb a b).
Qed.

Lemma starts_with_take n : forall s q,
  Str.starts_with (Str.take n s +:+ q) s = Str.starts_with q (Str.drop n s).
Proof.
  induction n as [|n IH]; intros s q; [by destruct s|].
  destruct s as [|a s]; [done|].
  cbn [Str.take Str.drop]. rewrite append_cons. cbn [Str.starts_with].
  by rewrite Ascii.eqb_refl, IH.
Qed.

Lemma starts_with_digits_prefix_aux fuel : forall s,
  Str.starts_with (Str.digits_prefix_aux fuel s) s = true.
Proof.
  induction fuel as [|fuel IH]; intros s; [done|].
  cbn [Str.digits_prefix_aux].
  destruct (Str.digit_width s) as [|n]; [done|].
  by rewrite starts_with_take.
Qed.

Lemma starts_with_digits_prefix s :
  Str.starts_with (Str.digits_prefix s) s = true.
Proof. apply starts_with_digits_prefix_aux. Qed.

(** The character at the head of a text is read from its first bytes. *)
Lemma head_char_take s c n :
  Str.head_char s = Some (c, n) ->
  (1 <= n)%nat /\ String.length (Str.take n s) = n /\
  forall q, Str.head_char (Str.take n s +:+ q) = Some (c, n).
Proof.
  destruct s as [|b0 s]; [done|].
  unfold Str.head_char at 1.
  destruct (N_of_ascii b0 <? 128)%N eqn:H1.
  { intros [= <- <-]. split; [lia|]. split; [done|]. intros q.
    cbn [Str.take]. rewrite append_cons. unfold Str.head_char.
    by rewrite H1. }
  destruct (N_of_ascii b0 <? 192)%N eqn:H2; [done|].
  destruct (N_of_ascii b0 <? 224)%N eqn:H3.
  { destruct s as [|b1 s]; [done|].
    intros [= <- <-]. split; [lia|]. split; [done|]. intros q.
    cbn [Str.take]. rewrite !append_cons. unfold Str.head_char.
    by rewrite H1, H2, H3. }
  destruct (N_of_ascii b0 <? 240)%N eqn:H4.
  { destruct s as [|b1 [|b2 s]]; [done..|].
    intros [= <- <-]. split; [lia|]. split; [done|]. intros q.
    cbn [Str.take]. rewrite !append_cons. unfold Str.head_char.
    by rewrite H1, H2, H3, H4. }
  destruct s as [|b1 [|b2 [|b3 s]]]; [done..|].
  intros [= <- <-]. split; [lia|]. split; [done|]. intros q.
  cbn [Str.take]. rewrite !append_cons. unfold Str.head_char.
  by rewrite H1, H2, H3, H4.
Qed.

Lemma take_length_app p q : Str.take (String.length p) (p +:+ q) = p.
Proof.
  induction p as [|a p IH]; [by destruct q|].
  rewrite append_cons. cbn [String.length Str.take]. by rewrite IH.
Qed.

Lemma drop_length_app p q : Str.drop (String.length p) (p +:+ q) = q.
Proof.
  induction p as [|a p IH]; [done|].
  rewrite append_cons. cbn [String.length Str.drop]. by rewrite IH.
Qed.

Lemma string_length_app (p q : string) :
  String.length (p +:+ q) = (String.length p + String.length q)%nat.
Proof.
  induction p as [|a p IH]; [done|].
  rewrite append_cons. cbn [String.length]. by rewrite IH.
Qed.

Lemma digit_width_take s n :
  Str.digit_width s = S n ->
  String.length (Str.take (S n) s) = S n /\
  forall q, Str.digit_width (Str.take (S n) s +:+ q) = S n.
Proof.
  unfold Str.digit_width.
  destruct (Str.head_char s) as [[c w]|] eqn:Hh; [|done].
  destruct (Str.is_decimal c) eqn:Hc; [|done]. intros ->.
  destruct (head_char_take s c (S n) Hh) as (_ & Hlen & Hq).
  split; [done|]. intros q. by rewrite Hq, Hc.
Qed.

Lemma digits_prefix_aux_fixed fuel : forall s fuel',
  (String.length (Str.digits_prefix_aux fuel s) <= fuel')%nat ->
  Str.digits_prefix_aux fuel' (Str.digits_prefix_aux fuel s)
  = Str.digits_prefix_aux fuel s.
Proof.
  induction fuel as [|fuel IH]; intros s fuel' Hlen.
  { by destruct fuel'. }
  cbn [Str.digits_prefix_aux] in *.
  destruct (Str.digit_width s) as [|n] eqn:Hw.
  { by destruct fuel'. }
  destruct (digit_width_take s n Hw) as [Htake Hq].
  rewrite string_length_app, Htake in Hlen.
  destruct fuel' as [|fuel']; [lia|].
  cbn [Str.digits_prefix_aux]. rewrite Hq.
  pose proof (take_length_app (Str.take (S n) s)
                (Str.digits_prefix_aux fuel (Str.drop (S n) s))) as Ht.
  pose proof (drop_length_app (Str.take (S n) s)
                (Str.digits_prefix_aux fuel (Str.drop (S n) s))) as Hd.
  rewrite Htake in Ht, Hd. rewrite Ht, Hd. f_equal. apply IH. lia.
Qed.

Lemma all_digits_prefix s : all_digits (Str.digits_prefix s) = true.
Proof.
  unfold all_digits, Str.digits_prefix.
  rewrite digits_prefix_aux_fixed by done. apply String.eqb_refl.
Qed.

(** The digits of other scripts are digits: ARABIC-INDIC DIGIT ONE, the
    bytes 217 and 161, after an ASCII digit. *)
Lemma digits_of_other_scripts :
  Str.search_status
    ("/status/4" +:+ String (ascii_of_nat 217) (String (ascii_of_nat 161) "/"))
  = Some ("4" +:+ String (ascii_of_nat 217) (String (ascii_of_nat 161) "")).
Proof. vm_compute. reflexivity. Qed.

(** What [re.search(r"/status/(\d+)", s)] captures. *)
Lemma search_status_spec s : forall d,
  Str.search_status s = Some d ->
  d <> "" /\ all_digits d = true /\
  Str.contains ("/status/" +:+ d) s = true.
Proof.
  induction s as [|a s IH]; intros d; [done|].
  cbn [Str.search_status].
  destruct (Str.starts_with "/status/" (String a s)) eqn:Hstart.
  - destruct (Str.digits_prefix (Str.drop 8 (String a s))) as [|b d'] eqn:Hd.
    + intros Hrest. destruct (IH d Hrest) as (? & ? & Hc).
      split; [done|]. split; [done|].
      cbn [Str.contains]. rewrite Hc. by rewrite orb_true_r.
    + intros [= <-]. split; [done|]. split.
      { rewrite <- Hd. apply all_digits_prefix. }
      cbn [Str.contains].
      rewrite (starts_with_app "/status/" (String b d') (String a s)).
      rewrite Hstart. change (String.length "/status/") with 8%nat.
      rewrite <- Hd, starts_with_digits_prefix. done.
  - intros Hrest. destruct (IH d Hrest) as (? & ? & Hc).
    split; [done|]. split; [done|].
    cbn [Str.contains]. rewrite Hc. by rewrite orb_true_r.
Qed.

(** X5.  Every returned tweet has as id a non-empty string of digits, and
    its url is the permalink the id was read from: the url contains
    "/status/" followed by the id. *)
Theorem ids_are_digits_of_the_url
    (fromisoformat : string -> res datetime) (c : client) (start_time : Z)
    (username : string) (s : session) :
  Forall (fun t : tweet =>
    exists i url,
      t !! "id" = Some (VStr i) /\ t !! "url" = Some (VStr url) /\
      Str.search_status url = Some i /\
      i <> "" /\ all_digits i = true /\
      Str.contains ("/status/" +:+ i) url = true)
    (task_result fromisoformat c start_time username s).
Proof.
  destruct (task_result_items fromisoformat c start_time username s)
    as [_ Hitems].
  eapply Forall_impl; [exact Hitems|]. simpl.
  intros t (e & i & _ & url & Hid & Hdata).
  apply tweet_data_of_spec in Hdata.
  destruct Hdata as (text & ts & _ & _ & _ & Hti & _ & _ & _ & Hurl & _).
  exists i, url. split; [done|]. split; [done|].
  assert (Hsearch : Str.search_status url = Some i).
  { unfold tweet_identity in Hid.
    destruct (tweet_links e) as [[|[[u|]|] ?]|]; simpl in Hid;
      try discriminate.
    destruct (Str.search_status u) eqn:Hs; by simplify_eq. }
  split; [done|]. by apply search_status_spec.
Qed.

(** ** The client over a series of calls *)



(** A cookie whose domain starts with two dots has lost one of them after
    the first run and both after the second. *)
Lemma cookies_are_rewritten_in_place :
  _cookies
    (serve Fixture.iso
       {| twitter_users := ["NASA"];
          _cookies := Some [{["domain" := "..twitter.com"]}];
          _tweets_cache := ∅;
          _tweets_cache_time := ∅ |}
       [{| req_hours := 24; req_current_time := Fixture.now;
           req_start_now := Fixture.now;
           req_sessions := fun _ => Fixture.three_rounds |}])
  = Some [{["domain" := ".twitter.com"]}] /\
  _cookies
    (serve Fixture.iso
       {| twitter_users := ["NASA"];
          _cookies := Some [{["domain" := "..twitter.com"]}];
          _tweets_cache := ∅;
          _tweets_cache_time := ∅ |}
       [{| req_hours := 24; req_current_time := Fixture.now;
           req_start_now := Fixture.now;
           req_sessions := fun _ => Fixture.three_rounds |};
        {| req_hours := 12; req_current_time := Fixture.now;
           req_start_now := Fixture.now;
           req_sessions := fun _ => Fixture.three_rounds |}])
  = Some [{["domain" := "twitter.com"]}].
Proof. split; vm_compute; reflexivity. Qed.

(** ** The session set-up *)

Lemma cookies_added_app tr1 tr2 :
  cookies_added (tr1 ++ tr2) = cookies_added tr1 ++ cookies_added tr2.
Proof.
  induction tr1 as [|ev tr1 IH]; [done|].
  destruct ev; simpl; by rewrite ?IH.
Qed.

Lemma add_cookies_events s cookies : forall i,
  exists tr,
    uniform (add_cookies s i cookies) tr (Ok ()) /\
    cookies_added tr = seq i (length cookies).
Proof.
  induction cookies as [|ck cookies IH]; intros i; simpl.
  - exists []. split; [apply uniform_ret|done].
  - destruct (IH (S i)) as (tr & Htr & Hs).
    exists ([AddCookie i] ++ tr). split.
    + eapply uniform_bind_ok; [|exact Htr].
      apply uniform_attempt, uniform_call.
    + simpl. by rewrite Hs.
Qed.

(** X8.  [_apply_cookies] never raises and never rebinds the driver.  It
    reports a logged-in session exactly when cookies were loaded, the home
    page and the reload went through and the primary column appeared: whether
    the browser accepted the single cookies plays no part.  Without cookies
    the browser is not touched; with cookies and a home page that loads,
    every cookie is handed to the browser once, in the order of the file. *)
Theorem session_applied_exactly_when (c : client) (s : session) (f : frame) :
  exists tr,
    _apply_cookies c s f = (extend f tr, Ok (session_applied c s)) /\
    (session_applied c s = true <->
     (exists ck cookies, _cookies c = Some (ck :: cookies)) /\
     is_ok (home_get s) = true /\ is_ok (refresh s) = true /\
     is_ok (wait_primary_column s) = true) /\
    ((_cookies c = None \/ _cookies c = Some []) -> tr = []) /\
    (forall cookies, _cookies c = Some cookies -> cookies <> [] ->
       is_ok (home_get s) = true ->
       cookies_added tr = seq 0 (length cookies)).
Proof.
  unfold session_applied, _apply_cookies.
  destruct (_cookies c) as [[|ck cookies]|] eqn:Hck.
  1, 3: exists []; rewrite extend_nil.
  1, 2: split; [done|split; [|split]].
  1, 4: split; [done|intros [(? & ? & ?) _]; by simplify_eq].
  1, 3: done.
  1, 2: intros ? ? ?; by simplify_eq.
  destruct (add_cookies_events s (ck :: cookies) 0%nat) as (trc & Hc & Hs).
  unfold mbind, task_bind, attempt, call.
  destruct (home_get s) as [[]|e] eqn:Hg; cbn -[add_cookies].
  2: { exists [Get "https://twitter.com"]. split; [done|].
       split; [split; [done|by intros (_ & [=] & _)]|].
       split; [by intros [[=]|[=]]|]. by intros ? _ _ [=]. }
  rewrite !Hc. cbn -[add_cookies].
  destruct (refresh s) as [[]|e] eqn:Hr; cbn -[add_cookies].
  2: { exists (Get "https://twitter.com" :: trc ++ [Refresh]).
       split; [unfold extend; simpl; by rewrite <- !app_assoc|].
       split; [split; [done|by intros (_ & _ & [=] & _)]|].
       split; [by intros [[=]|[=]]|].
       intros ? [= <-] _ _. cbn [cookies_added].
       by rewrite cookies_added_app, Hs, app_nil_r. }
  exists (Get "https://twitter.com" :: trc
          ++ [Refresh; WaitFor "div[data-testid='primaryColumn']"]).
  assert (Hadded : cookies_added
            (Get "https://twitter.com" :: trc
             ++ [Refresh; WaitFor "div[data-testid='primaryColumn']"])
          = seq 0 (length (ck :: cookies))).
  { cbn [cookies_added]. by rewrite cookies_added_app, Hs, app_nil_r. }
  assert (Hno : (Some (ck :: cookies) = None \/
                 Some (ck :: cookies) = Some []) -> False)
    by (by intros [?|?]).
  destruct (wait_primary_column s) as [[]|e] eqn:Hw.
  - split; [unfold extend, mret, task_ret; simpl; by rewrite <- !app_assoc|].
    split; [|split; [by intros ?%Hno|by intros ? [= <-] _ _]].
    split; [|done]. intros _. split; [by eexists _, _|done].
  - assert (Hfalse : uniform (@mret task _ _ false) [] (Ok false))
      by apply uniform_ret.
    split.
    { destruct e; unfold extend, mret, task_ret, raise; simpl;
        by rewrite <- !app_assoc. }
    split; [|split; [by intros ?%Hno|by intros ? [= <-] _ _]].
    split; [by destruct e|]. by intros (_ & _ & _ & ?).
Qed.

Lemma session_applied_exactly_when_witness :
  exists tr,
    _apply_cookies (Fixture.client_of ["alice"]) Fixture.three_rounds init_frame
    = (extend init_frame tr, Ok true) /\ cookies_added tr = [0%nat].
Proof.
  destruct (session_applied_exactly_when (Fixture.client_of ["alice"])
              Fixture.three_rounds init_frame) as (tr & Hrun & _ & _ & Hadd).
  exists tr. split; [exact Hrun|].
  by apply (Hadd [{["name" := "auth_token"]}]).
Defined.

(** ** A client without cookies *)

Lemma merge_results_same (fromisoformat : string -> res datetime)
    (c : client) (start_time : Z) (sessions : nat -> session) users :
  forall i m,
    (forall j u, users !! j = Some u ->
       m !! Str.lower u
       = Some (task_result fromisoformat c start_time u
                (sessions (i + j)%nat))) ->
    merge_results fromisoformat c start_time sessions i users m = m.
Proof.
  induction users as [|u users IH]; intros i m Hm; [done|].
  cbn [merge_results].
  assert (Hu := Hm 0%nat u eq_refl). rewrite Nat.add_0_r in Hu.
  rewrite (insert_id _ _ _ Hu). apply IH.
  intros j u' Hj. replace (S i + j)%nat with (i + S j)%nat by lia.
  by apply (Hm (S j)).
Qed.






(** ** The image addresses of a tweet *)

Lemma contains_nonempty needle url :
  truthy (Some url) && Str.contains (String "h" needle) url
  = Str.contains (String "h" needle) url.
Proof. by destruct url. Qed.

Lemma scan_imgs_spec imgs : forall acc,
  exists l raised,
    scan_imgs imgs acc = (acc ++ l, raised) /\
    l `prefix_of`
      (Str.sub_name
         <$> filter (fun url =>
                       Str.contains "https://pbs.twimg.com/media" url = true)
               (omap (fun img => match img with
                                 | Ok (Some url) => Some url
                                 | _ => None
                                 end) imgs)) /\
    (raised = false ->
     l = Str.sub_name
         <$> filter (fun url =>
                       Str.contains "https://pbs.twimg.com/media" url = true)
               (omap (fun img => match img with
                                 | Ok (Some url) => Some url
                                 | _ => None
                                 end) imgs)) /\
    (forallb is_ok imgs = true -> raised = false).
Proof.
  induction imgs as [|img imgs IH]; intros acc.
  - exists [], false. by rewrite app_nil_r.
  - destruct img as [[url|]|e]; cbn [scan_imgs omap list_omap].
    + rewrite contains_nonempty. rewrite filter_cons.
      destruct (Str.contains "https://pbs.twimg.com/media" url) eqn:Hc.
      * destruct (IH (acc ++ [Str.sub_name url])) as (l & raised & -> & Hp & He & Ha).
        exists (Str.sub_name url :: l), raised.
        rewrite decide_True by done. rewrite fmap_cons.
        split; [by rewrite <- app_assoc|]. split; [by apply prefix_cons|].
        split; [|done]. intros Hr. by rewrite (He Hr).
      * destruct (IH acc) as (l & raised & -> & Hp & He & Ha).
        exists l, raised. by rewrite decide_False by done.
    + apply IH.
    + exists [], true. rewrite app_nil_r. split; [done|].
      split; [apply prefix_nil|]. by split.
Qed.

Lemma scan_containers_spec cs : forall acc,
  exists l raised,
    scan_containers cs acc = (acc ++ l, raised) /\
    l `prefix_of`
      (Str.sub_name
         <$> filter (fun url =>
                       Str.contains "https://pbs.twimg.com/media" url = true)
               (c ← cs;
                omap (fun img => match img with
                                 | Ok (Some url) => Some url
                                 | _ => None
                                 end)
                     (from_ok (img_elements c)))) /\
    (forallb (fun c => match img_elements c with
                       | Raise _ => false
                       | Ok imgs => forallb is_ok imgs
                       end) cs = true ->
     l = Str.sub_name
         <$> filter (fun url =>
                       Str.contains "https://pbs.twimg.com/media" url = true)
               (c ← cs;
                omap (fun img => match img with
                                 | Ok (Some url) => Some url
                                 | _ => None
                                 end)
                     (from_ok (img_elements c)))).
Proof.
  induction cs as [|c cs IH]; intros acc.
  - exists [], false. by rewrite app_nil_r.
  - cbn [scan_containers forallb]. rewrite bind_cons, filter_app, fmap_app.
    destruct (img_elements c) as [imgs|e]; cbn [from_ok].
    + destruct (scan_imgs_spec imgs acc) as (l & raised & -> & Hp & He & Ha).
      destruct raised.
      * exists l, true. split; [done|]. split.
        -- by apply prefix_app_r.
        -- intros [Hi _]%andb_prop. by specialize (Ha Hi).
      * destruct (IH (acc ++ l)) as (l' & raised' & -> & Hp' & He').
        exists (l ++ l'), raised'.
        split; [by rewrite <- app_assoc|]. rewrite <- (He eq_refl). split.
        -- by apply prefix_app.
        -- intros [_ Hcs]%andb_prop. by rewrite (He' Hcs).
    + exists [], true. rewrite app_nil_r. split; [done|].
      split; [apply prefix_nil|done].
Qed.

Lemma image_urls_of_spec e :
  image_urls_of e `prefix_of` media_urls e /\
  (photos_readable e = true -> image_urls_of e = media_urls e).
Proof.
  unfold image_urls_of, media_urls, photo_sources, photos_readable.
  destruct (tweet_photo e) as [cs|err]; cbn [from_ok].
  - destruct (scan_containers_spec cs []) as (l & raised & -> & Hp & He).
    done.
  - split; [apply prefix_nil|done].
Qed.

Lemma sub_name_aux_id s :
  Str.contains "&name=" s = false -> Str.sub_name_aux 0 false s = s.
Proof.
  induction s as [|a s IH]; [done|].
  cbn [Str.contains Str.sub_name_aux]. intros [Hs Hc]%orb_false_elim.
  rewrite Hs. cbn [andb]. by rewrite IH.
Qed.

(** X10.  Every returned tweet was extracted from a container of the
    page, and its image addresses are [src] attributes of the [img]
    elements in the photo containers of that very container: those that
    contain the media prefix, in page order, up to the first read that
    raised (all of them if none did), each with every [&name=<word>]
    replaced by [&name=orig].  An address without [&name=] is returned as
    it was read. *)
Theorem image_urls_are_media_sources
    (fromisoformat : string -> res datetime) (c : client) (start_time : Z)
    (username : string) (s : session) :
  Forall (fun t => exists e i urls,
            e ∈ run_elements s
                  (rounds (task_log fromisoformat c start_time username s)) /\
            extracted fromisoformat username start_time e i t /\
            t !! "id" = Some (VStr i) /\
            t !! "image_urls" = Some (VList urls) /\
            urls = image_urls_of e /\
            urls `prefix_of` media_urls e /\
            (photos_readable e = true -> urls = media_urls e))
         (task_result fromisoformat c start_time username s) /\
  (forall url, Str.contains "&name=" url = false -> Str.sub_name url = url).
Proof.
  split; [|intros url; apply sub_name_aux_id].
  destruct (task_result_items fromisoformat c start_time username s)
    as [_ Hitems].
  eapply Forall_impl; [exact Hitems|]. cbn beta.
  intros t (e & i & He & Hex).
  assert (Hdata := Hex). destruct Hdata as (url & _ & Hdata).
  apply tweet_data_of_spec in Hdata
    as (text & ts & _ & _ & _ & Hid & _ & _ & Himg & _).
  exists e, i, (image_urls_of e). split; [done|]. split; [done|].
  split; [done|]. split; [done|]. split; [done|].
  apply image_urls_of_spec.
Qed.

(** ** The configured handles *)

Lemma free_of_app a s t :
  Text.free_of a (s +:+ t) = Text.free_of a s && Text.free_of a t.
Proof.
  induction s as [|b s IH]; [done|].
  rewrite append_cons. cbn [Text.free_of]. by rewrite IH, andb_assoc.
Qed.

Lemma split_on_free sep s :
  Forall (fun p => Text.free_of sep p = true) (Text.split_on sep s).
Proof.
  induction s as [|a s IH]; cbn [Text.split_on].
  - by constructor.
  - destruct (Ascii.eqb a sep) eqn:Ha.
    + by constructor.
    + destruct (Text.split_on sep s) as [|p ps]; constructor;
        cbn [Text.free_of]; rewrite ?Ha; try done.
      * by inversion IH; subst.
      * by inversion IH.
Qed.

Lemma split_on_free_app sep u rest :
  Text.free_of sep u = true ->
  Text.split_on sep (u +:+ String sep rest) = u :: Text.split_on sep rest.
Proof.
  induction u as [|a u IH].
  - intros _. change ("" +:+ String sep rest) with (String sep rest).
    cbn [Text.split_on]. by rewrite Ascii.eqb_refl.
  - rewrite append_cons. cbn [Text.split_on Text.free_of].
    intros [Ha Hu]%andb_prop. apply negb_true_iff in Ha.
    by rewrite Ha, IH.
Qed.

Lemma split_on_free_one sep u :
  Text.free_of sep u = true -> Text.split_on sep u = [u].
Proof.
  induction u as [|a u IH]; cbn [Text.split_on Text.free_of]; [done|].
  intros [Ha Hu]%andb_prop. apply negb_true_iff in Ha.
  by rewrite Ha, IH.
Qed.

Lemma lstrip_free a s :
  Text.free_of a s = true -> Text.free_of a (Text.lstrip s) = true.
Proof.
  induction s as [|b s IH]; [done|]. cbn [Text.lstrip].
  destruct (Text.is_space b); [|done].
  cbn [Text.free_of]. intros [_ Hs]%andb_prop. by apply IH.
Qed.

Lemma rstrip_free a s :
  Text.free_of a s = true -> Text.free_of a (Text.rstrip s) = true.
Proof.
  induction s as [|b s IH]; [done|]. cbn [Text.rstrip Text.free_of].
  intros [Hb Hs]%andb_prop. specialize (IH Hs).
  destruct (Text.rstrip s) as [|d r].
  - destruct (Text.is_space b); [done|]. cbn [Text.free_of].
    by rewrite Hb.
  - cbn [Text.free_of] in *. by rewrite Hb, IH.
Qed.

Lemma rstrip_cons b s :
  Text.rstrip (String b s)
  = match Text.rstrip s with
    | EmptyString => if Text.is_space b then EmptyString
                     else String b EmptyString
    | r => String b r
    end.
Proof. reflexivity. Qed.

Lemma rstrip_idem s : Text.rstrip (Text.rstrip s) = Text.rstrip s.
Proof.
  induction s as [|b s IH]; [done|]. rewrite (rstrip_cons b s).
  destruct (Text.rstrip s) as [|d r] eqn:Hr.
  - destruct (Text.is_space b) eqn:Hb; [done|].
    rewrite rstrip_cons. cbn [Text.rstrip]. by rewrite Hb.
  - rewrite rstrip_cons. by rewrite IH.
Qed.

Lemma lstrip_head s :
  match Text.lstrip s with
  | String a _ => Text.is_space a = false
  | EmptyString => True
  end.
Proof.
  induction s as [|b s IH]; [done|]. cbn [Text.lstrip].
  by destruct (Text.is_space b) eqn:Hb.
Qed.

Lemma rstrip_head s :
  match s with
  | String a _ => Text.is_space a = false
  | EmptyString => True
  end ->
  match Text.rstrip s with
  | String a _ => Text.is_space a = false
  | EmptyString => True
  end.
Proof.
  destruct s as [|b s]; [done|]. cbn [Text.rstrip]. intros Hb.
  destruct (Text.rstrip s); [by rewrite Hb|done].
Qed.

Lemma lstrip_id s :
  match s with
  | String a _ => Text.is_space a = false
  | EmptyString => True
  end ->
  Text.lstrip s = s.
Proof. destruct s as [|b s]; [done|]. cbn [Text.lstrip]. by intros ->. Qed.

Lemma strip_idem s : Text.strip (Text.strip s) = Text.strip s.
Proof.
  unfold Text.strip.
  rewrite (lstrip_id (Text.rstrip (Text.lstrip s))).
  - apply rstrip_idem.
  - apply rstrip_head, lstrip_head.
Qed.

Lemma parse_users_clean s : Forall Config.clean (Config.parse_users s).
Proof.
  unfold Config.parse_users.
  pose proof (split_on_free "," s) as Hfree.
  induction Hfree as [|p ps Hp _ IH]; [constructor|].
  rewrite fmap_cons, filter_cons. case_decide as Hne; [|done].
  constructor; [|done]. split; [|split].
  - by destruct (Text.strip p).
  - apply strip_idem.
  - by apply rstrip_free, lstrip_free.
Qed.

Lemma strip_after_space u : Text.strip (" " +:+ u) = Text.strip u.
Proof. done. Qed.

Lemma join_cons2 sep u u' us :
  Text.join sep (u :: u' :: us) = u +:+ sep +:+ Text.join sep (u' :: us).
Proof. done. Qed.

Lemma string_app_assoc (s t u : string) : (s +:+ t) +:+ u = s +:+ (t +:+ u).
Proof.
  induction s as [|a s IH]; [done|]. by rewrite !append_cons, IH.
Qed.

Lemma parse_users_join_aux us : forall (b : bool),
  us <> [] -> Forall Config.clean us ->
  Config.parse_users ((if b then " " else "") +:+ Text.join ", " us) = us.
Proof.
  induction us as [|u us IH]; intros b Hne Hclean; [done|].
  inversion Hclean as [|? ? (Hu & Hs & Hf) Hrest]; subst.
  assert (Hpre : Text.free_of "," ((if b then " " else "") +:+ u) = true).
  { rewrite free_of_app, Hf. by destruct b. }
  assert (Hstrip : Text.strip ((if b then " " else "") +:+ u) = u).
  { destruct b; [by rewrite strip_after_space|done]. }
  unfold Config.parse_users in *.
  destruct us as [|u' us].
  - cbn [Text.join]. rewrite (split_on_free_one _ _ Hpre).
    cbn [fmap list_fmap]. rewrite Hstrip, filter_cons, filter_nil.
    rewrite decide_True; [done|]. by destruct u.
  - rewrite join_cons2. change (", " +:+ ?x) with (String "," (" " +:+ x)).
    rewrite <- string_app_assoc, (split_on_free_app _ _ _ Hpre).
    rewrite fmap_cons, Hstrip, filter_cons.
    rewrite decide_True by (by destruct u).
    f_equal. by apply (IH true).
Qed.

Lemma parse_users_join us :
  Forall Config.clean us -> Config.parse_users (Text.join ", " us) = us.
Proof.
  destruct us as [|u us]; [done|]. intros Hclean.
  by apply (parse_users_join_aux (u :: us) false).
Qed.

(** X11.  Every handle read from [TWITTER_USERS] is non-empty, has no
    white space at either end and holds no comma.  A list of such handles,
    joined with a comma and a space as the bot prints it, is read back as
    the same list; so reading back what the bot prints for a configuration
    gives the handles of that configuration. *)
Theorem handles_are_clean_and_read_back (twitter_users_str : string) :
  Forall Config.clean (Config.parse_users twitter_users_str) /\
  (forall users, Forall Config.clean users ->
     Config.parse_users (Text.join ", " users) = users) /\
  Config.parse_users (Text.join ", " (Config.parse_users twitter_users_str))
  = Config.parse_users twitter_users_str.
Proof.
  split; [apply parse_users_clean|]. split; [apply parse_users_join|].
  apply parse_users_join, parse_users_clean.
Qed.

(** ** The validation of the configuration *)

Lemma lstrip_nil s :
  Text.lstrip s = "" <->
  forallb Text.is_space (list_ascii_of_string s) = true.
Proof.
  induction s as [|b s IH]; [done|].
  cbn [Text.lstrip list_ascii_of_string forallb].
  destruct (Text.is_space b); [done|]. by split.
Qed.

Lemma rstrip_nil s :
  Text.rstrip s = "" <->
  forallb Text.is_space (list_ascii_of_string s) = true.
Proof.
  induction s as [|b s IH]; [done|].
  rewrite rstrip_cons. cbn [list_ascii_of_string forallb].
  destruct (Text.rstrip s) as [|d r].
  - destruct (Text.is_space b); cbn [andb]; [|by split].
    split; [intros _; by apply IH|done].
  - split; [done|]. intros [_ H]%andb_prop. by apply IH in H.
Qed.

Lemma strip_nil s :
  Text.strip s = "" <->
  forallb Text.is_space (list_ascii_of_string s) = true.
Proof.
  unfold Text.strip. rewrite rstrip_nil, <- (lstrip_nil s).
  pose proof (lstrip_head s) as Hh.
  destruct (Text.lstrip s) as [|a r]; [by split|].
  cbn [list_ascii_of_string forallb]. rewrite Hh. by split.
Qed.

Lemma split_on_all (P : ascii -> bool) sep s :
  Forall (fun p => forallb P (list_ascii_of_string p) = true)
         (Text.split_on sep s) <->
  forallb (fun a => P a || Ascii.eqb a sep) (list_ascii_of_string s) = true.
Proof.
  induction s as [|a s IH]; cbn [Text.split_on list_ascii_of_string forallb].
  - split; [done|]. intros _. by constructor.
  - destruct (Ascii.eqb a sep) eqn:Ha.
    + rewrite orb_true_r. cbn [andb]. rewrite <- IH, Forall_cons. tauto.
    + rewrite orb_false_r, andb_true_iff, <- IH.
      destruct (Text.split_on sep s) as [|p ps];
        rewrite ?Forall_cons, ?Forall_nil;
        cbn [list_ascii_of_string forallb]; rewrite ?andb_true_iff;
        rewrite ?andb_true_r; tauto.
Qed.

Lemma parse_users_nil s :
  Config.parse_users s = [] <->
  forallb (fun a => Text.is_space a || Ascii.eqb a ",")
          (list_ascii_of_string s) = true.
Proof.
  rewrite <- split_on_all. unfold Config.parse_users.
  induction (Text.split_on "," s) as [|p ps IH].
  - split; [by constructor|done].
  - rewrite fmap_cons, filter_cons, Forall_cons, <- IH, <- strip_nil.
    destruct (Text.strip p); cbn.
    + tauto.
    + split; [done|]. by intros [? _].
Qed.

Lemma existsb_negb {A} (P : A -> bool) l :
  existsb (fun a => negb (P a)) l = negb (forallb P l).
Proof.
  induction l as [|a l IH]; [done|]. cbn [existsb forallb].
  by rewrite IH, negb_andb.
Qed.

(** X12.  [Config()] returns exactly when [DISCORD_TOKEN] is not empty,
    [TWITTER_USERS] holds a character that is neither white space nor a
    comma, and [AI_PROVIDER] (lower-cased, [openai] if unset) is [openai] or
    [deepseek] with a non-empty key of its own.  A configuration it returns
    has at least one handle.  The missing token is reported first, and the
    missing handles before anything about the provider. *)
Theorem config_accepted_exactly_when (environ : gmap string string) :
  (Config.init environ = inr (Config.load environ) <->
   truthy (environ !! "DISCORD_TOKEN") = true /\
   existsb (fun a => negb (Text.is_space a || Ascii.eqb a ","))
           (list_ascii_of_string (default "" (environ !! "TWITTER_USERS")))
   = true /\
   ((Str.lower (default "openai" (environ !! "AI_PROVIDER")) = "openai" /\
     truthy (environ !! "OPENAI_API_KEY") = true) \/
    (Str.lower (default "openai" (environ !! "AI_PROVIDER")) = "deepseek" /\
     truthy (environ !! "DEEPSEEK_API_KEY") = true))) /\
  (forall config, Config.init environ = inr config ->
     config = Config.load environ /\ Config.twitter_users config <> []) /\
  (Config.init environ = inl Config.DISCORD_TOKEN_required <->
   truthy (environ !! "DISCORD_TOKEN") = false) /\
  (Config.init environ = inl Config.TWITTER_USERS_required <->
   truthy (environ !! "DISCORD_TOKEN") = true /\
   forallb (fun a => Text.is_space a || Ascii.eqb a ",")
           (list_ascii_of_string (default "" (environ !! "TWITTER_USERS")))
   = true).
Proof.
  rewrite existsb_negb, negb_true_iff.
  pose proof (parse_users_nil (default "" (environ !! "TWITTER_USERS")))
    as Hnil.
  unfold Config.init, Config._validate_config.
  cbn [Config.load Config.discord_token Config.twitter_users
       Config.ai_provider Config.openai_api_key Config.deepseek_api_key].
  set (provider := Str.lower (default "openai" (environ !! "AI_PROVIDER"))).
  destruct (truthy (environ !! "DISCORD_TOKEN")); cbn [negb].
  2: { repeat split; try done; try (by intros [? _]). }
  destruct (Config.parse_users (default "" (environ !! "TWITTER_USERS")))
    as [|u us] eqn:Hu.
  { rewrite (proj1 Hnil eq_refl).
    repeat split; try done; try (by intros [? _]);
      try (by intros (_ & ? & _)). }
  assert (Hall : forallb (fun a => Text.is_space a || Ascii.eqb a ",")
            (list_ascii_of_string (default "" (environ !! "TWITTER_USERS")))
          = false).
  { destruct (forallb _ _); [|done]. by specialize (proj2 Hnil eq_refl). }
  rewrite Hall.
  assert (Hload : Config.twitter_users (Config.load environ) <> []).
  { cbn [Config.load Config.twitter_users]. by rewrite Hu. }
  destruct (String.eqb_spec provider "openai") as [Ho|Ho];
    destruct (String.eqb_spec provider "deepseek") as [Hd|Hd];
    try (rewrite Ho in Hd; discriminate Hd); cbn [orb negb andb].
  - destruct (truthy (environ !! "OPENAI_API_KEY")); cbn [negb];
      (split; [|split; [|split]]).
    + split; [|done]. intros _. split; [done|]. split; [done|by left].
    + by intros config [= <-].
    + by split.
    + split; [done|by intros [_ ?]].
    + split; [done|]. intros (_ & _ & [[_ ?]|[? _]]); congruence.
    + by intros config [=].
    + by split.
    + split; [done|by intros [_ ?]].
  - destruct (truthy (environ !! "DEEPSEEK_API_KEY")); cbn [negb];
      (split; [|split; [|split]]).
    + split; [|done]. intros _. split; [done|]. split; [done|by right].
    + by intros config [= <-].
    + by split.
    + split; [done|by intros [_ ?]].
    + split; [done|]. intros (_ & _ & [[? _]|[_ ?]]); congruence.
    + by intros config [=].
    + by split.
    + split; [done|by intros [_ ?]].
  - split; [|split; [|split]].
    + split; [done|]. intros (_ & _ & [[? _]|[? _]]); congruence.
    + by intros config [=].
    + by split.
    + split; [done|by intros [_ ?]].
Qed.

(** ** The test script *)

Lemma init_users environ config :
  Config.init environ = inr config ->
  config = Config.load environ /\ Config.twitter_users config <> [].
Proof.
  unfold Config.init, Config._validate_config.
  destruct (negb _); [done|].
  destruct (Config.twitter_users (Config.load environ)) eqn:Hu; [done|].
  repeat (destruct (_ : bool); [done|]).
  intros [= <-]. by rewrite Hu.
Qed.

Lemma filtered_tweets_fold (m : gmap string (list tweet))
    (users : list string) :
  forall (acc : gmap string (list tweet)) (k : string),
    (forall u, u ∈ users -> is_Some (m !! Str.lower u)) ->
    fold_left
      (fun (filtered : gmap string (list tweet)) user =>
         let user_lower := Str.lower user in
         match m !! user_lower with
         | Some tweets => <[user_lower := tweets]> filtered
         | None => filtered
         end) users acc !! k
    = if bool_decide (k ∈ Str.lower <$> users) then m !! k else acc !! k.
Proof.
  induction users as [|u users IH]; intros acc k Hm; [done|].
  cbn [fold_left]. cbn zeta.
  destruct (Hm u) as [l Hl]; [by left|]. rewrite Hl.
  rewrite IH by (intros u' Hu'; apply Hm; by right).
  rewrite fmap_cons.
  destruct (decide (k ∈ Str.lower <$> users)) as [Hin|Hin].
  - rewrite !bool_decide_eq_true_2; [done|by right|done].
  - rewrite (bool_decide_eq_false_2 _ Hin).
    destruct (decide (Str.lower u = k)) as [<- |Hne].
    + rewrite lookup_insert_eq, bool_decide_eq_true_2; [done|by left].
    + rewrite lookup_insert_ne by done.
      rewrite bool_decide_eq_false_2; [done|].
      intros [?|?]%elem_of_cons; congruence.
Qed.

Lemma filtered_tweets_keyed users (m : gmap string (list tweet)) :
  keyed_by users m -> filtered_tweets users m = m.
Proof.
  intros Hk. apply map_eq. intros k. unfold filtered_tweets.
  rewrite filtered_tweets_fold.
  - case_bool_decide as Hin; [done|]. rewrite lookup_empty.
    symmetry. apply eq_None_not_Some. intros HS. by apply Hin, Hk.
  - intros u Hu. apply Hk. by apply list_elem_of_fmap_2.
Qed.

(** X13.  In the test script the handles of the configuration are used both
    to build the client and to filter its result.  For a configuration that
    was accepted, the first call of the new client raises at line 160 when
    its window starts at no [datetime]; otherwise it returns a dictionary
    that holds the lower-cased form of every handle of the list as a key,
    so that the test of line 80 succeeds for every handle and the warning
    of line 83 for a missing account is never logged; the filter leaves the
    dictionary as it is, and it is not empty, so that the result is saved. *)
Theorem test_filter_keeps_everything
    (fromisoformat : string -> res datetime)
    (environ : gmap string string) (config : Config.t)
    (cookie_file : option (res (list cookie)))
    (hours current_time start_now : Z) (sessions : nat -> session) :
  Config.init environ = inr config ->
  (start_time_of start_now hours = Raise OverflowError /\
   (get_recent_tweets fromisoformat (TwitterClient config cookie_file)
      hours current_time start_now sessions).1.2 = Raise OverflowError) \/
  (start_time_of start_now hours = Ok (start_now - timedelta_hours hours) /\
   exists tweets_by_user,
     (get_recent_tweets fromisoformat (TwitterClient config cookie_file)
        hours current_time start_now sessions).1.2 = Ok tweets_by_user /\
     (forall user, user ∈ Config.twitter_users config ->
        is_Some (tweets_by_user !! Str.lower user)) /\
     filtered_tweets (Config.twitter_users config) tweets_by_user
     = tweets_by_user /\
     tweets_by_user <> ∅).
Proof.
  intros [_ Husers]%init_users.
  set (c := TwitterClient config cookie_file).
  destruct (get_recent_tweets_cases fromisoformat c hours current_time
              start_now sessions)
    as [(cached & Hhit & _)|[(_ & Hstart & ->)|(_ & Hstart & ->)]];
    cbn [fst snd].
  { unfold cache_lookup, c in Hhit. simpl in Hhit.
    by rewrite lookup_empty in Hhit. }
  { by left. }
  right. split; [done|]. eexists. split; [done|].
  pose proof (collected_keyed fromisoformat c hours start_now sessions)
    as Hk.
  change (twitter_users c) with (Config.twitter_users config) in Hk.
  split; [|split; [by apply filtered_tweets_keyed|]].
  - intros user Hin. apply Hk. by apply list_elem_of_fmap_2.
  - destruct (Config.twitter_users config) as [|u us] eqn:Hu; [done|].
    intros Hempty. rewrite Hempty in Hk.
    destruct (proj2 (Hk (Str.lower u))) as [? Hl]; [by left|].
    by rewrite lookup_empty in Hl.
Qed.

Lemma test_filter_keeps_everything_witness :
  exists tweets_by_user,
    (get_recent_tweets Fixture.iso
       (TwitterClient
          (Config.load {["DISCORD_TOKEN" := "t"; "TWITTER_USERS" := "NASA";
                         "OPENAI_API_KEY" := "k"]})
          (Some (Ok [{["name" := "auth_token"]}])))
       24 Fixture.now Fixture.now (fun _ => Fixture.three_rounds)).1.2
    = Ok tweets_by_user /\
    is_Some (tweets_by_user !! "nasa") /\
    filtered_tweets ["NASA"] tweets_by_user = tweets_by_user.
Proof.
  destruct (test_filter_keeps_everything Fixture.iso
              {["DISCORD_TOKEN" := "t"; "TWITTER_USERS" := "NASA";
                "OPENAI_API_KEY" := "k"]}
              (Config.load {["DISCORD_TOKEN" := "t"; "TWITTER_USERS" := "NASA";
                             "OPENAI_API_KEY" := "k"]})
              (Some (Ok [{["name" := "auth_token"]}]))
              24 Fixture.now Fixture.now (fun _ => Fixture.three_rounds))
    as [[Hstart _]|(_ & m & Hm & Hkey & Hf & _)].
  - vm_compute. reflexivity.
  - discriminate Hstart.
  - exists m. split; [exact Hm|]. split; [|exact Hf].
    apply (Hkey "NASA"). vm_compute. by left.
Defined.

(** ** The link messages of the summary script *)

Lemma ulstrip_nil p s : U.lstrip p s = [] <-> forallb p s = true.
Proof.
  induction s as [|a s IH]; [done|]. cbn [U.lstrip forallb].
  destruct (p a); [done|]. by split.
Qed.

Lemma forallb_rev {A} (p : A -> bool) s : forallb p (rev s) = forallb p s.
Proof.
  induction s as [|a s IH]; [done|].
  cbn [rev]. rewrite forallb_app, IH. cbn [forallb].
  rewrite andb_true_r. apply andb_comm.
Qed.

Lemma urstrip_nil p s : U.rstrip p s = [] <-> forallb p s = true.
Proof.
  unfold U.rstrip. rewrite <- (forallb_rev p s), <- ulstrip_nil.
  split; [|by intros ->].
  intros H. apply (f_equal (@rev N)) in H. by rewrite rev_involutive in H.
Qed.

Lemma ulstrip_head p s :
  match U.lstrip p s with
  | a :: _ => p a = false
  | [] => True
  end.
Proof.
  induction s as [|a s IH]; [done|]. cbn [U.lstrip].
  by destruct (p a) eqn:Ha.
Qed.

Lemma ustrip_nil p s : U.strip p s = [] <-> forallb p s = true.
Proof.
  unfold U.strip. rewrite urstrip_nil, <- (ulstrip_nil p s).
  pose proof (ulstrip_head p s) as Hh.
  destruct (U.lstrip p s) as [|a r]; [by split|].
  cbn [forallb]. rewrite Hh. by split.
Qed.

Lemma links_loop_spec (all : list (U.ustr * list jtweet)) tweets_data :
  forall content sent final,
    GenerateAiSummary.links_loop tweets_data content = (sent, final) ->
    (forall x, x ∈ tweets_data -> x ∈ all) ->
    ((length content <= 1900)%nat \/
     exists x, x ∈ all /\ content = GenerateAiSummary.links_content x.1 x.2) ->
    (exists r, content = 42%N :: r) ->
    concat sent ++ final
    = content
      ++ concat ((fun x => GenerateAiSummary.links_content x.1 x.2)
                   <$> tweets_data) /\
    (length sent <= length tweets_data)%nat /\
    Forall (fun m =>
              (length m <= 1900)%nat \/
              exists x, x ∈ all /\
                        m = GenerateAiSummary.links_content x.1 x.2) sent /\
    ((length final <= 1900)%nat \/
     exists x, x ∈ all /\ final = GenerateAiSummary.links_content x.1 x.2) /\
    (exists r, final = 42%N :: r).
Proof.
  induction tweets_data as [|[username tweets] rest IH];
    intros content sent final Hrun Hall Hcontent Hhead.
  - injection Hrun as <- <-. simpl. rewrite app_nil_r.
    split; [done|]. split; [done|]. split; [done|]. by split.
  - cbn [GenerateAiSummary.links_loop] in Hrun.
    assert (Hrest : forall x, x ∈ rest -> x ∈ all)
      by (intros x Hx; apply Hall; by right).
    destruct (Nat.ltb_spec 1900
                (length (content
                         ++ GenerateAiSummary.links_content username tweets)))
      as [Hlong|Hshort].
    + destruct (GenerateAiSummary.links_loop rest
                  (GenerateAiSummary.links_content username tweets))
        as [sent' final'] eqn:Hloop.
      injection Hrun as <- <-.
      apply IH in Hloop as (Hcat & Hlen & Hsent & Hfin); [|done| |].
      * rewrite fmap_cons. cbn [concat fst snd length].
        split; [by rewrite <- app_assoc, Hcat|]. split; [lia|].
        split; [by constructor|done].
      * right. exists (username, tweets). split; [|done].
        apply Hall. by left.
      * by eexists.
    + apply IH in Hrun as (Hcat & Hlen & Hsent & Hfin); [|done| |].
      * rewrite fmap_cons. cbn [concat fst snd length].
        split; [by rewrite Hcat, <- app_assoc|]. split; [lia|done].
      * by left.
      * destruct Hhead as [r ->]. by eexists.
Qed.

(** X14.  The contents the summary script hands to
    [send_message_to_discord] as link messages, put one after the other,
    are the heading followed by the block of every account, in the order of
    the file: no link is dropped, repeated or moved.  There is always a last
    message, there are at most as many messages as accounts and one more,
    and a message is longer than 1900 characters only when it is the block
    of a single account. *)
Theorem link_messages_carry_every_link
    (tweets_data : list (U.ustr * list jtweet)) :
  concat (GenerateAiSummary.links_messages tweets_data)
  = GenerateAiSummary.links_header
    ++ concat ((fun x => GenerateAiSummary.links_content x.1 x.2)
                 <$> tweets_data) /\
  (1 <= length (GenerateAiSummary.links_messages tweets_data)
     <= S (length tweets_data))%nat /\
  Forall (fun m =>
            (length m <= 1900)%nat \/
            exists x, x ∈ tweets_data /\
                      m = GenerateAiSummary.links_content x.1 x.2)
         (GenerateAiSummary.links_messages tweets_data).
Proof.
  unfold GenerateAiSummary.links_messages.
  destruct (GenerateAiSummary.links_loop tweets_data
              GenerateAiSummary.links_header) as [sent final] eqn:Hrun.
  apply (links_loop_spec tweets_data) in Hrun
    as (Hcat & Hlen & Hsent & Hfinal & [r ->]); [|done| |].
  2: { left. vm_compute. lia. }
  2: { by eexists. }
  assert (Hstrip : U.strip U.isspace (42%N :: r) <> []).
  { rewrite ustrip_nil. by cbn. }
  destruct (U.strip U.isspace (42%N :: r)); [done|].
  rewrite concat_app. cbn [concat]. rewrite app_nil_r.
  split; [done|]. rewrite length_app. cbn [length].
  split; [lia|]. apply Forall_app. split; [done|by constructor].
Qed.

(** ** The embeds of the summary message *)

Lemma split_hashes_cons c s :
  U.split_hashes (c :: s)
  = match s with
    | c2 :: c3 :: c4 :: rest =>
        if ((c =? 35) && (c2 =? 35) && (c3 =? 35) && (c4 =? 35))%N
        then [] :: U.split_hashes rest
        else match U.split_hashes s with
             | p :: ps => (c :: p) :: ps
             | [] => [[c]]
             end
    | _ => match U.split_hashes s with
           | p :: ps => (c :: p) :: ps
           | [] => [[c]]
           end
    end.
Proof. reflexivity. Qed.

Lemma split_hashes_none s :
  (forall pre post, s <> pre ++ U.lit "####" ++ post) ->
  U.split_hashes s = [s].
Proof.
  induction s as [|c s IH]; intros Hno; [done|].
  assert (Hs : U.split_hashes s = [s]).
  { apply IH. intros pre post ->. by apply (Hno (c :: pre) post). }
  rewrite split_hashes_cons, Hs.
  destruct s as [|c2 [|c3 [|c4 rest]]]; try done.
  destruct ((c =? 35) && (c2 =? 35) && (c3 =? 35) && (c4 =? 35))%N eqn:Hh;
    [|done].
  apply andb_prop in Hh as [[[H1 H2]%andb_prop H3]%andb_prop H4].
  apply N.eqb_eq in H1, H2, H3, H4. subst.
  by destruct (Hno [] rest).
Qed.

Lemma split_hashes_nonempty s : U.split_hashes s <> [].
Proof.
  induction s as [|c s IH]; [done|]. rewrite split_hashes_cons.
  destruct s as [|c2 [|c3 [|c4 rest]]];
    try (by destruct (U.split_hashes _)).
  destruct (_ && _)%N; [done|]. by destruct (U.split_hashes _).
Qed.

Lemma ulstrip_idem p s : U.lstrip p (U.lstrip p s) = U.lstrip p s.
Proof.
  pose proof (ulstrip_head p s) as Hh.
  destruct (U.lstrip p s) as [|a r]; [done|]. cbn [U.lstrip].
  by rewrite Hh.
Qed.

Lemma ulstrip_decompose p s :
  exists sp, s = sp ++ U.lstrip p s /\ forallb p sp = true.
Proof.
  induction s as [|a s (sp & Hs & Hp)]; [by exists []|].
  cbn [U.lstrip]. destruct (p a) eqn:Ha.
  - exists (a :: sp). cbn [forallb]. rewrite Ha, Hp. split; [|done].
    cbn [app]. by rewrite <- Hs.
  - by exists [].
Qed.

Lemma urstrip_decompose p s :
  exists sp, s = U.rstrip p s ++ sp /\ forallb p sp = true.
Proof.
  destruct (ulstrip_decompose p (rev s)) as (sp & Hs & Hp).
  exists (rev sp). rewrite forallb_rev. split; [|done].
  unfold U.rstrip. rewrite <- rev_app_distr, <- Hs.
  by rewrite rev_involutive.
Qed.

Lemma urstrip_idem p s : U.rstrip p (U.rstrip p s) = U.rstrip p s.
Proof. unfold U.rstrip. by rewrite rev_involutive, ulstrip_idem. Qed.

Lemma urstrip_keeps_head p a s :
  p a = false -> exists r, U.rstrip p (a :: s) = a :: r.
Proof.
  intros Ha. destruct (urstrip_decompose p (a :: s)) as (sp & Hs & Hp).
  destruct (U.rstrip p (a :: s)) as [|b r].
  - cbn [app] in Hs. subst sp. cbn [forallb] in Hp. by rewrite Ha in Hp.
  - injection Hs as <- _. by exists r.
Qed.

Lemma ustrip_idem p s : U.strip p (U.strip p s) = U.strip p s.
Proof.
  unfold U.strip. pose proof (ulstrip_head p s) as Hh.
  destruct (U.lstrip p s) as [|a r] eqn:Hl; [done|].
  destruct (urstrip_keeps_head p a r Hh) as [r' Hr]. rewrite Hr.
  cbn [U.lstrip]. rewrite Hh, <- Hr. apply urstrip_idem.
Qed.

Lemma ulstrip_elem p s (x : N) : x ∈ U.lstrip p s -> x ∈ s.
Proof.
  destruct (ulstrip_decompose p s) as (sp & Hs & _).
  intros Hx. rewrite Hs, elem_of_app. by right.
Qed.

Lemma ustrip_elem p s (x : N) : x ∈ U.strip p s -> x ∈ s.
Proof.
  unfold U.strip. intros Hx. apply (ulstrip_elem p).
  destruct (urstrip_decompose p (U.lstrip p s)) as (sp & -> & _).
  rewrite elem_of_app. by left.
Qed.

Lemma split_char_free sep s :
  Forall (fun p => sep ∉ p) (U.split_char sep s).
Proof.
  induction s as [|c s IH]; cbn [U.split_char].
  - constructor; [apply not_elem_of_nil|constructor].
  - destruct (N.eqb_spec c sep) as [->|Hne].
    + constructor; [apply not_elem_of_nil|done].
    + destruct (U.split_char sep s) as [|p ps].
      * constructor; [|done]. by intros [?| ?%elem_of_nil]%elem_of_cons.
      * inversion IH; subst. constructor; [|done].
        by intros [?|?]%elem_of_cons.
Qed.

Lemma section_embed_stripped section e :
  GenerateAiSummary.section_embed section = Some e ->
  U.strip U.isspace (GenerateAiSummary.description e)
  = GenerateAiSummary.description e /\
  GenerateAiSummary.footer e = None /\
  U.strip U.isspace (GenerateAiSummary.title e) = GenerateAiSummary.title e /\
  10%N ∉ GenerateAiSummary.title e.
Proof.
  unfold GenerateAiSummary.section_embed.
  destruct (U.strip U.isspace section) as [|a stripped]; [done|].
  pose proof (split_char_free 10%N (a :: stripped)) as Hfree.
  cbn zeta. generalize dependent (U.split_char 10%N (a :: stripped)).
  intros lines Hfree [= <-].
  cbn [GenerateAiSummary.description GenerateAiSummary.footer
       GenerateAiSummary.title].
  split; [apply ustrip_idem|]. split; [done|]. split; [apply ustrip_idem|].
  intros H%ustrip_elem%ustrip_elem%ustrip_elem.
  destruct lines as [|l ls].
  - by apply elem_of_nil in H.
  - by inversion Hfree.
Qed.

Lemma length_omap_le {A B} (f : A -> option B) l :
  (length (omap f l) <= length l)%nat.
Proof.
  induction l as [|a l IH]; [done|]. cbn [omap list_omap length].
  destruct (f a); cbn [length]; lia.
Qed.

(** X15.  A summary that holds no [####] gives a message without any
    embed: its text is not sent.  In general there are at most as many
    embeds as parts between the [####]; every description is free of white
    space at both ends, and so is the title of every embed but the first
    one with the footer, which moreover is a single line. *)
Theorem summary_embeds_follow_the_headings
    (main_title footer_text summary : U.ustr) :
  ((forall pre post, summary <> pre ++ U.lit "####" ++ post) ->
   GenerateAiSummary.summary_embeds main_title footer_text summary = []) /\
  (length (GenerateAiSummary.summary_embeds main_title footer_text summary)
   <= length (U.split_hashes summary))%nat /\
  Forall (fun e =>
            U.strip U.isspace (GenerateAiSummary.description e)
            = GenerateAiSummary.description e /\
            (GenerateAiSummary.footer e = None ->
             U.strip U.isspace (GenerateAiSummary.title e)
             = GenerateAiSummary.title e /\
             10%N ∉ GenerateAiSummary.title e))
         (GenerateAiSummary.summary_embeds main_title footer_text summary).
Proof.
  unfold GenerateAiSummary.summary_embeds. cbn zeta.
  split; [|split].
  - intros Hno. by rewrite (split_hashes_none _ Hno).
  - pose proof (split_hashes_nonempty summary) as Hne.
    destruct (U.split_hashes summary) as [|first rest]; [done|].
    cbn [hd tl length]. rewrite length_app.
    pose proof (length_omap_le (GenerateAiSummary.section_embed) rest).
    destruct (1 <? S (length rest))%nat; [|cbn [length]; lia].
    destruct (U.strip U.isspace first); cbn [length]; lia.
  - apply Forall_app. split.
    + destruct (1 <? _)%nat; [|constructor].
      destruct (U.strip U.isspace (hd [] (U.split_hashes summary)))
        as [|a main] eqn:Hmain; constructor; [|constructor].
      cbn [GenerateAiSummary.description GenerateAiSummary.footer].
      split; [|done]. rewrite <- Hmain. apply ustrip_idem.
    + apply Forall_forall. intros e (section & _ & He)%list_elem_of_omap.
      apply section_embed_stripped in He as (? & ? & ? & ?). done.
Qed.

Lemma summary_embeds_follow_the_headings_witness :
  GenerateAiSummary.summary_embeds (U.lit "title") (U.lit "footer")
                                   (U.lit "nothing new today") = [].
Proof.
  apply (summary_embeds_follow_the_headings (U.lit "title") (U.lit "footer")
           (U.lit "nothing new today")).
  intros pre post H.
  assert (Hin : 35%N ∈ U.lit "nothing new today").
  { rewrite H, !elem_of_app. right. left. by left. }
  vm_compute in Hin. by repeat (apply elem_of_cons in Hin as [Hin|Hin];
                                 [done|]); apply elem_of_nil in Hin.
Defined.

(** ** The embeds of the tweet messages *)

Lemma tweet_embeds_spec tweet :
  length (SendWebhook.tweet_embeds tweet)
  = Nat.max 1 (length (j_image_urls tweet)) /\
  omap SendWebhook.image (SendWebhook.tweet_embeds tweet)
  = j_image_urls tweet /\
  omap SendWebhook.description (SendWebhook.tweet_embeds tweet)
  = [SendWebhook.description_of tweet] /\
  omap SendWebhook.title (SendWebhook.tweet_embeds tweet)
  = [SendWebhook.title_of tweet] /\
  Forall (fun e => SendWebhook.url e = j_url tweet)
         (SendWebhook.tweet_embeds tweet).
Proof.
  unfold SendWebhook.tweet_embeds.
  destruct (j_image_urls tweet) as [|first more]; [by repeat constructor|].
  cbn [length omap list_omap SendWebhook.image SendWebhook.description
       SendWebhook.title SendWebhook.tweet_embed SendWebhook.url].
  rewrite length_fmap.
  assert (Himg : omap SendWebhook.image
            ((fun img_url =>
                {| SendWebhook.title := None; SendWebhook.description := None;
                   SendWebhook.url := j_url tweet; SendWebhook.color := None;
                   SendWebhook.footer := None; SendWebhook.author := None;
                   SendWebhook.image := Some img_url |}) <$> more) = more).
  { induction more as [|i more IH]; [done|].
    cbn [fmap list_fmap omap list_omap SendWebhook.image].
    f_equal. apply IH. }
  assert (Hnone : forall (f : SendWebhook.embed -> option U.ustr),
            (forall img_url,
               f {| SendWebhook.title := None; SendWebhook.description := None;
                    SendWebhook.url := j_url tweet; SendWebhook.color := None;
                    SendWebhook.footer := None; SendWebhook.author := None;
                    SendWebhook.image := Some img_url |} = None) ->
            omap f
              ((fun img_url =>
                  {| SendWebhook.title := None;
                     SendWebhook.description := None;
                     SendWebhook.url := j_url tweet;
                     SendWebhook.color := None;
                     SendWebhook.footer := None; SendWebhook.author := None;
                     SendWebhook.image := Some img_url |}) <$> more) = []).
  { intros f Hf. clear Himg. induction more as [|i more IH]; [done|].
    cbn [fmap list_fmap omap list_omap]. rewrite Hf. apply IH. }
  split; [lia|]. split; [by rewrite Himg|].
  split; [by rewrite (Hnone SendWebhook.description)|].
  split; [by rewrite (Hnone SendWebhook.title)|].
  constructor; [done|]. apply Forall_fmap. by apply Forall_true.
Qed.

Lemma description_of_length tweet :
  (length (SendWebhook.description_of tweet) <= 500)%nat.
Proof.
  unfold SendWebhook.description_of.
  destruct (Nat.leb_spec (length (j_text tweet)) 500); [done|].
  rewrite length_app, length_take. change (length (U.lit "...")) with 3%nat.
  lia.
Qed.

Lemma title_of_length tweet :
  (length (SendWebhook.title_of tweet) <= 107)%nat.
Proof.
  unfold SendWebhook.title_of.
  assert (Htype : length (SendWebhook.tweet_type tweet) = 2%nat)
    by (unfold SendWebhook.tweet_type; by destruct (j_is_retweet tweet)).
  assert (Hdots : (length (if (100 <? length (j_text tweet))%nat
                           then U.lit "..." else []) <= 3)%nat)
    by (destruct (100 <? length (j_text tweet))%nat; cbv; lia).
  rewrite !length_app, length_take, Htype.
  change (length (U.lit ": ")) with 2%nat. lia.
Qed.

Lemma embeds_of_tweets tweets :
  length (t ← tweets; SendWebhook.tweet_embeds t)
  = sum_list_with (fun t => Nat.max 1 (length (j_image_urls t))) tweets /\
  omap SendWebhook.image (t ← tweets; SendWebhook.tweet_embeds t)
  = concat (j_image_urls <$> tweets) /\
  omap SendWebhook.description (t ← tweets; SendWebhook.tweet_embeds t)
  = SendWebhook.description_of <$> tweets /\
  omap SendWebhook.title (t ← tweets; SendWebhook.tweet_embeds t)
  = SendWebhook.title_of <$> tweets /\
  Forall (fun e => exists t, t ∈ tweets /\ SendWebhook.url e = j_url t)
         (t ← tweets; SendWebhook.tweet_embeds t).
Proof.
  induction tweets as [|t tweets (IHl & IHi & IHd & IHt & IHu)];
    [by repeat constructor|].
  destruct (tweet_embeds_spec t) as (Hl & Hi & Hd & Ht & Hu).
  rewrite bind_cons, length_app, !omap_app, Hl, Hi, Hd, Ht, IHl, IHi, IHd,
    IHt.
  repeat split; try done. apply Forall_app. split.
  - eapply Forall_impl; [exact Hu|]. intros e He. exists t.
    split; [by left|done].
  - eapply Forall_impl; [exact IHu|]. intros e (t' & ? & ?). exists t'.
    split; [by right|done].
Qed.

(** The posts go out in order, up to and including the first that fails. *)
Lemma send_posts_spec posts messages : forall k,
  ((forall j, (j < length messages)%nat ->
      is_ok (posts (k + j)%nat) = true) /\
   SendWebhook.send_posts posts k messages = (messages, true)) \/
  (exists j,
     (j < length messages)%nat /\ is_ok (posts (k + j)%nat) = false /\
     (forall i, (i < j)%nat -> is_ok (posts (k + i)%nat) = true) /\
     SendWebhook.send_posts posts k messages
     = (take (S j) messages, false)).
Proof.
  induction messages as [|m rest IH]; intros k.
  { left. split; [cbn [length]; lia|done]. }
  cbn [SendWebhook.send_posts length].
  destruct (posts k) as [[]|e] eqn:Hk.
  - destruct (IH (S k)) as [[Hall ->]|(j & Hj & Hfail & Hbefore & ->)].
    + left. split; [|done]. intros [|j] Hj.
      * by rewrite Nat.add_0_r, Hk.
      * rewrite Nat.add_succ_r. apply Hall. lia.
    + right. exists (S j). split; [lia|].
      split; [by rewrite Nat.add_succ_r|]. split; [|done].
      intros [|i] Hi.
      * by rewrite Nat.add_0_r, Hk.
      * rewrite Nat.add_succ_r. apply Hbefore. lia.
  - right. exists 0%nat. split; [lia|].
    split; [by rewrite Nat.add_0_r, Hk|]. split; [lia|].
    cbn [take]. by rewrite take_0.
Qed.

(** X16.  [send_message_to_discord] on the Twitter data posts the summary,
    then the tweet message of every account of the file that has a tweet,
    in the order of the file, then the JSON file.  When no post fails all
    of these are posted and the function returns [True]; when post number
    [j] is the first to fail, the messages up to this one were handed over,
    nothing after it, and the function returns [False].  A given message is
    posted alone; without readable files nothing is posted.  The message of
    an account is made from its first five tweets: a tweet adds one embed
    if it has no image and one per image otherwise, so the images of these
    tweets are all there, each once and in order; every embed links to one
    of these tweets; a description has at most 500 characters and a title
    at most 107. *)
Theorem tweet_messages_embed_the_first_five
    (posts : nat -> res unit) (tweets_data : list (U.ustr * list jtweet)) :
  (forall files,
     SendWebhook.send_message_to_discord posts true files
     = ([SendWebhook.Given], is_ok (posts 0%nat))) /\
  (forall files,
     files = None \/ (exists e, files = Some (Raise e)) ->
     SendWebhook.send_message_to_discord posts false files = ([], false)) /\
  (((forall j, (j < length (SendWebhook.all_messages tweets_data))%nat ->
       is_ok (posts j) = true) /\
    SendWebhook.send_message_to_discord posts false (Some (Ok tweets_data))
    = (SendWebhook.all_messages tweets_data, true)) \/
   (exists j,
      (j < length (SendWebhook.all_messages tweets_data))%nat /\
      is_ok (posts j) = false /\
      (forall i, (i < j)%nat -> is_ok (posts i) = true) /\
      SendWebhook.send_message_to_discord posts false (Some (Ok tweets_data))
      = (take (S j) (SendWebhook.all_messages tweets_data), false))) /\
  SendWebhook.all_messages tweets_data
  = SendWebhook.Summary
      ((fun x => (x.1, length x.2)) <$> tweets_data)
    :: ((fun m => SendWebhook.UserTweets m.1 m.2)
          <$> SendWebhook.user_messages tweets_data)
    ++ [SendWebhook.JsonFile] /\
  (SendWebhook.user_messages tweets_data).*1
  = (filter (fun x => x.2 <> []) tweets_data).*1 /\
  Forall (fun m =>
            exists tweets,
              (m.1, tweets) ∈ tweets_data /\ tweets <> [] /\
              length m.2
              = sum_list_with
                  (fun t => Nat.max 1 (length (j_image_urls t)))
                  (take 5 tweets) /\
              omap SendWebhook.image m.2
              = concat (j_image_urls <$> take 5 tweets) /\
              omap SendWebhook.description m.2
              = SendWebhook.description_of <$> take 5 tweets /\
              Forall (fun e => exists t, t ∈ take 5 tweets /\
                                         SendWebhook.url e = j_url t) m.2 /\
              Forall (fun d => (length d <= 500)%nat)
                     (omap SendWebhook.description m.2) /\
              Forall (fun d => (length d <= 107)%nat)
                     (omap SendWebhook.title m.2))
         (SendWebhook.user_messages tweets_data).
Proof.
  split.
  { intros files. unfold SendWebhook.send_message_to_discord.
    cbn [SendWebhook.send_posts]. by destruct (posts 0%nat) as [[]|e]. }
  split.
  { by intros files [-> |[e ->]]. }
  split.
  { unfold SendWebhook.send_message_to_discord.
    apply (send_posts_spec posts (SendWebhook.all_messages tweets_data) 0). }
  split.
  { unfold SendWebhook.all_messages, SendWebhook.summary_fields.
    f_equal; [f_equal|f_equal].
    - apply list_fmap_ext. by intros _ [username tweets] _.
    - apply list_fmap_ext. by intros _ [username embeds] _. }
  unfold SendWebhook.user_messages. split.
  - induction tweets_data as [|[username tweets] rest IH]; [done|].
    cbn [omap list_omap]. rewrite filter_cons. cbn [snd].
    destruct tweets as [|t tweets].
    + cbn [take]. by rewrite decide_False by (by intros []).
    + rewrite decide_True by done. cbn [take fmap list_fmap fst].
      by rewrite <- IH.
  - apply Forall_forall. intros [username embeds].
    intros ([username' tweets] & Hin & Hm)%list_elem_of_omap.
    assert (Hm' : take 5 tweets <> [] /\
                  (username, embeds)
                  = (username', t ← take 5 tweets; SendWebhook.tweet_embeds t)).
    { destruct (take 5 tweets); [done|]. by injection Hm as <- <-. }
    destruct Hm' as [Hne [= -> ->]]. exists tweets. cbn [fst snd].
    destruct (embeds_of_tweets (take 5 tweets)) as (Hl & Hi & Hd & Ht & Hu).
    split; [done|]. split; [by destruct tweets|].
    split; [done|]. split; [done|]. split; [done|]. split; [done|].
    rewrite Hd, Ht. split; apply Forall_fmap, Forall_true; intros t'.
    + apply description_of_length.
    + apply title_of_length.
Qed.

(** ** From the client to the tweet messages *)

(** X17.  Every tweet the client returns has the six keys with values of
    the types the JSON consumers read, so it passes through the JSON file
    whole.  The original author is there only for a repost and is never
    empty; hence the author line of the embed is written exactly for the
    tweets that carry an original author, and the test of the repost flag
    beside it never decides anything. *)
Theorem returned_tweets_pass_through_json
    (fromisoformat : string -> res datetime) (c : client) (start_time : Z)
    (username : string) (s : session)
    (str_of_datetime : datetime -> U.ustr) :
  Forall (fun t =>
            exists jt,
              jtweet_of str_of_datetime t = Some jt /\
              (is_Some (j_original_author jt) -> j_is_retweet jt = true) /\
              j_original_author jt <> Some [] /\
              SendWebhook.author (SendWebhook.tweet_embed jt)
              = (fun a => [21407; 20316; 32773]%N ++ U.lit ": @" ++ a)
                  <$> j_original_author jt)
         (task_result fromisoformat c start_time username s).
Proof.
  destruct (task_result_items fromisoformat c start_time username s)
    as [_ Hitems].
  eapply Forall_impl; [exact Hitems|]. cbn beta.
  intros t (e & i & He & url & _ & Hdata).
  apply tweet_data_of_spec in Hdata
    as (text & ts & _ & _ & _ & Hid & Htext & Hcr & Himg & Hurl & Hrt & Hoa
        & _).
  unfold jtweet_of. rewrite Hid, Htext, Hcr, Himg, Hurl, Hrt, Hoa.
  unfold stored_original_author.
  destruct (retweet_status username e) as [[] [[|a0 a]|]]; cbn [fst];
    eexists; (split; [reflexivity|]);
    cbn [j_original_author j_is_retweet SendWebhook.tweet_embed
         SendWebhook.author fmap option_fmap option_map];
    (split; [done|]); (split; [done|]); try done.
  all: by intros [? [=]].
Qed.

(** ** The domain of a cookie *)

Lemma normalize_domain_some (ck : cookie) d :
  ck !! "domain" = Some d ->
  normalize_domain ck
  = if Str.starts_with "." d then <["domain" := Str.drop 1 d]> ck else ck.
Proof.
  intros Hd. unfold normalize_domain. rewrite Hd.
  destruct d as [|[[] [] [] [] [] [] [] []] d]; reflexivity.
Qed.

Lemma starts_with_dot d :
  Str.starts_with "." d = true -> d = String "." (Str.drop 1 d).
Proof.
  destruct d as [|a d]; [done|]. cbn [Str.starts_with Str.drop].
  rewrite andb_true_r. by intros ->%Ascii.eqb_eq.
Qed.

(** X18.  Handing a cookie to the browser changes nothing but its domain,
    which loses one leading dot if it has one.  The domain is then free of a
    leading dot unless it had two; and since the cookie is changed in place,
    doing it again for the next task changes the cookie again exactly in
    that case. *)
Theorem cookie_domain_loses_one_dot (ck : cookie) :
  (forall k, k <> "domain" -> normalize_domain ck !! k = ck !! k) /\
  (ck !! "domain" = None -> normalize_domain ck = ck) /\
  (forall d, ck !! "domain" = Some d ->
     exists d',
       normalize_domain ck !! "domain" = Some d' /\
       d = (if Str.starts_with "." d then String "." d' else d') /\
       Str.starts_with "." d' = Str.starts_with ".." d /\
       (normalize_domain (normalize_domain ck) = normalize_domain ck <->
        Str.starts_with ".." d = false)).
Proof.
  split; [|split].
  - intros k Hk. unfold normalize_domain.
    destruct (ck !! "domain") as [[|[[] [] [] [] [] [] [] []] d]|];
      try done.
    by rewrite lookup_insert_ne.
  - intros Hd. unfold normalize_domain. by rewrite Hd.
  - intros d Hd. rewrite (normalize_domain_some ck d Hd).
    destruct (Str.starts_with "." d) eqn:Hdot.
    + exists (Str.drop 1 d). rewrite lookup_insert_eq.
      split; [done|]. split; [by apply starts_with_dot|].
      apply starts_with_dot in Hdot.
      assert (Htwo : Str.starts_with ".." d
                     = Str.starts_with "." (Str.drop 1 d)).
      { rewrite Hdot at 1. cbn [Str.starts_with Str.drop].
        by rewrite Ascii.eqb_refl. }
      split; [done|].
      rewrite (normalize_domain_some _ (Str.drop 1 d))
        by apply lookup_insert_eq.
      rewrite Htwo. destruct (Str.starts_with "." (Str.drop 1 d)) eqn:Hdot2.
      * split; [|done]. intros Heq.
        apply (f_equal (fun m : cookie => m !! "domain")) in Heq.
        rewrite !lookup_insert_eq in Heq.
        assert (Heq' : Str.drop 1 (Str.drop 1 d) = Str.drop 1 d)
          by congruence.
        apply starts_with_dot in Hdot2.
        remember (Str.drop 1 (Str.drop 1 d)) as x eqn:Hx.
        rewrite Hdot2 in Heq'. apply (f_equal String.length) in Heq'.
        cbn [String.length] in Heq'. lia.
      * by split.
    + exists d. split; [done|]. split; [done|].
      assert (Htwo : Str.starts_with ".." d = false).
      { destruct d as [|a d]; [done|]. cbn [Str.starts_with] in *.
        rewrite andb_true_r in Hdot. by rewrite Hdot. }
      rewrite Htwo, Hdot. split; [done|].
      rewrite (normalize_domain_some ck d Hd), Hdot. by split.
Qed.

(** ** A run in which every task fails *)

(** X19.  A run counts as done even when every task failed in its set-up:
    the call, not served from the cache and with a window that starts at a
    [datetime], returns the empty list for every account, stores this
    dictionary over whatever was cached for these hours, and every call for
    the same hours within the next five minutes returns it again without
    starting a task. *)
Theorem failed_run_is_cached
    (fromisoformat : string -> res datetime) (c : client)
    (hours current_time start_now : Z) (sessions : nat -> session) :
  cache_lookup c hours current_time = None ->
  is_ok (start_time_of start_now hours) = true ->
  (forall i,
     is_ok (setup_driver (sessions i)) = false \/
     session_applied c (sessions i) = false \/
     is_ok (profile_get (sessions i)) = false \/
     is_ok (wait_tweet (sessions i)) = false \/
     is_ok (find_tweets (sessions i)) = false) ->
  let c' := (get_recent_tweets fromisoformat c hours current_time start_now
               sessions).2 in
  (get_recent_tweets fromisoformat c hours current_time start_now
     sessions).1.2 = Ok (empty_by_user (twitter_users c)) /\
  _tweets_cache c' !! cache_key hours = Some (empty_by_user (twitter_users c))
  /\
  (forall later start_now' sessions',
     later - current_time < 300000000 ->
     get_recent_tweets fromisoformat c' hours later start_now' sessions'
     = ([], Ok (empty_by_user (twitter_users c)), c')).
Proof.
  intros Hmiss Hstart Hfail. cbn zeta.
  destruct (get_recent_tweets_cases fromisoformat c hours current_time
              start_now sessions)
    as [(cached & ? & _)|[(_ & Hraise & _)|(_ & _ & ->)]];
    [congruence|by rewrite Hraise in Hstart|].
  cbn [fst snd].
  assert (Hcol : collected fromisoformat c hours start_now sessions
                 = empty_by_user (twitter_users c)).
  { unfold collected. apply merge_results_same. intros j u Hu.
    rewrite (task_result_unclean fromisoformat c _ u (sessions (0 + j)%nat))
      by apply Hfail.
    rewrite empty_by_user_lookup, bool_decide_eq_true_2; [done|].
    apply list_elem_of_fmap_2. by eapply list_elem_of_lookup_2. }
  rewrite Hcol. split; [done|]. split.
  { cbn [stored _tweets_cache]. apply lookup_insert_eq. }
  intros later start_now' sessions' Hlater.
  apply get_recent_tweets_hit. unfold cache_lookup, cache_ttl_minutes.
  cbn [stored after_events _tweets_cache _tweets_cache_time].
  rewrite !lookup_insert_eq.
  destruct (Z.ltb_spec (later - current_time) (5 * 60 * 1000000)); [done|lia].
Qed.

Lemma failed_run_is_cached_witness :
  (get_recent_tweets Fixture.iso (Fixture.client_of ["NASA"]) 24 Fixture.now
     Fixture.now (fun _ => Fixture.rejected)).1.2
  = Ok {["nasa" := []]} /\
  (get_recent_tweets Fixture.iso
     (get_recent_tweets Fixture.iso (Fixture.client_of ["NASA"]) 24
        Fixture.now Fixture.now (fun _ => Fixture.rejected)).2
     24 (Fixture.now + 1) (Fixture.now + 1)
     (fun _ => Fixture.three_rounds)).1
  = ([], Ok (empty_by_user ["NASA"])).
Proof.
  destruct (failed_run_is_cached Fixture.iso (Fixture.client_of ["NASA"]) 24
              Fixture.now Fixture.now (fun _ => Fixture.rejected))
    as (Hres & _ & Hnext).
  - vm_compute. reflexivity.
  - reflexivity.
  - intros i. right. left. vm_compute. reflexivity.
  - split.
    + rewrite Hres. vm_compute. reflexivity.
    + rewrite (Hnext (Fixture.now + 1) (Fixture.now + 1)
                 (fun _ => Fixture.three_rounds)); [reflexivity|lia].
Defined.
